(* ===== verification/_CoqProject ===== *)
-Q . S2P
Prelude.v
NodePath.v
NodeJoin.v
Selector.v
Geometry.v
RenderJob.v
Scheduler.v
SchedulerRun.v
Pool.v
PoolRefinement.v
Orchestrator.v
Main.v
FsState.v
FsRun.v
RunOutput.v
