(* ===== verification/Prelude.v ===== *)
(** * gsheets2img: a verification development of src/index.js

    The program (one ES module, [src/index.js]) turns every tab of a Google
    spreadsheet into a cropped JPEG.  Its parts, in the order the module runs
    them, and where each is modelled:

    - [download] and [unzip] (lines 12-43) fetch the zip export into a
      temporary directory and extract it into a second one, closing the
      archive in [finally] and removing the first directory as
      [dirname(zipPath)].  Modelled in [Main.v] as [Js] programs whose
      events are the awaited calls ([mkdtemp], [fetch], [pipeline], [open],
      [openReadStream], [mkdir], [close], [rm]); the environment [io_env]
      says which calls resolve and what [mkdtemp], the archive and
      [readdir] give.  The paths are built with [node:path]'s [join],
      [normalize] and [dirname], modelled after Node's algorithms in
      [NodeJoin.v].
    - Tab selection (lines 80-88): the directory listing is filtered to
      [.html] files, each name is cut to its sheet name, and the include and
      exclude lists of the configuration are applied.  Modelled in
      [NodePath.v] (the [node:path] and [String] built-ins the filter calls:
      [extname], [basename], [slice(0, -5)]) and [Selector.v] (the filter
      chain itself, with the configuration values as the code sees them:
      an array, or any other value).
    - Region locator and viewport sizer (lines 54-64): the clip rectangle
      computed from the bounding boxes of the row header and of [tbody], and
      the viewport computed from the clip.  Modelled in [Geometry.v] over
      exact rationals [Q] for the CSS pixel values and [Z] for the integer
      viewport ([Math.floor] is [Qfloor]).
    - The render job [screenshot] (lines 45-72): open a page, navigate,
      query the layout, resize, capture, close in [finally].  Modelled in
      [RenderJob.v] as a program in the trace-and-exception monad [Js] of
      this file: every browser call is an event of the trace, every thrown
      error an exception, and [try]/[catch]/[finally] are the combinators
      [js_catch] and [js_finally].  The browser's answers (does [goto]
      succeed, what do the selectors return) are a record [page_env].
    - The scheduler (lines 89-104): the [for] loop that pushes one promise
      per sheet into the array [promises], awaits [Promise.race] when the
      array reaches the configured concurrency, splices a promise out when
      it fulfils, and finally awaits [Promise.all] and closes the browser.
      Modelled in [Scheduler.v] as a small-step relation on an explicit
      state (loop index, the [promises] array with each promise's status,
      the completed jobs, the control point of the async function).  The
      interleaving of job completions with the main flow is explicit: a job
      settles only while the main flow is suspended in an [await].
      [Array.prototype.indexOf] and [splice] are modelled as written, with
      their out-of-range behaviour.
    - The composition (lines 76-104) is [Orchestrator.v]: the scheduler's
      job outcomes are the settlements of the [RenderJob] program of each
      selected sheet, with the paths of line 93.
    - The top-level chain (lines 74-105) is [Main.main]: download, unzip,
      [mkdir(outputDir)], [readdir], selection, [firefox.launch()], the
      render loop, [browser.close()], [rm(extractedDir)].  The render loop
      is one event whose end ([Closed] or not) the environment gives; the
      theorems that compose [Main] with the loop take that end from a
      stopped run of [Orchestrator]'s loop ([Main.loop_run]).
    - The file system the run changes is [FsState.v]: the set of existing
      paths, and the effect that each resolving call of [Main]'s trace has
      on it after Node's [fs] module ([mkdtemp] creates its directory, the
      [createWriteStream] of [pipeline] its file, [mkdir] with
      [recursive] a path and its ancestors, [rm] with [recursive] a path
      and everything under it); [readdir(d)] lists the names one segment
      under [d].  The extraction's paths are [FsState.entry_paths], from
      lines 26-34.  [FsRun.v] holds the theorems on whole runs, and
      [RunOutput.v] adds the images the render loop writes: the jobs of
      a loop that ends [Closed] have all completed, and each writes its
      [pngPath] when [page.screenshot] resolves (line 66).

    - The specification's bounded worker pool (sections 4.4 and 9) is an
      abstract transition system in [Pool.v]; [PoolRefinement.v] relates the
      loop's states to it.

    - [SchedulerRun.v] makes the loop executable for one settlement order
      (the oldest pending job settles first), with fuel.

    Files, in dependency order: [Prelude] (this file), [NodePath],
    [NodeJoin], [Selector], [Geometry], [RenderJob], [Scheduler],
    [SchedulerRun], [Pool], [PoolRefinement], [Orchestrator], [Main],
    [FsState], [FsRun], [RunOutput].  [Main] calls [NodeJoin] for the paths,
    [Selector] for the sheet names and takes the end of the render loop
    from [Orchestrator]; [FsState] gives the calls their effect on a file
    system and [FsRun] runs [Main]'s traces on it.  The
    components interact through plain functions and section variables:
    [Scheduler] is parameterised over the settlement of each job
    ([outcome]), and [Orchestrator] instantiates it with
    [RenderJob.settle_of] of [RenderJob.screenshot]; [RenderJob] calls
    [Geometry] for the clip and viewport.

    Theorem groups:
    - [NodePath], [Selector]: the extension filter accepts exactly the names
      [s ++ ".html"] with [s] non-empty and cutting the name gives [s] back
      ([tab_ids_spec]); [select] refines the selection contract of the
      specification ([select_spec]); the deny list always wins; a non-empty
      allow list is a strict filter; a non-array configuration value
      counts as an absent list; the end-to-end example of the specification.
    - [Geometry]: the viewport is the least integer size at least the
      full-HD baseline and larger than the clip plus 99 ([viewport_least]);
      the clip lies in the body, flush with its right edge, and is non-empty
      only when the body is wider than the header plus border (unchecked by
      the code); the clip fits in the viewport when its offset is below the
      margin, and past the baseline it overflows the viewport whenever
      the offset exceeds the margin ([clip_overflows_viewport]).
    - [RenderJob]: the whole trace of a successful job; once [goto]
      succeeds the page is closed exactly once, last; a layout error is
      caught, logged and captures nothing; captures happen exactly when the
      layout is found and the resize succeeds; the job's promise fulfils iff
      open, navigation and close succeed ([settle_iff]); a failing [goto]
      rejects the job without closing the page.
    - [Scheduler]: in every reachable state the [promises] array holds at
      most [max 1 concurrency] promises; every started job is in the array
      or completed, exactly once; the [.then] callback always removes its own
      promise; every run is finite (a measure decreases at each step); no
      reachable state is stuck except [Closed] and [Crashed]; when every job
      fulfils, every run ends with [Promise.all] resolved and every job
      completed; a crash needs a rejected job; with concurrency 1 a first
      rejecting job crashes the run before any other sheet starts; a push
      suspends the loop in [Promise.race] exactly when the array is then
      full ([push_awaits_iff_full]);
      [splice(indexOf(p), 1)] equals the reference removal [remove_first]
      when [p] is in the array and removes the last promise when it is not
      ([splice_indexof_equiv]), a case the invariant rules out.
    - [SchedulerRun]: with fuel at least [Scheduler.measure] of the start
      state, the oldest-first run reaches [Closed] or [Crashed] through
      steps of the loop, and when every job fulfils it completes the jobs
      in the order of the sheet list; it ends [Closed] exactly when every
      selected job fulfils and [Crashed] exactly when one rejects
      ([fifo_run_closed_iff]); a concrete run with a rejecting
      second job crashes with the third job in flight.
    - [PoolRefinement]: every reachable state of the loop that has not
      crashed is related to a reachable state of the bounded pool, and a
      closed loop to a finished pool ([loop_refines_pool]): the loop admits
      a job only when fewer than [max 1 concurrency] jobs are in flight and
      each job leaves the working set once.
    - [Orchestrator]: when every selected page opens, navigates and closes,
      every run completes all selected sheets, whatever the layouts; when
      [readdir] lists distinct names without ['/'], two jobs capture to the
      same file only if they are the same job ([jobs_write_distinct_files],
      through [basename (join d n) = n] of [NodeJoin]).
    - Typestates: a resource (page, archive, browser) is a [rstate] of this
      file and a trace is run through its lifecycle by [protocol_run].
      Every job follows the page's lifecycle and leaves the page open
      exactly when navigation fails ([RenderJob.page_typestate]); every
      run follows the archive's and the browser's lifecycles, never leaves
      the archive open, and leaves the browser running exactly when a job
      rejection aborts it ([Main.resources_typestate]).  In a run whose
      render loop completes, every selected sheet's job opened its page
      and released it before [browser.close()]
      ([Main.completed_run_closes_every_page]).
    - [NodeJoin]: for an absolute path of plain segments and a plain name,
      [join] appends the name and [dirname] takes it off again.
    - [Main]: with every call resolving and every page opening, navigating
      and closing, the whole run, call by call, ending with
      [browser.close()] and the removal of the extracted directory
      ([main_completes]); a page that fails to open, navigate or close makes
      the run throw after the launch, with the browser never closed and the
      extracted directory never removed ([job_rejection_leaks]); the
      archive is closed exactly once, after every entry, and the download
      directory is removed only after a complete extraction
      ([unzip_closes_archive]); a failed fetch or extraction is fatal,
      before the launch; [dirname(zipPath)] is the download directory for
      a plain sheet id, and the sheet id ["../x"] makes [unzip] remove
      ["/tmp"] itself.
    - [FsRun]: for a [tmpdir()] of plain segments, [mkdtemp] suffixes
      and a sheet id without ['/'], entry names of plain segments, new
      temporary directories and an output directory outside them, and
      every call resolving: the [readdir(extractedDir)] of a run of [main]
      lists exactly the first segments of the archive's entries
      ([readdir_lists_top_names]); the rendered sheets are then distinct
      and are exactly the non-empty names [s] with a top-level entry
      [s ++ ".html"] that pass the allow and deny lists
      ([rendered_sheets_from_archive]); a completed run leaves nothing under
      either temporary directory, keeps every older path and leaves the
      output directory ([completed_run_removes_temp_dirs]); a run aborted
      by a rejected job leaves the extracted directory and every path of
      the extraction, while the download directory is gone
      ([rejected_run_leaves_extracted_tree]); when [tmpdir()] exists,
      every call of a run finds the paths it needs, whatever the entries
      and their order, because [mkdir(dirname(targetPath))] precedes each
      write ([run_finds_its_paths]); with the sheet id ["../" ++ n],
      [dirname(zipPath)] is [tmpdir()] ([NodeJoin.join_abs_parent]), and
      [unzip] leaves nothing under [tmpdir()] for [readdir] to list
      ([sheet_id_parent_wipes_tmpdir]).  The proofs rest on the
      lemmas of [NodeJoin] on absolute paths of plain segments
      ([join_abs_rel], [normalize_abs], [dirname_abs_snoc]) and on
      [FsState.under_abs] and [FsState.child_abs], which turn the string
      tests of [rm] and [readdir] into prefix tests on lists of segments.

    - [RunOutput]: a run whose render loop completes leaves what its
      calls leave and exactly one image [join(outputDir, s + '.jpg')]
      per selected sheet [s] whose page was laid out and captured
      ([completed_run_writes_images]).

    Findings the theorems establish: a failed navigation leaks its page
    ([RenderJob.goto_failure_leaks_page]); one rejected job aborts the whole
    run and skips the cleanup ([Scheduler.one_rejection_aborts]); the
    viewport ignores the clip's position ([Geometry.clip_overflows_viewport]);
    a non-positive concurrency runs the jobs one at a time; a rejected job
    leaves the browser open and the extracted directory in place
    ([Main.job_rejection_leaks]), and with it every file the extraction
    wrote ([FsRun.rejected_run_leaves_extracted_tree]); an unchecked
    sheet id can make the cleanup of [unzip] remove a directory outside
    the download directory ([Main.sheet_id_escapes_tmpdir]): with the id
    ["../" ++ n] it removes [tmpdir()] itself, the files other programs
    keep there and the run's own extracted directory included, and the
    run then fails at [readdir] ([FsRun.sheet_id_parent_wipes_tmpdir]).

    Bounds and fuel: the scheduler's termination is a measure argument on
    the step relation ([Scheduler.measure]: six per sheet not yet started,
    two per promise in the array, one per pending promise, and a weight
    for the control point), with no fuel.  The only fuel is that of
    [SchedulerRun.run], and [fifo_run_completes] shows that fuel equal to
    the measure of the start state (six per sheet, plus two) is enough,
    since each step lowers the measure by at least one.  The
    concurrency is an unbounded integer [Z] and array lengths are [nat]
    (JavaScript array lengths are far below 2^32 here).

    Not modelled: what the file system, the network and [yauzl] do inside
    a call (each call is an event that resolves or rejects, as [io_env]
    says): the bytes written, the HTTP status that [fetch] resolves with,
    the validation of entry names by [yauzl] (which rejects absolute names
    and [".."] segments; [FsState] assumes the names it accepts,
    [FsState.entry_ok]); in [Main], [readdir] returns the environment's
    [listing], which [FsRun.rendered_sheets_from_archive] relates to the
    file system; [FsState] does not tell files from directories, does not
    track contents or the images the browser writes, and keeps whether a
    call resolves as the environment's answer, not as a function of the
    state ([FsState.fs_pre] states what each call needs, and the theorems
    show that a run never lacks it); floating-point rounding of CSS pixel arithmetic (the model
    computes exactly in [Q]); the rendering engine's layout, which the model
    takes as the [page_env] answers; [config.get] throwing on a missing key.

    What a run whose render loop crashes writes is not modelled: the
    rejection of the main chain is unhandled and ends the Node process
    while other jobs may still be in flight, so which of their images
    reach the disk depends on the event loop, outside the model.  The
    model also stops at the process boundary: there is no retry, and
    [config.get] and the module's imports are not code with behaviour to
    verify.

    This file is the prelude: the [Js] monad with its notations in
    [js_scope] and its lemmas on traces and on the exceptions a program
    can throw ([throws_only]), the resource typestates, the [gs] hint
    database, the tactics of the development and the lemmas on strings
    that the components share. *)

From Stdlib Require Import String Ascii List Arith Lia.
Import ListNotations.

(** ** The trace-and-exception monad [Js]

    A computation returns the list of observable calls it made, in order,
    and either a value or a thrown exception.  [Ev] is the type of events
    and [E] the type of exceptions. *)

Inductive outcome (E A : Type) : Type :=
| Done (a : A)
| Thrown (e : E).
Arguments Done {E A} a.
Arguments Thrown {E A} e.

Definition Js (Ev E A : Type) : Type := (list Ev * outcome E A)%type.

Section Monad.
Context {Ev E : Type}.

Definition js_ret {A} (a : A) : Js Ev E A := ([], Done a).

Definition js_throw {A} (e : E) : Js Ev E A := ([], Thrown e).

Definition js_emit (ev : Ev) : Js Ev E unit := ([ev], Done tt).

(** [await m] followed by the rest of the function. *)
Definition js_bind {A B} (m : Js Ev E A) (k : A -> Js Ev E B) : Js Ev E B :=
  match m with
  | (t, Done a) => let (t', r) := k a in (t ++ t', r)
  | (t, Thrown e) => (t, Thrown e)
  end.

(** [try { m } catch (e) { h(e) }] *)
Definition js_catch {A} (m : Js Ev E A) (h : E -> Js Ev E A) : Js Ev E A :=
  match m with
  | (t, Thrown e) => let (t', r) := h e in (t ++ t', r)
  | ok => ok
  end.

(** [try { m } finally { fin }]: the finalizer always runs; its own
    exception replaces the outcome of [m]. *)
Definition js_finally {A} (m : Js Ev E A) (fin : Js Ev E unit) : Js Ev E A :=
  let (t, r) := m in
  let (t', r') := fin in
  (t ++ t', match r' with Thrown e => Thrown e | Done _ => r end).

(** [x ?? e]: use an optional value, throwing [e] when it is [null]. *)
Definition js_deref {A} (o : option A) (e : E) : Js Ev E A :=
  match o with Some a => js_ret a | None => js_throw e end.

Definition trace_of {A} (m : Js Ev E A) : list Ev := fst m.
Definition result_of {A} (m : Js Ev E A) : outcome E A := snd m.
End Monad.

Declare Scope js_scope.
Delimit Scope js_scope with js.
Notation "x <- m ;; k" := (js_bind m (fun x => k))
  (at level 61, m at next level, right associativity) : js_scope.
Notation "m ;; k" := (js_bind m (fun _ => k))
  (at level 61, right associativity) : js_scope.

Create HintDb gs.
Create Rewrite HintDb gs.

Section MonadLemmas.
Context {Ev E : Type}.

Lemma js_bind_done {A B} t (a : A) (k : A -> Js Ev E B) :
  js_bind (t, Done a) k = (t ++ fst (k a), snd (k a)).
Proof. unfold js_bind. destruct (k a); reflexivity. Qed.

Lemma js_bind_thrown {A B} t (e : E) (k : A -> Js Ev E B) :
  js_bind (t, Thrown e) k = (t, Thrown e).
Proof. reflexivity. Qed.

Lemma js_catch_thrown {A} t (e : E) (h : E -> Js Ev E A) :
  js_catch (t, Thrown e) h = (t ++ fst (h e), snd (h e)).
Proof. unfold js_catch. destruct (h e); reflexivity. Qed.

Lemma js_catch_done {A} t (a : A) (h : E -> Js Ev E A) :
  js_catch (t, Done a) h = (t, Done a).
Proof. reflexivity. Qed.

(** After [finally], the finalizer's calls end the trace. *)
Lemma js_finally_trace {A} (m : Js Ev E A) (fin : Js Ev E unit) :
  trace_of (js_finally m fin) = trace_of m ++ trace_of fin.
Proof. destruct m, fin; reflexivity. Qed.

Lemma js_finally_done {A} (m : Js Ev E A) t :
  result_of (js_finally m (t, Done tt)) = result_of m.
Proof. destruct m; reflexivity. Qed.

(** A computation that cannot throw keeps [try { } finally] outcome-free. *)
Lemma js_catch_never_throws {A} (m : Js Ev E A) (h : E -> Js Ev E A) :
  (forall e, exists a, snd (h e) = Done a) ->
  exists a, result_of (js_catch m h) = Done a.
Proof.
  intros Hh. destruct m as [t [a|e]]; simpl; [eauto|].
  destruct (Hh e) as [a Ha]. destruct (h e) eqn:He; simpl in *; eauto.
Qed.
(** The calls of [await m] followed by [k]. *)
Lemma trace_bind {A B} (m : Js Ev E A) (k : A -> Js Ev E B) :
  trace_of (js_bind m k) =
  trace_of m ++ match result_of m with Done a => trace_of (k a) | Thrown _ => [] end.
Proof.
  destruct m as [t [a|e]]; simpl; [destruct (k a)|]; simpl; [|rewrite app_nil_r]; reflexivity.
Qed.

(** A property of every call carries over [await]. *)
Lemma Forall_trace_bind {A B} (P : Ev -> Prop) (m : Js Ev E A) (k : A -> Js Ev E B) :
  Forall P (trace_of m) -> (forall a, Forall P (trace_of (k a))) ->
  Forall P (trace_of (js_bind m k)).
Proof.
  intros Hm Hk. rewrite trace_bind. apply Forall_app. split; [exact Hm|].
  destruct (result_of m); [apply Hk | constructor].
Qed.
(** [m] can only throw exceptions that satisfy [P]. *)
Definition throws_only {A} (P : E -> Prop) (m : Js Ev E A) : Prop :=
  forall e, result_of m = Thrown e -> P e.

Lemma throws_only_bind {A B} (P : E -> Prop) (m : Js Ev E A) (k : A -> Js Ev E B) :
  throws_only P m -> (forall a, throws_only P (k a)) -> throws_only P (js_bind m k).
Proof.
  unfold throws_only, result_of. intros Hm Hk e.
  destruct m as [t [a|e']]; simpl in *; [|intros E1; inversion E1; subst; apply Hm; reflexivity].
  specialize (Hk a e). destruct (k a); simpl in *. exact Hk.
Qed.

Lemma throws_only_ret {A} (P : E -> Prop) (a : A) : throws_only P (js_ret a).
Proof. intros e H. discriminate. Qed.

Lemma throws_only_finally {A} (P : E -> Prop) (m : Js Ev E A) (fin : Js Ev E unit) :
  throws_only P m -> throws_only P fin -> throws_only P (js_finally m fin).
Proof.
  unfold throws_only, result_of, js_finally. intros Hm Hf e.
  destruct m as [t r], fin as [t' [u|e']]; simpl in *; intros H; [apply Hm, H | inversion H; subst; apply Hf; reflexivity].
Qed.
End MonadLemmas.

#[export] Hint Rewrite @js_bind_done @js_bind_thrown @js_catch_thrown
  @js_catch_done : gs.

(** ** Resource typestates

    A resource (a page, an archive, a browser) is not yet opened, open, or
    released.  A call that opens it acquires it when the call resolves; a
    call that uses or releases it needs it open.  A protocol step answers
    [None] on a call the typestate forbids, and [protocol_run] runs a trace
    through the steps. *)

Inductive rstate : Type := Unopened | Opened | Released.

Definition acquire (ok : bool) (r : rstate) : option rstate :=
  match r with Unopened => Some (if ok then Opened else Unopened) | _ => None end.

Definition use (r : rstate) : option rstate :=
  match r with Opened => Some Opened | _ => None end.

Definition release (r : rstate) : option rstate :=
  match r with Opened => Some Released | _ => None end.

Fixpoint protocol_run {S Ev : Type} (step : S -> Ev -> option S) (s : S) (t : list Ev)
    : option S :=
  match t with
  | [] => Some s
  | e :: t' => match step s e with Some s' => protocol_run step s' t' | None => None end
  end.

Lemma protocol_run_app {S Ev : Type} (step : S -> Ev -> option S) s t1 t2 :
  protocol_run step s (t1 ++ t2) =
  match protocol_run step s t1 with Some s' => protocol_run step s' t2 | None => None end.
Proof.
  revert s. induction t1 as [|e t1 IH]; intros s; [reflexivity|]. simpl.
  destruct (step s e); [apply IH | reflexivity].
Qed.

Lemma result_bind {Ev E A B} (m : Js Ev E A) (k : A -> Js Ev E B) :
  result_of (js_bind m k) =
  match result_of m with Done a => result_of (k a) | Thrown e => Thrown e end.
Proof. destruct m as [t [a|e]]; simpl; [destruct (k a)|]; reflexivity. Qed.

(** A protocol runs through [await m] and then through the continuation. *)
Lemma protocol_run_bind {S Ev E A B} (step : S -> Ev -> option S) s
    (m : Js Ev E A) (k : A -> Js Ev E B) :
  protocol_run step s (trace_of (js_bind m k)) =
  match protocol_run step s (trace_of m) with
  | Some s' => match result_of m with
               | Done a => protocol_run step s' (trace_of (k a))
               | Thrown _ => Some s'
               end
  | None => None
  end.
Proof.
  rewrite trace_bind, protocol_run_app.
  destruct (protocol_run step s (trace_of m)); [|reflexivity].
  destruct (result_of m); reflexivity.
Qed.

(** Calls that leave the state unchanged run through. *)
Lemma protocol_run_stay {S Ev : Type} (step : S -> Ev -> option S) (P : Ev -> Prop) s t :
  (forall e, P e -> step s e = Some s) -> Forall P t -> protocol_run step s t = Some s.
Proof.
  intros Hs Ht. induction Ht as [|e t He Ht IH]; [reflexivity|]. simpl. rewrite Hs by exact He. exact IH.
Qed.

(** ** Tactics *)

Ltac inv H := inversion H; subst; clear H.

(** Unfold a [Js] program to its trace and result. *)
Ltac js_simp := repeat (progress (simpl; autorewrite with gs in *)).

(** ** Lemmas on strings *)

Open Scope string_scope.

Lemma append_nil_r (s : string) : s ++ "" = s.
Proof. induction s; simpl; f_equal; auto. Qed.

Lemma append_assoc (s t u : string) : (s ++ t) ++ u = s ++ (t ++ u).
Proof. induction s; simpl; f_equal; auto. Qed.

Lemma length_append (s t : string) :
  String.length (s ++ t) = String.length s + String.length t.
Proof. induction s; simpl; auto. Qed.

Lemma substring_0_app (s t : string) :
  substring 0 (String.length s) (s ++ t) = s.
Proof. induction s; simpl; [destruct t|]; f_equal; auto. Qed.

Lemma substring_app_r (s t : string) n :
  substring (String.length s) n (s ++ t) = substring 0 n t.
Proof. induction s; simpl; auto. Qed.

Lemma substring_full (s : string) : substring 0 (String.length s) s = s.
Proof. induction s; simpl; f_equal; auto. Qed.

(** A string is cut in two at any position inside it. *)
Lemma substring_split (s : string) i :
  i <= String.length s ->
  substring 0 i s ++ substring i (String.length s - i) s = s.
Proof.
  revert i. induction s as [|c s IH]; intros [|i] Hi; simpl in *;
    try reflexivity; try lia.
  - f_equal. apply substring_full.
  - f_equal. apply IH. lia.
Qed.

Lemma length_substring_0 (s : string) i :
  i <= String.length s -> String.length (substring 0 i s) = i.
Proof.
  revert i. induction s as [|c s IH]; intros [|i] Hi; simpl in *; try lia.
  rewrite IH; lia.
Qed.

#[export] Hint Rewrite length_append substring_0_app substring_app_r : gs.

(** ** Ordered sub-sequences of lists *)

Close Scope string_scope.

Inductive subseq {A : Type} : list A -> list A -> Prop :=
| subseq_nil : subseq [] []
| subseq_skip x l1 l2 : subseq l1 l2 -> subseq l1 (x :: l2)
| subseq_take x l1 l2 : subseq l1 l2 -> subseq (x :: l1) (x :: l2).

#[export] Hint Constructors subseq : gs.

Lemma filter_subseq {A} (f : A -> bool) (l : list A) : subseq (List.filter f l) l.
Proof. induction l as [|x l IH]; simpl; [|destruct (f x)]; auto with gs. Qed.

Lemma subseq_incl {A} (l1 l2 : list A) x : subseq l1 l2 -> In x l1 -> In x l2.
Proof. induction 1; simpl; intuition auto. Qed.

#[export] Hint Resolve filter_subseq : gs.
