(* ===== verification/NodePath.v ===== *)
(** * NodePath: the [node:path] and [String.prototype] built-ins of the tab filter

    Lines 84-85 of [src/index.js] call [extname], [basename] (from
    [node:path]) and [String.prototype.slice(0, -5)] on the entries of the
    extracted directory.  These are library functions, modelled here after
    the Node.js algorithms, for POSIX paths:
    - [basename p] is the last non-empty segment of [p] (trailing slashes are
      ignored, [basename "/"] is [""]);
    - [extname p] is the suffix of [basename p] from its last dot, except
      that a leading dot does not start an extension ([extname ".html"] is
      [""]) and [extname ".."] is [""];
    - [slice_to s k] is [s.slice(0, -k)]: the prefix without the last [k]
      characters, empty when [s] is shorter.
    Strings are Rocq strings of 8-bit characters, where JavaScript counts
    UTF-16 code units; the only string sliced is one that ends in the ASCII
    suffix [".html"], which has 5 units in both. *)

From Stdlib Require Import String Ascii List Arith Lia.
From S2P Require Import Prelude.
Import ListNotations.
Open Scope string_scope.
Open Scope bool_scope.

Module NodePath.

(** The index of the last ['.'] of [s], positions counted from [i]. *)
Fixpoint last_dot_from (s : string) (i : nat) (acc : option nat) : option nat :=
  match s with
  | EmptyString => acc
  | String c s' =>
      last_dot_from s' (S i) (if Ascii.eqb c "." then Some i else acc)
  end.

Definition last_dot (s : string) : option nat := last_dot_from s 0 None.

(** [basename]: the segment being read and the last complete non-empty one. *)
Fixpoint basename_from (s seg last : string) : string :=
  match s with
  | EmptyString => if String.eqb seg "" then last else seg
  | String c s' =>
      if Ascii.eqb c "/"
      then basename_from s' "" (if String.eqb seg "" then last else seg)
      else basename_from s' (seg ++ String c "") last
  end.

Definition basename (p : string) : string := basename_from p "" "".

(** [extname] on one segment: [startDot] is the last dot; no extension
    when there is none, when it is the first character, or for [".."]. *)
Definition ext_of_segment (seg : string) : string :=
  match last_dot seg with
  | None => ""
  | Some 0 => ""
  | Some i =>
      if String.eqb seg ".." then ""
      else substring i (String.length seg - i) seg
  end.

Definition extname (p : string) : string := ext_of_segment (basename p).

(** [s.slice(0, -k)] *)
Definition slice_to (s : string) (k : nat) : string :=
  substring 0 (String.length s - k) s.

(** Directory entries returned by [readdir] contain no ['/']. *)
Fixpoint no_slash (s : string) : bool :=
  match s with
  | EmptyString => true
  | String c s' => negb (Ascii.eqb c "/") && no_slash s'
  end.

(** ** Lemmas *)

Lemma basename_from_no_slash s seg last :
  no_slash s = true ->
  basename_from s seg last = if String.eqb (seg ++ s) "" then last else seg ++ s.
Proof.
  revert seg. induction s as [|c s IH]; intros seg Hs; simpl in *.
  - rewrite append_nil_r. reflexivity.
  - apply andb_prop in Hs as [Hc Hs].
    destruct (Ascii.eqb c "/"); [discriminate|].
    rewrite IH by exact Hs. rewrite append_assoc. reflexivity.
Qed.

Lemma basename_no_slash s : no_slash s = true -> basename s = s.
Proof.
  intros Hs. unfold basename. rewrite basename_from_no_slash by exact Hs.
  simpl. destruct (String.eqb_spec s ""); congruence.
Qed.

Lemma last_dot_from_app s t i acc :
  last_dot_from (s ++ t) i acc =
  last_dot_from t (i + String.length s) (last_dot_from s i acc).
Proof.
  revert i acc. induction s as [|c s IH]; intros i acc; simpl.
  - rewrite Nat.add_0_r. reflexivity.
  - rewrite IH. f_equal. lia.
Qed.

Lemma last_dot_html k acc : last_dot_from ".html" k acc = Some k.
Proof. reflexivity. Qed.

(** The last dot found after position [i] lies inside the string. *)
Lemma last_dot_from_range s i acc j :
  last_dot_from s i acc = Some j -> acc = Some j \/ i <= j < i + String.length s.
Proof.
  revert i acc. induction s as [|c s IH]; intros i acc H; simpl in *; [auto|].
  destruct (IH _ _ H) as [Ha|Ha]; [|right; lia].
  destruct (Ascii.eqb c "."); [inversion Ha; right; lia | auto].
Qed.

Lemma last_dot_lt s j : last_dot s = Some j -> j < String.length s.
Proof.
  intros H. destruct (last_dot_from_range _ _ _ _ H) as [H'|H']; [discriminate|lia].
Qed.

Lemma last_dot_suffix_html s : last_dot (s ++ ".html") = Some (String.length s).
Proof. unfold last_dot. rewrite last_dot_from_app. reflexivity. Qed.

Lemma no_slash_app s t : no_slash (s ++ t) = no_slash s && no_slash t.
Proof. induction s as [|c s IH]; simpl; [|rewrite IH, Bool.andb_assoc]; reflexivity. Qed.

Lemma slice_to_suffix s t :
  slice_to (s ++ t) (String.length t) = s.
Proof.
  unfold slice_to. rewrite length_append, Nat.add_sub. apply substring_0_app.
Qed.

#[export] Hint Rewrite last_dot_suffix_html no_slash_app slice_to_suffix : gs.

End NodePath.
