(* ===== verification/NodeJoin.v ===== *)
(** * NodeJoin: [node:path]'s POSIX [normalize], [join] and [dirname]

    [src/index.js] builds every path it touches with [join] (lines 13, 14,
    21, 26, 93), cleans the configured output directory with [normalize]
    (line 77), and removes the download directory as [dirname(zipPath)]
    (line 41).  These are Node.js library functions; they are modelled here
    after the algorithms of Node's [lib/path.js] (POSIX flavour):
    - [normalize] splits the path at ['/'], drops empty and ["."] segments,
      lets [".."] cancel the segment before it ([normalizeString]), keeps a
      leading ['/'] and a trailing ['/'];
    - [join a b] glues the non-empty arguments with ['/'] and normalizes,
      ["."] when both are empty;
    - [dirname p] scans [p] from its end down to index 1, skipping trailing
      slashes, and cuts at the last ['/'] before the last segment.

    The theorems show the round trip the code relies on: for an absolute
    path made of plain segments and a plain name, [join] is concatenation
    with ['/'] and [dirname] gives the directory back. *)

From Stdlib Require Import String Ascii List Arith Lia.
From S2P Require Import Prelude NodePath.
Import ListNotations.
Open Scope string_scope.
Open Scope bool_scope.

Module NodeJoin.
Import NodePath.

(** ** Definitions *)

(** The segments of [s] between the ['/'] characters, empty ones included. *)
Fixpoint split_slash (s : string) : list string :=
  match s with
  | EmptyString => [""]
  | String c s' =>
      match split_slash s' with
      | [] => []
      | seg :: segs =>
          if Ascii.eqb c "/" then "" :: seg :: segs else String c seg :: segs
      end
  end.

(** [normalizeString]: the resolved segments, as a stack (last segment
    first).  [".."] pops a segment; with nothing to pop it is kept when the
    path is relative ([allowAboveRoot]) and dropped when it is absolute. *)
Fixpoint norm_segs (allow_above : bool) (segs stack : list string) : list string :=
  match segs with
  | [] => stack
  | seg :: segs' =>
      if String.eqb seg "" || String.eqb seg "." then norm_segs allow_above segs' stack
      else if String.eqb seg ".." then
        match stack with
        | top :: rest =>
            if String.eqb top ".."
            then norm_segs allow_above segs' (if allow_above then ".." :: stack else stack)
            else norm_segs allow_above segs' rest
        | [] => norm_segs allow_above segs' (if allow_above then [".."] else [])
        end
      else norm_segs allow_above segs' (seg :: stack)
  end.

Fixpoint ends_with_slash (s : string) : bool :=
  match s with
  | EmptyString => false
  | String c EmptyString => Ascii.eqb c "/"
  | String _ s' => ends_with_slash s'
  end.

Definition normalize (p : string) : string :=
  match p with
  | EmptyString => "."
  | String c _ =>
      let is_absolute := Ascii.eqb c "/" in
      let trailing := ends_with_slash p in
      let body := String.concat "/" (rev (norm_segs (negb is_absolute) (split_slash p) [])) in
      if String.eqb body "" then
        (if is_absolute then "/" else if trailing then "./" else ".")
      else
        let body := if trailing then body ++ "/" else body in
        if is_absolute then "/" ++ body else body
  end.

(** [join(a, b)]: the zero-length arguments are skipped. *)
Definition join (a b : string) : string :=
  let joined :=
    match a, b with
    | EmptyString, EmptyString => None
    | EmptyString, _ => Some b
    | _, EmptyString => Some a
    | _, _ => Some (a ++ "/" ++ b)
    end in
  match joined with
  | None => "."
  | Some j => normalize j
  end.

(** The loop of [dirname]: [cs] holds [p[i], p[i-1], ..., p[1]]; the result
    is [end], or [None] for [-1]. *)
Fixpoint dirname_scan (cs : list ascii) (i : nat) (matched_slash : bool) : option nat :=
  match cs with
  | [] => None
  | c :: cs' =>
      if Ascii.eqb c "/" then
        if matched_slash then dirname_scan cs' (i - 1) matched_slash else Some i
      else dirname_scan cs' (i - 1) false
  end.

Definition dirname (p : string) : string :=
  match p with
  | EmptyString => "."
  | String c rest =>
      let has_root := Ascii.eqb c "/" in
      match dirname_scan (rev (list_ascii_of_string rest)) (String.length p - 1) true with
      | None => if has_root then "/" else "."
      | Some e => if has_root && Nat.eqb e 1 then "//" else substring 0 e p
      end
  end.

(** A plain path segment: not empty, not ["."] or [".."], without ['/']. *)
Definition plain_segment (s : string) : bool :=
  negb (String.eqb s "") && negb (String.eqb s ".") && negb (String.eqb s "..") && no_slash s.

(** The absolute path ["/s1/s2/.../sn"]. *)
Definition abs_path (segs : list string) : string := "/" ++ String.concat "/" segs.

(** ** Lemmas on segments *)

Lemma split_slash_cons s : exists seg segs, split_slash s = seg :: segs.
Proof.
  induction s as [|c s [seg [segs IH]]]; simpl; [eauto|].
  rewrite IH. destruct (Ascii.eqb c "/"); eauto.
Qed.

Lemma split_slash_app_slash s t :
  split_slash (s ++ String "/" t) = (split_slash s ++ split_slash t)%list.
Proof.
  induction s as [|c s IH]; simpl.
  - destruct (split_slash_cons t) as [seg [segs ->]]. reflexivity.
  - rewrite IH. destruct (split_slash_cons s) as [seg [segs ->]].
    simpl. destruct (Ascii.eqb c "/"); reflexivity.
Qed.

Lemma split_slash_no_slash s : no_slash s = true -> split_slash s = [s].
Proof.
  induction s as [|c s IH]; simpl; [reflexivity|]. intros H.
  apply andb_prop in H as [Hc Hs]. rewrite IH by exact Hs.
  destruct (Ascii.eqb c "/"); [discriminate | reflexivity].
Qed.

Lemma plain_no_slash s : plain_segment s = true -> no_slash s = true.
Proof. unfold plain_segment. intros H. repeat apply andb_prop in H as [H ?]. assumption. Qed.

Lemma plain_not_empty s : plain_segment s = true -> s <> "".
Proof. unfold plain_segment. intros H ->. discriminate. Qed.

#[export] Hint Resolve plain_no_slash plain_not_empty : gs.

Lemma split_slash_concat segs :
  segs <> [] -> Forall (fun s => no_slash s = true) segs ->
  split_slash (String.concat "/" segs) = segs.
Proof.
  induction segs as [|a segs IH]; intros Hne Hs; [congruence|].
  inversion Hs as [|? ? Ha Hl]; subst. destruct segs as [|b segs].
  - apply split_slash_no_slash. exact Ha.
  - change (String.concat "/" (a :: b :: segs)) with (a ++ String "/" (String.concat "/" (b :: segs))).
    rewrite split_slash_app_slash, split_slash_no_slash by exact Ha.
    rewrite IH by (discriminate || exact Hl). reflexivity.
Qed.

Lemma concat_snoc segs n :
  String.concat "/" (segs ++ [n])%list =
  match segs with [] => n | _ => String.concat "/" segs ++ String "/" n end.
Proof.
  induction segs as [|a segs IH]; [reflexivity|]. rewrite <- app_comm_cons.
  destruct segs as [|b segs]; [reflexivity|].
  change (String.concat "/" (a :: (b :: segs) ++ [n])%list)
    with (a ++ String "/" (String.concat "/" ((b :: segs) ++ [n])%list)).
  rewrite IH. simpl. rewrite append_assoc. reflexivity.
Qed.

(** Plain segments go on the stack unchanged. *)
Lemma norm_segs_plain allow segs stack :
  Forall (fun s => plain_segment s = true) segs ->
  norm_segs allow segs stack = (rev segs ++ stack)%list.
Proof.
  revert stack. induction segs as [|a segs IH]; intros stack Hs; [reflexivity|].
  inversion Hs as [|? ? Ha Hl]; subst. simpl. unfold plain_segment in Ha.
  destruct (String.eqb a ""), (String.eqb a "."), (String.eqb a ".."); try discriminate.
  simpl. rewrite IH by exact Hl. rewrite <- app_assoc. reflexivity.
Qed.

Lemma ends_with_slash_app_slash s t :
  t <> "" -> ends_with_slash (s ++ String "/" t) = ends_with_slash t.
Proof.
  intros Ht. induction s as [|c s IH]; simpl; [destruct t; [congruence | reflexivity]|].
  rewrite IH. destruct s; simpl; [destruct t; [congruence|] |]; reflexivity.
Qed.

Lemma ends_with_slash_no_slash s : no_slash s = true -> ends_with_slash s = false.
Proof.
  induction s as [|c s IH]; simpl; [reflexivity|]. intros H.
  apply andb_prop in H as [Hc Hs]. destruct s as [|d s].
  - destruct (Ascii.eqb c "/"); [discriminate | reflexivity].
  - apply IH. exact Hs.
Qed.

Lemma concat_not_empty segs :
  segs <> [] -> Forall (fun s => plain_segment s = true) segs -> String.concat "/" segs <> "".
Proof.
  destruct segs as [|a [|b segs]]; intros Hne Hs; [congruence| |];
    inversion Hs as [|? ? Ha _]; subst; apply plain_not_empty in Ha.
  - exact Ha.
  - simpl. destruct a; [congruence | discriminate].
Qed.

(** ** Lemmas on [join] and [dirname] *)

Lemma norm_segs_abs segs n :
  Forall (fun s => plain_segment s = true) segs -> plain_segment n = true ->
  norm_segs false ("" :: split_slash (String.concat "/" segs ++ String "/" n)) [] =
  rev (segs ++ [n]).
Proof.
  intros Hs Hn. rewrite split_slash_app_slash, (split_slash_no_slash n) by auto with gs.
  destruct segs as [|a segs].
  - transitivity (norm_segs false [n] []); [reflexivity|].
    rewrite norm_segs_plain by (repeat constructor; exact Hn). reflexivity.
  - rewrite split_slash_concat by (discriminate || (eapply Forall_impl; [|exact Hs]; auto with gs)).
    transitivity (norm_segs false ((a :: segs) ++ [n]) []); [reflexivity|].
    rewrite norm_segs_plain by (apply Forall_app; split; [exact Hs | repeat constructor; exact Hn]).
    apply app_nil_r.
Qed.

(** [join] of an absolute path of plain segments and a plain name appends
    the name as a new segment. *)
Lemma join_abs_plain segs n :
  Forall (fun s => plain_segment s = true) segs -> plain_segment n = true ->
  join (abs_path segs) n = abs_path (segs ++ [n]).
Proof.
  intros Hs Hn. pose proof (plain_not_empty n Hn) as Hne.
  destruct n as [|c n]; [congruence|].
  transitivity (normalize (String "/" (String.concat "/" segs ++ String "/" (String c n))));
    [reflexivity|].
  unfold normalize, abs_path. cbn [Ascii.eqb negb].
  replace (split_slash (String "/" (String.concat "/" segs ++ String "/" (String c n))))
    with ("" :: split_slash (String.concat "/" segs ++ String "/" (String c n)))
    by (simpl; destruct (split_slash_cons (String.concat "/" segs ++ String "/" (String c n)))
          as [x [xs ->]]; reflexivity).
  rewrite norm_segs_abs, rev_involutive by assumption.
  change (String "/" (String.concat "/" segs ++ String "/" (String c n)))
    with ((String "/" (String.concat "/" segs)) ++ String "/" (String c n)).
  rewrite ends_with_slash_app_slash, ends_with_slash_no_slash by auto with gs.
  destruct (String.eqb_spec (String.concat "/" (segs ++ [String c n])) "") as [E|E].
  - exfalso. revert E. apply concat_not_empty; [destruct segs; discriminate|].
    apply Forall_app. split; [exact Hs | repeat constructor; exact Hn].
  - reflexivity.
Qed.

Lemma length_list_ascii s : length (list_ascii_of_string s) = String.length s.
Proof. induction s; simpl; auto. Qed.

Lemma list_ascii_app s t :
  list_ascii_of_string (s ++ t) = (list_ascii_of_string s ++ list_ascii_of_string t)%list.
Proof. induction s; simpl; f_equal; auto. Qed.

Lemma no_slash_chars s :
  no_slash s = true -> Forall (fun c => Ascii.eqb c "/" = false) (list_ascii_of_string s).
Proof.
  induction s as [|c s IH]; simpl; intros H; constructor;
    apply andb_prop in H as [Hc Hs]; [destruct (Ascii.eqb c "/"); easy | auto].
Qed.

(** The scan of [dirname] passes a non-empty run of non-slash characters. *)
Lemma dirname_scan_skip l rest i m :
  Forall (fun c => Ascii.eqb c "/" = false) l -> l <> [] ->
  dirname_scan (l ++ rest) i m = dirname_scan rest (i - length l) false.
Proof.
  revert i m. induction l as [|c l IH]; intros i m Hl Hne; [congruence|].
  inversion Hl as [|? ? Hc Hl']; subst. simpl. rewrite Hc.
  destruct l as [|d l]; [simpl; f_equal; lia|].
  rewrite IH by (assumption || discriminate). f_equal. simpl. lia.
Qed.

(** [dirname] takes the last segment off an absolute path of plain segments. *)
Lemma dirname_abs_snoc segs n :
  Forall (fun s => plain_segment s = true) segs -> plain_segment n = true ->
  dirname (abs_path (segs ++ [n])) = abs_path segs.
Proof.
  intros Hs Hn. pose proof (plain_not_empty n Hn) as Hne.
  assert (Hl : Forall (fun c => Ascii.eqb c "/" = false) (rev (list_ascii_of_string n)))
    by (apply Forall_rev, no_slash_chars; auto with gs).
  assert (Hl0 : rev (list_ascii_of_string n) <> [])
    by (destruct n; [congruence | simpl; intros E; apply app_eq_nil in E as [_ E]; discriminate]).
  unfold abs_path. rewrite concat_snoc. destruct segs as [|a segs].
  - unfold dirname. simpl String.append.
    simpl. rewrite <- (app_nil_r (rev (list_ascii_of_string n))), dirname_scan_skip by assumption.
    reflexivity.
  - set (d := String.concat "/" (a :: segs)).
    assert (Hd : d <> "") by (apply concat_not_empty; [discriminate | exact Hs]).
    unfold dirname. simpl String.append.
    simpl. rewrite list_ascii_app, rev_app_distr. simpl (list_ascii_of_string (String "/" n)).
    simpl (rev (_ :: _)). rewrite <- app_assoc, dirname_scan_skip by assumption. simpl.
    rewrite length_rev, length_list_ascii, length_append. simpl.
    replace (String.length d + S (String.length n) - 0 - String.length n)
      with (S (String.length d)) by lia.
    clearbody d. destruct d as [|c0 d']; [congruence|].
    simpl Nat.eqb. cbv iota. f_equal.
    change (S (String.length d')) with (String.length (String c0 d')).
    apply substring_0_app.
Qed.

(** Appending to an absolute path extends its last segment. *)
Lemma abs_path_snoc_app segs a b :
  abs_path (segs ++ [a])%list ++ b = abs_path (segs ++ [String.append a b])%list.
Proof.
  unfold abs_path. rewrite !concat_snoc.
  destruct segs; simpl; rewrite ?append_assoc; reflexivity.
Qed.

Lemma eqb_length s t : String.eqb s t = true -> String.length s = String.length t.
Proof. intros H. apply String.eqb_eq in H. subst. reflexivity. Qed.

(** ** The last segment of a join *)

Lemma norm_segs_app allow l1 l2 stack :
  norm_segs allow (l1 ++ l2)%list stack = norm_segs allow l2 (norm_segs allow l1 stack).
Proof.
  revert stack. induction l1 as [|a l1 IH]; intros stack; [reflexivity|]. simpl.
  destruct (String.eqb a "" || String.eqb a "."); [apply IH|].
  destruct (String.eqb a ".."); [destruct stack as [|top rest]; [|destruct (String.eqb top "..")]|];
    apply IH.
Qed.

Lemma basename_from_slash_app s n seg last :
  no_slash n = true -> n <> "" -> basename_from (s ++ String "/" n) seg last = n.
Proof.
  intros Hn Hne. revert seg last. induction s as [|c s IH]; intros seg last; simpl.
  - rewrite basename_from_no_slash by exact Hn. simpl.
    destruct (String.eqb_spec n ""); congruence.
  - destruct (Ascii.eqb c "/"); apply IH.
Qed.

(** The path ends with the segment [n]. *)
Definition ends_in (x n : string) : Prop := x = n \/ exists pre, x = pre ++ String "/" n.

Lemma basename_ends_in x n :
  plain_segment n = true -> ends_in x n -> basename x = n.
Proof.
  intros Hn [->|[pre ->]].
  - apply basename_no_slash. auto with gs.
  - apply basename_from_slash_app; auto with gs.
Qed.

Lemma normalize_ends_in d n :
  d <> "" -> plain_segment n = true -> ends_in (normalize (d ++ String "/" n)) n.
Proof.
  intros Hd Hn. destruct d as [|c d]; [congruence|].
  assert (Hs : split_slash (String c (d ++ String "/" n)) = (split_slash (String c d) ++ [n])%list).
  { change (String c (d ++ String "/" n)) with (String c d ++ String "/" n).
    rewrite split_slash_app_slash, (split_slash_no_slash n) by auto with gs. reflexivity. }
  assert (Ht : ends_with_slash (String c (d ++ String "/" n)) = false).
  { change (String c (d ++ String "/" n)) with (String c d ++ String "/" n).
    rewrite ends_with_slash_app_slash, ends_with_slash_no_slash by auto with gs. reflexivity. }
  change (String c d ++ String "/" n) with (String c (d ++ String "/" n)).
  unfold normalize. cbv zeta. rewrite Hs, Ht, norm_segs_app.
  rewrite norm_segs_plain by (repeat constructor; exact Hn). simpl (rev _).
  rewrite concat_snoc.
  set (S := rev (norm_segs _ _ _)). destruct S as [|x xs].
  - destruct (String.eqb_spec n "") as [E|_]; [exfalso; exact (plain_not_empty n Hn E)|].
    destruct (Ascii.eqb c "/"); [right; exists ""; reflexivity | left; reflexivity].
  - destruct (String.eqb_spec (String.concat "/" (x :: xs) ++ String "/" n) "") as [E|_].
    + exfalso. apply (f_equal String.length) in E.
      rewrite length_append in E. simpl in E. lia.
    + destruct (Ascii.eqb c "/"); right; eexists; [rewrite <- append_assoc|]; reflexivity.
Qed.

(** [join] ends with its plain last argument, whatever the directory. *)
Lemma basename_join d n : plain_segment n = true -> basename (join d n) = n.
Proof.
  intros Hn. apply basename_ends_in; [exact Hn|].
  pose proof (plain_not_empty n Hn) as Hne.
  destruct d as [|c d]; destruct n as [|c' n']; try congruence; unfold join.
  - (* an empty directory: [join] normalizes the name alone *)
    left. change (join "" (String c' n')) with (normalize (String c' n')).
    assert (Hs := plain_no_slash _ Hn). pose proof Hs as Hs'. simpl in Hs'.
    apply andb_prop in Hs' as [Hc _]. apply Bool.negb_true_iff in Hc.
    unfold normalize. cbv zeta. rewrite Hc, split_slash_no_slash, ends_with_slash_no_slash by exact Hs.
    rewrite norm_segs_plain by (repeat constructor; exact Hn). reflexivity.
  - apply normalize_ends_in; [discriminate | exact Hn].
Qed.

(** A name without ['/'] followed by an extension of at least three
    characters without ['/'] is a plain segment. *)
Lemma plain_ext_name id ext :
  no_slash id = true -> no_slash ext = true -> 3 <= String.length ext ->
  plain_segment (id ++ ext) = true.
Proof.
  intros Hi He Hl. unfold plain_segment. rewrite no_slash_app, Hi, He.
  assert (L : 3 <= String.length (id ++ ext)) by (rewrite length_append; lia).
  destruct (String.eqb_spec (id ++ ext) "") as [E|_]; [rewrite E in L; simpl in L; lia|].
  destruct (String.eqb_spec (id ++ ext) ".") as [E|_]; [rewrite E in L; simpl in L; lia|].
  destruct (String.eqb_spec (id ++ ext) "..") as [E|_]; [rewrite E in L; simpl in L; lia|].
  reflexivity.
Qed.

(** ** Paths of several plain segments *)

Lemma concat_app xs ys :
  xs <> [] -> ys <> [] ->
  String.concat "/" (xs ++ ys)%list = String.concat "/" xs ++ String "/" (String.concat "/" ys).
Proof.
  intros Hx Hy. induction xs as [|a xs IH]; [congruence|]. destruct xs as [|b xs].
  - simpl. destruct ys; [congruence | reflexivity].
  - change (String.concat "/" ((a :: b :: xs) ++ ys)%list)
      with (a ++ String "/" (String.concat "/" ((b :: xs) ++ ys)%list)).
    rewrite IH by discriminate. simpl. rewrite append_assoc. reflexivity.
Qed.

Lemma concat_split s : String.concat "/" (split_slash s) = s.
Proof.
  induction s as [|c s IH]; [reflexivity|]. simpl.
  destruct (split_slash_cons s) as [seg [segs E]]. rewrite E in *.
  rewrite <- IH. destruct (Ascii.eqb c "/") eqn:Hc;
    [apply Ascii.eqb_eq in Hc; subst c|]; destruct segs; reflexivity.
Qed.

Lemma ends_with_slash_concat segs :
  segs <> [] -> Forall (fun s => plain_segment s = true) segs ->
  ends_with_slash (String.concat "/" segs) = false.
Proof.
  intros Hne Hs. destruct (exists_last Hne) as [xs [n ->]].
  apply Forall_app in Hs as [Hxs Hn]. inversion Hn as [|? ? Hn' _]; subst.
  rewrite concat_snoc. destruct xs.
  - apply ends_with_slash_no_slash. auto with gs.
  - rewrite ends_with_slash_app_slash, ends_with_slash_no_slash by auto with gs. reflexivity.
Qed.

Lemma ends_with_slash_cons c s : s <> "" -> ends_with_slash (String c s) = ends_with_slash s.
Proof. intros H. destruct s; [congruence | reflexivity]. Qed.

(** An absolute path of plain segments is normal, with or without a
    trailing ['/']. *)
Lemma split_abs segs :
  segs <> [] -> Forall (fun s => plain_segment s = true) segs ->
  split_slash (String "/" (String.concat "/" segs)) = "" :: segs.
Proof.
  intros Hne Hs. simpl.
  rewrite split_slash_concat by (auto || (eapply Forall_impl; [|exact Hs]; auto with gs)).
  destruct segs; [congruence | reflexivity].
Qed.

(** [normalize] of an absolute path. *)
Lemma normalize_root r :
  normalize (String "/" r) =
  if String.eqb (String.concat "/" (rev (norm_segs false (split_slash (String "/" r)) []))) ""
  then "/"
  else "/" ++ (if ends_with_slash (String "/" r)
               then String.concat "/" (rev (norm_segs false (split_slash (String "/" r)) [])) ++ "/"
               else String.concat "/" (rev (norm_segs false (split_slash (String "/" r)) []))).
Proof. reflexivity. Qed.

Lemma normalize_abs segs :
  segs <> [] -> Forall (fun s => plain_segment s = true) segs ->
  normalize (abs_path segs) = abs_path segs.
Proof.
  intros Hne Hs. assert (Hc := concat_not_empty segs Hne Hs).
  assert (Hn : norm_segs false ("" :: segs) [] = rev segs)
    by (simpl; rewrite norm_segs_plain, app_nil_r by exact Hs; reflexivity).
  unfold abs_path. change ("/" ++ String.concat "/" segs) with (String "/" (String.concat "/" segs)).
  rewrite normalize_root, split_abs, Hn, rev_involutive, ends_with_slash_cons, ends_with_slash_concat
    by assumption.
  destruct (String.eqb_spec (String.concat "/" segs) ""); [contradiction | reflexivity].
Qed.

Lemma ends_with_slash_app_slash_end s : ends_with_slash (s ++ "/") = true.
Proof. induction s as [|c s IH]; [reflexivity|]. simpl. destruct (s ++ "/") eqn:E; [destruct s; discriminate | exact IH]. Qed.

Lemma normalize_abs_slash segs :
  segs <> [] -> Forall (fun s => plain_segment s = true) segs ->
  normalize (abs_path segs ++ "/") = abs_path segs ++ "/".
Proof.
  intros Hne Hs. assert (Hc := concat_not_empty segs Hne Hs).
  assert (Hsp : split_slash (String "/" (String.concat "/" segs ++ "/")) = ("" :: segs ++ [""])%list).
  { change (String "/" (String.concat "/" segs ++ "/"))
      with (String "/" (String.concat "/" segs) ++ String "/" "").
    rewrite split_slash_app_slash, split_abs by assumption. reflexivity. }
  assert (Hn : norm_segs false ("" :: segs ++ [""])%list [] = rev segs)
    by (simpl; rewrite norm_segs_app, (norm_segs_plain false segs) by exact Hs;
        simpl; apply app_nil_r).
  unfold abs_path. change (("/" ++ String.concat "/" segs) ++ "/")
    with (String "/" (String.concat "/" segs ++ "/")).
  rewrite normalize_root, Hsp, Hn, rev_involutive.
  change (String "/" (String.concat "/" segs ++ "/")) with ("/" ++ (String.concat "/" segs ++ "/")).
  rewrite <- append_assoc, ends_with_slash_app_slash_end.
  destruct (String.eqb_spec (String.concat "/" segs) ""); [contradiction | reflexivity].
Qed.

(** [join] of an absolute directory and a relative path of plain
    segments, with or without a trailing ['/']. *)
Lemma join_abs_rel xs ys :
  xs <> [] -> ys <> [] ->
  Forall (fun s => plain_segment s = true) xs -> Forall (fun s => plain_segment s = true) ys ->
  join (abs_path xs) (String.concat "/" ys) = abs_path (xs ++ ys)%list.
Proof.
  intros Hx Hy Hxs Hys. assert (Hc := concat_not_empty ys Hy Hys).
  transitivity (normalize (abs_path (xs ++ ys))).
  - unfold join, abs_path. destruct (String.concat "/" ys) eqn:E; [contradiction|].
    rewrite concat_app, E by assumption. reflexivity.
  - apply normalize_abs; [destruct xs; [congruence | discriminate] | apply Forall_app; auto].
Qed.

Lemma join_abs_rel_slash xs ys :
  xs <> [] -> ys <> [] ->
  Forall (fun s => plain_segment s = true) xs -> Forall (fun s => plain_segment s = true) ys ->
  join (abs_path xs) (String.concat "/" ys ++ "/") = abs_path (xs ++ ys)%list ++ "/".
Proof.
  intros Hx Hy Hxs Hys. assert (Hc := concat_not_empty ys Hy Hys).
  transitivity (normalize (abs_path (xs ++ ys) ++ "/")).
  - unfold join, abs_path. destruct (String.concat "/" ys) eqn:E; [contradiction|].
    rewrite concat_app, E by assumption. simpl. rewrite append_assoc. reflexivity.
  - apply normalize_abs_slash; [destruct xs; [congruence | discriminate] | apply Forall_app; auto].
Qed.

Lemma plain_segment_eqb s :
  plain_segment s = true -> String.eqb s "" = false /\ String.eqb s "." = false /\ String.eqb s ".." = false.
Proof.
  unfold plain_segment. intros H.
  destruct (String.eqb s ""), (String.eqb s "."), (String.eqb s ".."); simpl in H;
    rewrite ?Bool.andb_false_r in H; try discriminate; auto.
Qed.

(** [join] of an absolute directory and ["../" ++ m] replaces the
    directory's last segment with [m]. *)
Lemma join_abs_parent xs z m :
  Forall (fun s => plain_segment s = true) xs -> plain_segment z = true -> plain_segment m = true ->
  join (abs_path (xs ++ [z])%list) (String "." (String "." (String "/" m))) = abs_path (xs ++ [m])%list.
Proof.
  intros Hxs Hz Hm. set (L := ((xs ++ [z; ".."]) ++ [m])%list).
  assert (HL : Forall (fun s => no_slash s = true) L).
  { unfold L. rewrite <- app_assoc. apply Forall_app. split; [eapply Forall_impl; [|exact Hxs]; auto with gs|].
    constructor; [auto with gs|]. constructor; [reflexivity|]. constructor; [auto with gs | constructor]. }
  assert (HLn : L <> []) by (unfold L; destruct xs; discriminate).
  assert (Hsp : split_slash (String "/" (String.concat "/" L)) = "" :: L).
  { simpl. rewrite split_slash_concat by assumption. destruct L; [congruence | reflexivity]. }
  destruct (plain_segment_eqb z Hz) as [Hz1 [Hz2 Hz3]].
  assert (Hn : norm_segs false ("" :: L) [] = rev (xs ++ [m])).
  { change (norm_segs false ("" :: L) []) with (norm_segs false L []). unfold L.
    rewrite !norm_segs_app, (norm_segs_plain false xs) by exact Hxs. rewrite app_nil_r.
    destruct (plain_segment_eqb m Hm) as [Hm1 [Hm2 Hm3]].
    cbn [norm_segs]. rewrite Hz1, Hz2, Hz3, Hm1, Hm2, Hm3. simpl.
    rewrite rev_app_distr. reflexivity. }
  assert (Hc : String.concat "/" (xs ++ [m]) <> "")
    by (apply concat_not_empty; [destruct xs; discriminate | apply Forall_app; auto]).
  assert (He : ends_with_slash (String "/" (String.concat "/" L)) = false).
  { assert (Hm0 : m <> "") by auto with gs.
    unfold L. rewrite concat_snoc. destruct (xs ++ [z; ".."])%list as [|a l] eqn:E;
      [destruct xs; discriminate|].
    rewrite ends_with_slash_cons by (destruct (String.concat "/" (a :: l)); discriminate).
    rewrite ends_with_slash_app_slash, ends_with_slash_no_slash by auto with gs. reflexivity. }
  transitivity (normalize (String "/" (String.concat "/" L))).
  - unfold join, abs_path, L.
    replace ((xs ++ [z; ".."]) ++ [m])%list with ((xs ++ [z]) ++ [".."; m])%list
      by (rewrite <- !app_assoc; reflexivity).
    rewrite (concat_app (xs ++ [z]) [".."; m]) by (destruct xs; discriminate).
    cbn [append]. reflexivity.
  - rewrite normalize_root, Hsp, Hn, rev_involutive, He.
    destruct (String.eqb_spec (String.concat "/" (xs ++ [m])) ""); [contradiction | reflexivity].
Qed.

End NodeJoin.
