(* ===== verification/Selector.v ===== *)
(** * Selector: the tab filter of [src/index.js], lines 80-88

    [readdir] lists the extracted directory; the entries whose [extname] is
    [".html"] are the tabs, named by the entry without its last five
    characters ([tab_ids], lines 83-85); the tabs are then filtered by the
    configuration values [includeSheets] and [excludeSheets] ([select],
    lines 86-88).  A configuration value is what [config.get] returns: an
    array of names, or any other value ([null], a string, a number), which
    [Array.isArray] rejects and the filter then ignores.

    The theorems characterise the tab names from the directory listing
    (a round trip through the [".html"] suffix), refine [select] to the
    predicate of the specification (section 4.1) and check the end-to-end
    example of its section 8. *)

From Stdlib Require Import String Ascii List Arith Lia.
From S2P Require Import Prelude NodePath.
Import ListNotations.
Import NodePath.
Open Scope string_scope.
Open Scope bool_scope.

Module Selector.

(** A value of the configuration as the code tests it. *)
Inductive cfg_value : Type :=
| CArray (items : list string)
| COther.

(** [arr.includes(x)] on an array of strings. *)
Definition js_includes (l : list string) (x : string) : bool :=
  existsb (String.eqb x) l.

(** [x => extname(x) == '.html'] *)
Definition is_html_file (x : string) : bool := String.eqb (extname x) ".html".

(** [x => basename(x).slice(0, -5)] *)
Definition sheet_of_file (x : string) : string := slice_to (basename x) 5.

(** [files.filter(...).map(...)] *)
Definition tab_ids (files : list string) : list string :=
  List.map sheet_of_file (List.filter is_html_file files).

(** The predicate of lines 86-87:
    [(!Array.isArray(inc) || !inc.length || inc.includes(x))
     && (!Array.isArray(exc) || !exc.includes(x))]. *)
Definition keep_sheet (inc exc : cfg_value) (x : string) : bool :=
  (match inc with
   | CArray l => Nat.eqb (length l) 0 || js_includes l x
   | COther => true
   end)
  && (match exc with
      | CArray l => negb (js_includes l x)
      | COther => true
      end).

(** [.filter(x => ...)] of lines 86-88. *)
Definition select (ids : list string) (inc exc : cfg_value) : list string :=
  List.filter (keep_sheet inc exc) ids.

(** [sheetNames], lines 83-88. *)
Definition sheet_names (files : list string) (inc exc : cfg_value) : list string :=
  select (tab_ids files) inc exc.

(** ** The specification's selection predicate (section 4.1)

    An absent list is [None]; a tab passes iff the allow list is absent,
    empty or contains it, and the deny list is absent or does not. *)
Definition spec_pass (allow deny : option (list string)) (x : string) : Prop :=
  (allow = None \/ allow = Some [] \/ exists l, allow = Some l /\ In x l)
  /\ (forall l, deny = Some l -> ~ In x l).

Definition cfg_list (v : cfg_value) : option (list string) :=
  match v with CArray l => Some l | COther => None end.

(** ** Lemmas *)

Lemma js_includes_In l x : js_includes l x = true <-> In x l.
Proof.
  unfold js_includes. rewrite existsb_exists. split.
  - intros [y [Hy Heq]]. apply String.eqb_eq in Heq. subst. exact Hy.
  - intros Hx. exists x. split; [exact Hx | apply String.eqb_refl].
Qed.

Lemma keep_sheet_spec inc exc x :
  keep_sheet inc exc x = true <-> spec_pass (cfg_list inc) (cfg_list exc) x.
Proof.
  unfold keep_sheet, spec_pass.
  rewrite Bool.andb_true_iff.
  destruct inc as [li|], exc as [le|]; simpl;
    try rewrite Bool.orb_true_iff, Nat.eqb_eq, length_zero_iff_nil;
    try rewrite Bool.negb_true_iff, <- Bool.not_true_iff_false, js_includes_In;
    try rewrite js_includes_In;
    firstorder congruence.
Qed.

Lemma ext_of_segment_html s :
  s <> "" -> ext_of_segment (s ++ ".html") = ".html".
Proof.
  intros Hs. unfold ext_of_segment. rewrite last_dot_suffix_html.
  destruct (String.length s) eqn:Hl; [destruct s; simpl in *; congruence|].
  destruct (String.eqb_spec (s ++ ".html") "..") as [E|_].
  - apply (f_equal String.length) in E. rewrite length_append in E. simpl in E. lia.
  - rewrite <- Hl, length_append, substring_app_r.
    replace (String.length s + String.length ".html" - String.length s) with 5
      by (simpl; lia).
    reflexivity.
Qed.

Lemma ext_of_segment_inv f :
  ext_of_segment f = ".html" -> exists s, f = s ++ ".html" /\ s <> "".
Proof.
  unfold ext_of_segment. intros H.
  destruct (last_dot f) as [[|i]|] eqn:E; try discriminate.
  destruct (String.eqb f ".."); [discriminate|].
  apply last_dot_lt in E.
  exists (substring 0 (S i) f). split.
  - rewrite <- H. symmetry. apply substring_split. lia.
  - intros Hs. apply (f_equal String.length) in Hs.
    rewrite length_substring_0 in Hs; simpl in Hs; lia.
Qed.

Lemma no_slash_prefix s t : no_slash (s ++ t) = true -> no_slash s = true.
Proof. rewrite no_slash_app. intros H. apply andb_prop in H. tauto. Qed.

(** ** Properties *)

(** For a directory entry (no ['/']), [extname(f) == '.html'] holds
    exactly when [f] is a non-empty name followed by [".html"]. *)
Lemma html_file_iff (f : string) :
  no_slash f = true ->
  is_html_file f = true <-> exists s, f = s ++ ".html" /\ s <> "".
Proof.
  intros Hf. unfold is_html_file, extname. rewrite basename_no_slash by exact Hf.
  rewrite String.eqb_eq. split.
  - apply ext_of_segment_inv.
  - intros [s [-> Hs]]. apply ext_of_segment_html. exact Hs.
Qed.

Lemma sheet_of_file_html s :
  no_slash (s ++ ".html") = true -> sheet_of_file (s ++ ".html") = s.
Proof.
  intros H. unfold sheet_of_file. rewrite basename_no_slash by exact H.
  apply (slice_to_suffix s ".html").
Qed.

(** The sheet names of the listing have no ['/'] and are distinct when
    the listing's names are. *)
Lemma In_tab_ids files x :
  Forall (fun f => no_slash f = true) files ->
  In x (tab_ids files) -> In (x ++ ".html") files /\ no_slash x = true.
Proof.
  intros Hf Hx. unfold tab_ids in Hx. apply in_map_iff in Hx as [f [<- Hf']].
  apply filter_In in Hf' as [Hin Hh]. rewrite Forall_forall in Hf.
  destruct (proj1 (html_file_iff f (Hf f Hin)) Hh) as [s [-> _]].
  rewrite sheet_of_file_html by exact (Hf _ Hin).
  split; [exact Hin | exact (no_slash_prefix _ _ (Hf _ Hin))].
Qed.

Lemma sheet_names_no_slash files inc exc :
  Forall (fun f => no_slash f = true) files ->
  Forall (fun s => no_slash s = true) (sheet_names files inc exc).
Proof.
  intros Hf. apply Forall_forall. intros x Hx.
  apply filter_In in Hx as [Hx _]. exact (proj2 (In_tab_ids files x Hf Hx)).
Qed.

Lemma sheet_names_NoDup files inc exc :
  NoDup files -> Forall (fun f => no_slash f = true) files -> NoDup (sheet_names files inc exc).
Proof.
  intros Hnd Hf. apply NoDup_filter. unfold tab_ids.
  apply NoDup_map_NoDup_ForallPairs; [|apply NoDup_filter, Hnd].
  intros x y Hx Hy E. rewrite Forall_forall in Hf.
  apply filter_In in Hx as [Hx Hhx], Hy as [Hy Hhy].
  destruct (proj1 (html_file_iff x (Hf x Hx)) Hhx) as [s [-> _]].
  destruct (proj1 (html_file_iff y (Hf y Hy)) Hhy) as [t [-> _]].
  rewrite !sheet_of_file_html in E by auto. subst. reflexivity.
Qed.

(** The tab names of a listing of names without ['/']. *)
Lemma tab_ids_In_iff (files : list string) (x : string) :
  Forall (fun f => no_slash f = true) files ->
  In x (tab_ids files) <-> In (x ++ ".html") files /\ x <> "".
Proof.
  intros Hfiles. unfold tab_ids. rewrite in_map_iff. split.
  - intros [f [<- Hf]]. apply filter_In in Hf as [Hin Hhtml].
    pose proof (proj1 (Forall_forall _ _) Hfiles f Hin) as Hns.
    apply (html_file_iff f Hns) in Hhtml as [s [-> Hs]].
    rewrite sheet_of_file_html by exact Hns. auto.
  - intros [Hin Hx]. exists (x ++ ".html").
    pose proof (proj1 (Forall_forall _ _) Hfiles _ Hin) as Hns.
    rewrite sheet_of_file_html by exact Hns. split; [reflexivity|].
    apply filter_In. split; [exact Hin|]. apply html_file_iff; eauto.
Qed.

(** C21: The tab names read from a directory listing are exactly the names
    [x] such that the listing has the entry [x ++ ".html"], except the empty
    name: an entry called [".html"] is never a tab. *)
Theorem tab_ids_spec (files : list string) (x : string) :
  Forall (fun f => no_slash f = true) files ->
  In x (tab_ids files) <-> In (x ++ ".html") files /\ x <> "".
Proof. apply tab_ids_In_iff. Qed.

Lemma select_In ids inc exc x :
  In x (select ids inc exc) <-> In x ids /\ spec_pass (cfg_list inc) (cfg_list exc) x.
Proof. unfold select. rewrite filter_In, keep_sheet_spec. reflexivity. Qed.

(** C20: [select] implements the selection contract of the specification:
    its result keeps the input order, and a tab is in it iff it is in the
    input and passes the allow/deny predicate, a configuration value that
    is not an array counting as an absent list. *)
Theorem select_spec (ids : list string) (inc exc : cfg_value) :
  subseq (select ids inc exc) ids /\
  (forall x, In x (select ids inc exc) <->
             In x ids /\ spec_pass (cfg_list inc) (cfg_list exc) x).
Proof.
  split; [apply filter_subseq | apply select_In].
Qed.

(** The deny list always wins: a tab listed in [excludeSheets] is never
    selected, whatever [includeSheets] holds. *)
Theorem deny_wins (ids : list string) (inc : cfg_value) (l : list string) (x : string) :
  In x l -> ~ In x (select ids inc (CArray l)).
Proof.
  intros Hx Hsel. apply select_In in Hsel.
  destruct Hsel as [_ [_ Hdeny]]. exact (Hdeny l eq_refl Hx).
Qed.

(** A non-empty allow list is a strict filter: every selected tab is
    listed in [includeSheets]. *)
Theorem allow_strict (ids : list string) (l : list string) (exc : cfg_value) (x : string) :
  l <> [] -> In x (select ids (CArray l) exc) -> In x l.
Proof.
  intros Hl Hsel. apply select_In in Hsel.
  destruct Hsel as [_ [[H|[H|[l' [H Hx]]]] _]]; simpl in H; congruence.
Qed.

(** The end-to-end example of the specification: of five tabs, with
    [includeSheets = ["A", "C"]] and [excludeSheets = ["C"]], only ["A"] is
    rendered. *)
Theorem sheet_names_example :
  sheet_names ["A.html"; "B.html"; "C.html"; "D.html"; "E.html"; "resources"]
    (CArray ["A"; "C"]) (CArray ["C"]) = ["A"].
Proof. reflexivity. Qed.

(** ** Concrete selections *)

Lemma tab_ids_spec_witness :
  Forall (fun f => no_slash f = true) ["A.html"; "notes.txt"] /\
  (In "A" (tab_ids ["A.html"; "notes.txt"]) <-> In ("A" ++ ".html") ["A.html"; "notes.txt"] /\ "A" <> "").
Proof.
  split; [repeat constructor|]. apply tab_ids_spec. repeat constructor.
Defined.

Lemma deny_wins_witness :
  In "C" ["C"] /\ ~ In "C" (select ["A"; "C"] (CArray ["A"; "C"]) (CArray ["C"])).
Proof. split; [simpl; auto|]. apply deny_wins. simpl; auto. Defined.

Lemma allow_strict_witness :
  ["A"] <> [] /\ In "A" (select ["A"; "B"] (CArray ["A"]) COther) /\ In "A" ["A"].
Proof.
  split; [discriminate|]. split; [simpl; auto|].
  apply (allow_strict ["A"; "B"] ["A"] COther "A"); [discriminate | simpl; auto].
Defined.

End Selector.
