(* ===== verification/Geometry.v ===== *)
(** * Geometry: the clip rectangle and the viewport, [src/index.js] lines 54-64

    [screenshot] reads the width of the row-header element and the bounding
    box of [tbody], and computes
    - the clip (lines 54-59): the body without the row header and a
      1-pixel border on its left, at the body's full height;
    - the viewport (lines 61-64): per axis, the larger of the full-HD
      baseline (1920 x 1080) and [Math.floor(extent) + 100].
    CSS pixel values are exact rationals [Q] (JavaScript computes them in
    binary floating point; rounding is not modelled) and the viewport is in
    integers [Z], [Math.floor] being [Qfloor].

    The theorems give the viewport's exact characterisation (the least
    integer size that is at least the baseline and larger than the extent
    plus 99), the position of the clip inside the body, when the clip is
    non-empty, when it fits inside the viewport and when it overflows it,
    with the specification's numeric examples. *)

From Stdlib Require Import QArith Qround Lqa ZArith Lia.
From S2P Require Import Prelude.

Module Geometry.

(** A DOMRect as [boundingBox()] returns it, and a clip for [screenshot]. *)
Record rect : Type := mk_rect { rx : Q; ry : Q; rw : Q; rh : Q }.

(** A viewport size for [page.setViewportSize]. *)
Record viewport : Type := mk_viewport { vw : Z; vh : Z }.

(** The fixed constants of the code. *)
Definition baseline : viewport := mk_viewport 1920 1080.
Definition margin : Z := 100.

(** [clipArea], lines 54-59. *)
Definition clip_area (row_header_width : Q) (bb : rect) : rect :=
  {| rx := rx bb + row_header_width + 1;
     ry := ry bb;
     rw := rw bb - row_header_width - 1;
     rh := rh bb |}.

(** [{ width: Math.max(1920, Math.floor(clipArea.width) + 100), ... }],
    lines 61-64. *)
Definition viewport_for (clip : rect) : viewport :=
  {| vw := Z.max (vw baseline) (Qfloor (rw clip) + margin);
     vh := Z.max (vh baseline) (Qfloor (rh clip) + margin) |}.

(** ** Lemmas on [Qfloor] *)

Lemma Qfloor_lt_iff (x : Q) (m : Z) : (Qfloor x < m)%Z <-> x < inject_Z m.
Proof.
  pose proof (Qfloor_le x). pose proof (Qlt_floor x).
  rewrite inject_Z_plus in *. split.
  - intros H1. assert (Hm : (Qfloor x + 1 <= m)%Z) by lia.
    rewrite Zle_Qle, inject_Z_plus in Hm. lra.
  - intros H1. rewrite Zlt_Qlt. lra.
Qed.

(** One axis of the viewport: [max(base, floor(e) + 100) <= n] iff
    [base <= n] and [e + 99 < n]. *)
Lemma axis_le_iff (base : Z) (e : Q) (n : Z) :
  (Z.max base (Qfloor e + margin) <= n)%Z <->
  (base <= n)%Z /\ e + 99 < inject_Z n.
Proof.
  unfold margin. rewrite Z.max_lub_iff.
  assert (Hf : (Qfloor e + 100 <= n)%Z <-> (Qfloor e < n - 99)%Z) by lia.
  rewrite Hf, Qfloor_lt_iff.
  unfold Z.sub. rewrite inject_Z_plus, inject_Z_opp.
  change (inject_Z 99) with 99.
  split; intros [H1 H2]; split; auto; lra.
Qed.

Lemma axis_gt (base : Z) (e : Q) :
  e + 99 < inject_Z (Z.max base (Qfloor e + margin)).
Proof. apply (proj1 (axis_le_iff base e _) (Z.le_refl _)). Qed.

Lemma axis_ge_base (base : Z) (e : Q) :
  (base <= Z.max base (Qfloor e + margin))%Z.
Proof. apply Z.le_max_l. Qed.

(** Past the baseline, an axis of the viewport is at most the extent plus
    100, so an offset above 100 puts the far edge outside. *)
Lemma axis_lt (base : Z) (e x : Q) :
  inject_Z base <= e + 100 -> 100 < x ->
  inject_Z (Z.max base (Qfloor e + margin)) < e + x.
Proof.
  intros Hb Hx. unfold margin. pose proof (Qfloor_le e).
  destruct (Z.max_spec base (Qfloor e + 100)) as [[_ ->]|[_ ->]];
    [rewrite inject_Z_plus; change (inject_Z 100) with 100|]; lra.
Qed.

#[export] Hint Resolve axis_gt axis_ge_base : gs.

(** ** Properties *)

(** C16: The viewport is exactly the least integer size that is at least the
    full-HD baseline and larger than the clip's extent plus 99 pixels, on
    each axis: a size [n] is at least the computed width iff [n >= 1920]
    and [n > width + 99] (and likewise for the height). *)
Theorem viewport_least (clip : rect) (n m : Z) :
  ((vw (viewport_for clip) <= n)%Z <-> (1920 <= n)%Z /\ rw clip + 99 < inject_Z n) /\
  ((vh (viewport_for clip) <= m)%Z <-> (1080 <= m)%Z /\ rh clip + 99 < inject_Z m).
Proof. split; apply axis_le_iff. Qed.

(** The numeric examples of the specification: a clip 900 wide gets the
    baseline width 1920; a clip 2000 wide gets 2100. *)
Theorem viewport_examples :
  vw (viewport_for (mk_rect 0 0 900 10)) = 1920%Z /\
  vw (viewport_for (mk_rect 0 0 2000 10)) = 2100%Z.
Proof. split; reflexivity. Qed.

(** The clip of the specification's example: a row header 120 wide and
    a body at [x = 0], 1000 wide, give a clip at [x = 121], 879 wide. *)
Theorem clip_example :
  rx (clip_area 120 (mk_rect 0 0 1000 500)) == 121 /\
  rw (clip_area 120 (mk_rect 0 0 1000 500)) == 879.
Proof. split; reflexivity. Qed.

(** C17: The clip lies inside the body's bounding box and is flush with its
    right edge, at the body's full height, and it is non-empty exactly
    when the body is wider than the row header plus the 1-pixel border;
    the code does not check that condition before capturing. *)
Theorem clip_in_body (hw : Q) (bb : rect) :
  0 <= hw ->
  rx bb < rx (clip_area hw bb) /\
  rx (clip_area hw bb) + rw (clip_area hw bb) == rx bb + rw bb /\
  ry (clip_area hw bb) == ry bb /\ rh (clip_area hw bb) == rh bb /\
  (0 < rw (clip_area hw bb) <-> hw + 1 < rw bb).
Proof.
  intros Hhw. simpl. repeat split; try lra; intros H; lra.
Qed.

(** C18: When the clip's left and top edges are within the 100-pixel margin
    ([0 <= x <= 99] and [0 <= y <= 99]), the whole clip lies inside the
    resized viewport. *)
Theorem clip_fits_viewport (hw : Q) (bb : rect) :
  0 <= rx (clip_area hw bb) <= 99 -> 0 <= ry bb <= 99 ->
  rx (clip_area hw bb) + rw (clip_area hw bb) < inject_Z (vw (viewport_for (clip_area hw bb))) /\
  ry (clip_area hw bb) + rh (clip_area hw bb) < inject_Z (vh (viewport_for (clip_area hw bb))).
Proof.
  intros Hx Hy. unfold viewport_for. simpl vw; simpl vh.
  pose proof (axis_gt 1920 (rw (clip_area hw bb))).
  pose proof (axis_gt 1080 (rh (clip_area hw bb))).
  simpl in *. split; lra.
Qed.

(** C19: The viewport is sized from the clip's extent only, not its
    position.  On each axis where the clip is large enough for the margin
    rule to apply ([Math.floor(extent) + 100] at least the baseline) and
    its offset exceeds the 100-pixel margin, the clip's far edge lies past
    the resized viewport, so the capture extends beyond it.  With C18 this
    places the boundary between 99 and 100 pixels of offset. *)
Theorem clip_overflows_viewport (hw : Q) (bb : rect) :
  (1820 <= rw (clip_area hw bb) -> 100 < rx (clip_area hw bb) ->
   inject_Z (vw (viewport_for (clip_area hw bb))) < rx (clip_area hw bb) + rw (clip_area hw bb)) /\
  (980 <= rh (clip_area hw bb) -> 100 < ry (clip_area hw bb) ->
   inject_Z (vh (viewport_for (clip_area hw bb))) < ry (clip_area hw bb) + rh (clip_area hw bb)).
Proof.
  split; intros He Hx; rewrite Qplus_comm; apply axis_lt; simpl in *; unfold inject_Z; lra.
Qed.

(** ** Concrete clips *)

Lemma clip_in_body_witness :
  0 <= 46 /\ rx (mk_rect 0 20 1046 600) < rx (clip_area 46 (mk_rect 0 20 1046 600)).
Proof.
  split; [discriminate|].
  exact (proj1 (clip_in_body 46 (mk_rect 0 20 1046 600) ltac:(discriminate))).
Defined.

Lemma clip_fits_viewport_witness :
  (0 <= rx (clip_area 46 (mk_rect 0 20 1046 600)) <= 99 /\ 0 <= ry (mk_rect 0 20 1046 600) <= 99) /\
  rx (clip_area 46 (mk_rect 0 20 1046 600)) + rw (clip_area 46 (mk_rect 0 20 1046 600))
    < inject_Z (vw (viewport_for (clip_area 46 (mk_rect 0 20 1046 600)))).
Proof.
  split; [split; split; discriminate|].
  refine (proj1 (clip_fits_viewport 46 (mk_rect 0 20 1046 600) _ _)); split; discriminate.
Defined.

(** A row header 150 wide before a body 3000 wide: the clip starts at
    151 and is 2849 wide, the viewport 2949 wide. *)
Lemma clip_overflows_viewport_witness :
  (1820 <= rw (clip_area 150 (mk_rect 0 0 3000 500)) /\ 100 < rx (clip_area 150 (mk_rect 0 0 3000 500))) /\
  inject_Z (vw (viewport_for (clip_area 150 (mk_rect 0 0 3000 500))))
    < rx (clip_area 150 (mk_rect 0 0 3000 500)) + rw (clip_area 150 (mk_rect 0 0 3000 500)).
Proof.
  split; [split; [discriminate | reflexivity]|].
  refine (proj1 (clip_overflows_viewport 150 (mk_rect 0 0 3000 500)) _ _); [discriminate | reflexivity].
Defined.

End Geometry.
