(* ===== verification/RenderJob.v ===== *)
(** * RenderJob: the per-tab job [screenshot], [src/index.js] lines 45-72

    [screenshot(htmlPath, pngPath, browser)] opens a page (viewport
    1920 x 1080, device scale factor 2), navigates it to the tab's HTML
    file with no timeout, and then, inside [try]: queries the row header
    and [tbody], reads their bounding boxes, computes the clip and the
    viewport ([Geometry]), resizes the page and captures the clip; a thrown
    error is logged by [catch]; [finally] closes the page.

    The job is a program in the [Js] monad of the prelude: its trace is the
    sequence of browser calls ([call]) and its result is the settlement of
    the promise [screenshot] returns.  The browser's answers are a record
    [page_env]: whether [newPage], [goto], [setViewportSize], [screenshot]
    and [close] succeed, and what [page.$] and [boundingBox()] return for
    the two selectors ([None] is [null]).  Dereferencing [null] (a missing
    element, or a missing box) throws a [TypeError], as in JavaScript.

    The theorems give the whole trace of a successful job, show that the
    page is closed exactly once and last whenever navigation succeeded,
    that a layout error is contained and logged, when the job's promise
    rejects, and that a failed navigation leaves the page open. *)

From Stdlib Require Import String List QArith ZArith Lia.
From S2P Require Import Prelude Geometry.
Import ListNotations.
Import Geometry.
Open Scope js_scope.

Module RenderJob.

(** The exceptions a job can meet. *)
Inductive exn : Type :=
| ProtocolError      (* a browser call rejected *)
| NavigationError    (* [page.goto] rejected *)
| TypeError.         (* a property read on [null] *)

(** The observable browser calls of a job, in the order it makes them. *)
Inductive call : Type :=
| NewPage (vp : viewport) (scale : Z)
| Goto (url : string) (timeout : Z)
| Query (selector : string)
| BoundingBox (selector : string)
| SetViewport (vp : viewport)
| Screenshot (path : string) (clip : rect)
| ConsoleError (e : exn)
| ClosePage.

(** What the browser answers to the job's calls. *)
Record page_env : Type := mk_page_env {
  new_page_ok : bool;
  goto_ok : bool;
  row_header : option (option rect);   (* [page.$('.row-header-wrapper')] and its box *)
  tbody : option (option rect);        (* [page.$('tbody')] and its box *)
  resize_ok : bool;
  capture_ok : bool;
  close_ok : bool }.

Abbreviation job := (Js call exn).

Definition row_header_sel : string := ".row-header-wrapper"%string.
Definition tbody_sel : string := "tbody"%string.

(** A browser call that resolves or rejects. *)
Definition browser_call (c : call) (ok : bool) (e : exn) : job unit :=
  ([c], if ok then Done tt else Thrown e).

(** [await page.$(sel)]: [None] is [null], [Some b] an element whose box is [b]. *)
Definition query (sel : string) (ans : option (option rect)) : job (option (option rect)) :=
  ([Query sel], Done ans).

(** [await el.boundingBox()]: a method call on [null] throws. *)
Definition bounding_box (sel : string) (el : option (option rect)) : job (option rect) :=
  match el with
  | None => js_throw TypeError
  | Some b => ([BoundingBox sel], Done b)
  end.

(** Lines 50-59: the queries and [clipArea]. *)
Definition locate_clip (env : page_env) : job rect :=
  rh <- query row_header_sel (row_header env) ;;
  rh_box <- bounding_box row_header_sel rh ;;
  rh_rect <- js_deref rh_box TypeError ;;
  tb <- query tbody_sel (tbody env) ;;
  tb_box <- bounding_box tbody_sel tb ;;
  bb <- js_deref tb_box TypeError ;;
  js_ret (clip_area (rw rh_rect) bb).

(** Lines 50-66: the body of [try]. *)
Definition capture (png : string) (env : page_env) : job unit :=
  clip <- locate_clip env ;;
  browser_call (SetViewport (viewport_for clip)) (resize_ok env) ProtocolError ;;
  browser_call (Screenshot png clip) (capture_ok env) ProtocolError.

(** [screenshot(htmlPath, pngPath, browser)], lines 45-72. *)
Definition screenshot (html png : string) (env : page_env) : job unit :=
  browser_call (NewPage baseline 2) (new_page_ok env) ProtocolError ;;
  browser_call (Goto ("file://" ++ html)%string 0) (goto_ok env) NavigationError ;;
  js_finally
    (js_catch (capture png env) (fun e => js_emit (ConsoleError e)))
    (browser_call ClosePage (close_ok env) ProtocolError).

(** How the promise of a job settles. *)
Inductive settlement : Type := Fulfilled | Rejected.

Definition settle_of {A} (m : job A) : settlement :=
  match result_of m with Done _ => Fulfilled | Thrown _ => Rejected end.

(** The region located on the page, as a pure function of the answers. *)
Definition layout (env : page_env) : option rect :=
  match row_header env, tbody env with
  | Some (Some hr), Some (Some bb) => Some (clip_area (rw hr) bb)
  | _, _ => None
  end.

(** The typestate of the job's page: [browser.newPage] opens it when it
    resolves, [page.close] releases it, [console.error] does not touch it,
    and every other call is a call on the page. *)
Definition page_step (env : page_env) (r : rstate) (c : call) : option rstate :=
  match c with
  | NewPage _ _ => acquire (new_page_ok env) r
  | ClosePage => release r
  | ConsoleError _ => Some r
  | _ => use r
  end.

(** ** Lemmas *)

(** The [try] body located the region exactly when [layout] finds it. *)
Lemma locate_clip_spec env :
  (forall clip, layout env = Some clip ->
     locate_clip env = ([Query row_header_sel; BoundingBox row_header_sel;
                         Query tbody_sel; BoundingBox tbody_sel], Done clip)) /\
  (layout env = None -> exists t, locate_clip env = (t, Thrown TypeError)).
Proof.
  unfold layout, locate_clip. split; [intros clip Hc | intros Hc];
    destruct env as [? ? [[hr|]|] [[bb|]|] ? ? ?]; simpl in *;
    try discriminate; try (inv Hc; reflexivity); eauto.
Qed.

(** The [try]/[catch] block never throws, and never closes the page. *)
Lemma caught_capture_shape png env :
  result_of (js_catch (capture png env) (fun e => js_emit (ConsoleError e))) = Done tt /\
  ~ In ClosePage (trace_of (js_catch (capture png env) (fun e => js_emit (ConsoleError e)))).
Proof.
  unfold capture, locate_clip.
  destruct env as [? ? [[hr|]|] [[bb|]|] [] [] ?]; simpl;
    split; try reflexivity; intuition discriminate.
Qed.

(** The whole job, once the page is open and navigated. *)
Lemma screenshot_navigated html png env :
  new_page_ok env = true -> goto_ok env = true ->
  screenshot html png env =
    ([NewPage baseline 2; Goto ("file://" ++ html)%string 0] ++
       trace_of (js_catch (capture png env) (fun e => js_emit (ConsoleError e))) ++
       [ClosePage],
     if close_ok env then Done tt else Thrown ProtocolError).
Proof.
  intros Hn Hg. unfold screenshot, browser_call. rewrite Hn, Hg.
  destruct (caught_capture_shape png env) as [Hr _].
  destruct (js_catch (capture png env) _) as [t r] eqn:E.
  unfold result_of in Hr. simpl in Hr. subst r.
  destruct (close_ok env); reflexivity.
Qed.

Lemma settle_navigated html png env :
  new_page_ok env = true -> goto_ok env = true ->
  (settle_of (screenshot html png env) = Fulfilled <-> close_ok env = true).
Proof.
  intros Hn Hg. unfold settle_of. rewrite screenshot_navigated by assumption.
  destruct (close_ok env); simpl; split; congruence.
Qed.

(** Case analysis on every answer of the browser. *)
Ltac env_cases env :=
  destruct env as [[] [] [[?hr|]|] [[?bb|]|] [] [] []].

(** A job writes no file but its [pngPath]. *)
Lemma screenshot_writes_png html png env p c :
  In (Screenshot p c) (trace_of (screenshot html png env)) -> p = png.
Proof.
  unfold screenshot, capture, locate_clip, browser_call.
  env_cases env; simpl; intuition congruence.
Qed.

(** ** Properties *)

(** C7: Once the page is open and navigated, the job closes it exactly once,
    as its last browser call, whatever the layout or capture does; the
    job's promise then fulfils iff [page.close()] succeeds. *)
Theorem page_closed_last (html png : string) (env : page_env) :
  new_page_ok env = true -> goto_ok env = true ->
  (exists t, trace_of (screenshot html png env) = t ++ [ClosePage] /\ ~ In ClosePage t) /\
  (settle_of (screenshot html png env) = Fulfilled <-> close_ok env = true).
Proof.
  intros Hn Hg. split; [|apply settle_navigated; assumption].
  rewrite screenshot_navigated by assumption.
  destruct (caught_capture_shape png env) as [_ Hc].
  eexists. split; [unfold trace_of; cbn [fst]; rewrite app_assoc; reflexivity|].
  rewrite in_app_iff. simpl. intros [[H|[H|H]]|H]; try discriminate; tauto.
Qed.

(** C14: The trace of a job whose every browser call succeeds and whose page
    has both elements: open, navigate, query and measure the row header and
    the body, resize to [viewport_for clip], capture [clip], close. *)
Theorem screenshot_success (html png : string) (env : page_env) (clip : rect) :
  new_page_ok env = true -> goto_ok env = true -> resize_ok env = true ->
  capture_ok env = true -> close_ok env = true -> layout env = Some clip ->
  screenshot html png env =
    ([NewPage baseline 2; Goto ("file://" ++ html)%string 0;
      Query row_header_sel; BoundingBox row_header_sel;
      Query tbody_sel; BoundingBox tbody_sel;
      SetViewport (viewport_for clip); Screenshot png clip; ClosePage], Done tt).
Proof.
  intros Hn Hg Hr Hc Hcl Hl. unfold screenshot, capture, browser_call.
  rewrite (proj1 (locate_clip_spec env) clip Hl), Hn, Hg, Hr, Hc, Hcl.
  reflexivity.
Qed.

(** The captures of a job: the page opened and navigated, both elements
    and their boxes found, the resize succeeded, at the job's [pngPath]. *)
Lemma screenshot_capture_In (html png : string) (env : page_env) (p : string) (c : rect) :
  In (Screenshot p c) (trace_of (screenshot html png env)) <->
  new_page_ok env = true /\ goto_ok env = true /\ resize_ok env = true /\
  layout env = Some c /\ p = png.
Proof.
  unfold screenshot, capture, locate_clip, layout, browser_call.
  env_cases env; simpl; intuition congruence.
Qed.

(** C15: A capture happens exactly when the page opened and navigated, both
    elements and their boxes were found, and the resize succeeded; it then
    writes [pngPath] with the clip computed from the two boxes. *)
Theorem capture_iff (html png : string) (env : page_env) (p : string) (c : rect) :
  In (Screenshot p c) (trace_of (screenshot html png env)) <->
  new_page_ok env = true /\ goto_ok env = true /\ resize_ok env = true /\
  layout env = Some c /\ p = png.
Proof. apply screenshot_capture_In. Qed.

(** C13: A page without the row header or [tbody] (or without their boxes)
    is a layout error scoped to its job: the [TypeError] is logged, nothing
    is resized or captured, the page is still closed and the job fulfils
    when [close] succeeds. *)
Theorem layout_error_contained (html png : string) (env : page_env) :
  new_page_ok env = true -> goto_ok env = true -> layout env = None ->
  In (ConsoleError TypeError) (trace_of (screenshot html png env)) /\
  (forall p c, ~ In (Screenshot p c) (trace_of (screenshot html png env))) /\
  (forall vp, ~ In (SetViewport vp) (trace_of (screenshot html png env))) /\
  (settle_of (screenshot html png env) = Fulfilled <-> close_ok env = true).
Proof.
  intros Hn Hg Hl. unfold settle_of, screenshot, capture, locate_clip, browser_call.
  unfold layout in Hl. rewrite Hn, Hg.
  env_cases env; simpl in *; try discriminate; intuition congruence.
Qed.

(** The promise of a job fulfils exactly when opening the page,
    navigating it and closing it succeed: errors of the layout, the resize
    and the capture are caught inside the job. *)
Theorem settle_iff (html png : string) (env : page_env) :
  settle_of (screenshot html png env) = Fulfilled <->
  new_page_ok env = true /\ goto_ok env = true /\ close_ok env = true.
Proof.
  destruct (new_page_ok env) eqn:Hn; [destruct (goto_ok env) eqn:Hg|].
  - rewrite (settle_navigated html png env Hn Hg). intuition.
  - unfold settle_of, screenshot, browser_call. rewrite Hn, Hg. simpl. intuition discriminate.
  - unfold settle_of, screenshot, browser_call. rewrite Hn. simpl. intuition discriminate.
Qed.

(** C12: [page.goto] is awaited outside [try]: when navigation rejects, the
    job's promise rejects with the navigation error right after the two
    calls, and the page it opened is never closed. *)
Theorem goto_failure_leaks_page (html png : string) (env : page_env) :
  new_page_ok env = true -> goto_ok env = false ->
  screenshot html png env =
    ([NewPage baseline 2; Goto ("file://" ++ html)%string 0], Thrown NavigationError).
Proof.
  intros Hn Hg. unfold screenshot, browser_call. rewrite Hn, Hg. reflexivity.
Qed.

(** C33: The job follows the page's typestate, whatever the browser
    answers: no call on the page before [browser.newPage] resolves or after
    [page.close], and at most one close.  The page ends released when it
    opened and navigated, and stays open exactly when it opened and the
    navigation failed. *)
Theorem page_typestate (html png : string) (env : page_env) :
  protocol_run (page_step env) Unopened (trace_of (screenshot html png env)) =
  Some (if new_page_ok env then if goto_ok env then Released else Opened else Unopened).
Proof.
  unfold screenshot, capture, locate_clip, browser_call.
  env_cases env; reflexivity.
Qed.

(** A page that opened and navigated ends released. *)
Lemma page_released (html png : string) (env : page_env) :
  new_page_ok env = true -> goto_ok env = true ->
  protocol_run (page_step env) Unopened (trace_of (screenshot html png env)) = Some Released.
Proof.
  unfold screenshot, capture, locate_clip, browser_call.
  env_cases env; try discriminate; reflexivity.
Qed.

(** ** Concrete jobs *)

Lemma page_closed_last_witness :
  new_page_ok (mk_page_env true true (Some (Some (mk_rect 0%Q 20%Q 46%Q 600%Q))) (Some (Some (mk_rect 0%Q 20%Q 1046%Q 600%Q))) true true true) = true /\ goto_ok (mk_page_env true true (Some (Some (mk_rect 0%Q 20%Q 46%Q 600%Q))) (Some (Some (mk_rect 0%Q 20%Q 1046%Q 600%Q))) true true true) = true /\
  settle_of (screenshot "s.html" "s.jpg" (mk_page_env true true (Some (Some (mk_rect 0%Q 20%Q 46%Q 600%Q))) (Some (Some (mk_rect 0%Q 20%Q 1046%Q 600%Q))) true true true)) = Fulfilled.
Proof.
  split; [reflexivity|]. split; [reflexivity|].
  apply (page_closed_last "s.html" "s.jpg" (mk_page_env true true (Some (Some (mk_rect 0%Q 20%Q 46%Q 600%Q))) (Some (Some (mk_rect 0%Q 20%Q 1046%Q 600%Q))) true true true) eq_refl eq_refl). reflexivity.
Defined.

Lemma screenshot_success_witness :
  layout (mk_page_env true true (Some (Some (mk_rect 0%Q 20%Q 46%Q 600%Q))) (Some (Some (mk_rect 0%Q 20%Q 1046%Q 600%Q))) true true true) = Some (clip_area 46%Q (mk_rect 0%Q 20%Q 1046%Q 600%Q)) /\
  screenshot "s.html" "s.jpg" (mk_page_env true true (Some (Some (mk_rect 0%Q 20%Q 46%Q 600%Q))) (Some (Some (mk_rect 0%Q 20%Q 1046%Q 600%Q))) true true true) =
    ([NewPage baseline 2; Goto ("file://" ++ "s.html")%string 0;
      Query row_header_sel; BoundingBox row_header_sel;
      Query tbody_sel; BoundingBox tbody_sel;
      SetViewport (viewport_for (clip_area 46%Q (mk_rect 0%Q 20%Q 1046%Q 600%Q)));
      Screenshot "s.jpg" (clip_area 46%Q (mk_rect 0%Q 20%Q 1046%Q 600%Q)); ClosePage], Done tt).
Proof.
  split; [reflexivity|].
  apply screenshot_success; reflexivity.
Defined.

Lemma layout_error_contained_witness :
  layout (mk_page_env true true None (Some (Some (mk_rect 0%Q 20%Q 1046%Q 600%Q))) true true true) = None /\
  In (ConsoleError TypeError) (trace_of (screenshot "s.html" "s.jpg" (mk_page_env true true None (Some (Some (mk_rect 0%Q 20%Q 1046%Q 600%Q))) true true true))).
Proof.
  split; [reflexivity|].
  apply (layout_error_contained "s.html" "s.jpg" (mk_page_env true true None (Some (Some (mk_rect 0%Q 20%Q 1046%Q 600%Q))) true true true)); reflexivity.
Defined.

Lemma goto_failure_leaks_page_witness :
  goto_ok (mk_page_env true false None None true true true) = false /\
  screenshot "s.html" "s.jpg" (mk_page_env true false None None true true true) =
    ([NewPage baseline 2; Goto ("file://" ++ "s.html")%string 0], Thrown NavigationError).
Proof.
  split; [reflexivity|]. apply goto_failure_leaks_page; reflexivity.
Defined.

End RenderJob.
