(* ===== verification/Scheduler.v ===== *)
(** * Scheduler: the render loop of [src/index.js], lines 89-104

    After launching the browser, the main async function runs
    {v
      const promises = [];
      for (const sheetName of sheetNames) {
        const promise = screenshot(...).then(() =>
          promises.splice(promises.indexOf(promise), 1));
        promises.push(promise);
        if (promises.length >= config.get('gsheets2img.concurrency'))
          await Promise.race(promises);
      }
      await Promise.all(promises);
      await browser.close();
      await rm(extractedDir, ...);
    v}
    The model is a small-step relation [step] on [state]: the loop index
    [next], the array [promises] (the job index of each promise and whether
    it is still pending or has rejected: a fulfilled promise has been spliced
    out by its own [.then]), the jobs whose [.then] ran ([completed]), and
    the control point [pc] of the main function.  Jobs settle only while the
    main function is suspended in [await Promise.race] or
    [await Promise.all]; [Promise.race] settles as the first promise of the
    array that settles (a promise that had already rejected wins at once),
    [Promise.all] rejects as soon as one promise has rejected.  How each job
    settles is the section variable [outcome], which [RenderJob.settle_iff]
    determines from the browser's answers.

    The theorems are invariants of the reachable states (the array never
    holds more than [max 1 concurrency] promises; every started job is in
    the array or completed, exactly once), the termination of every run
    (a measure decreases at each step), the absence of deadlock, the
    completion of every run when all jobs fulfil, and the crash of the run
    when a job rejects. *)

From Stdlib Require Import String List ZArith Lia Permutation Wellfounded Wf_nat.
From S2P Require Import Prelude RenderJob.
Import ListNotations.
Import RenderJob.

Module Scheduler.

(** The status of a promise still in the array. *)
Inductive pstatus : Type := Pending | Failed.

(** Where the main async function is. *)
Inductive point : Type :=
| AtLoop                                 (* running the [for] loop *)
| AtRace (first : option settlement)     (* in [await Promise.race(promises)] *)
| AtAll                                  (* in [await Promise.all(promises)] *)
| Closed                                 (* [Promise.all] resolved: on to [browser.close()] *)
| Crashed.                               (* an [await] threw: the function rejected *)

Definition point_eq_dec (p q : point) : {p = q} + {p <> q}.
Proof. decide equality. decide equality. decide equality. Defined.

Record state : Type := mk_state {
  next : nat;                       (* index of the next sheet of the loop *)
  promises : list (nat * pstatus);  (* the array [promises] *)
  completed : list nat;             (* jobs whose [.then] callback ran *)
  pc : point }.

Definition init : state := mk_state 0 [] [] AtLoop.

(** ** [Array.prototype.indexOf] and [splice] *)

(** [promises.indexOf(promise)]: the first position of the job's promise,
    or [-1]. *)
Fixpoint index_of (l : list (nat * pstatus)) (j : nat) : Z :=
  match l with
  | [] => -1
  | (k, _) :: l' =>
      if Nat.eqb k j then 0
      else let i := index_of l' j in if (i <? 0)%Z then (-1)%Z else (i + 1)%Z
  end.

(** [arr.splice(start, 1)]: a negative start counts from the end. *)
Definition splice_one {A : Type} (l : list A) (start : Z) : list A :=
  let len := Z.of_nat (length l) in
  let k := if (start <? 0)%Z then Z.max (len + start) 0 else Z.min start len in
  firstn (Z.to_nat k) l ++ skipn (S (Z.to_nat k)) l.

(** The rejection of job [j]'s promise. *)
Definition mark_failed (l : list (nat * pstatus)) (j : nat) : list (nat * pstatus) :=
  map (fun e => if Nat.eqb (fst e) j then (fst e, Failed) else e) l.

Definition has_failed (l : list (nat * pstatus)) : bool :=
  existsb (fun e => match snd e with Failed => true | Pending => false end) l.

(** [Promise.race] over the array: a promise that already rejected settles
    the race at once. *)
Definition race_start (l : list (nat * pstatus)) : option settlement :=
  if has_failed l then Some Rejected else None.

(** The first settlement is the one the race sees. *)
Definition note_settle (p : point) (s : settlement) : point :=
  match p with AtRace None => AtRace (Some s) | _ => p end.

Definition suspended (p : point) : Prop :=
  match p with AtRace _ | AtAll => True | _ => False end.

Definition set_pc (st : state) (p : point) : state :=
  mk_state (next st) (promises st) (completed st) p.

(** ** Lemmas on the array operations *)

(** [indexOf] finds the first promise of the job. *)
Lemma index_of_first (l : list (nat * pstatus)) j :
  In j (map fst l) ->
  exists l1 s l2, l = l1 ++ (j, s) :: l2 /\ ~ In j (map fst l1) /\
                  index_of l j = Z.of_nat (length l1).
Proof.
  induction l as [|[k s] l IH]; simpl; [tauto|]. intros Hin.
  destruct (Nat.eqb_spec k j) as [->|Hne].
  - exists [], s, l. simpl. auto.
  - destruct Hin as [Hk|Hin]; [congruence|].
    destruct (IH Hin) as (l1 & s' & l2 & -> & Hn & Hi).
    exists ((k, s) :: l1), s', l2. simpl. rewrite Hi.
    destruct (Z.ltb_spec (Z.of_nat (length l1)) 0); [lia|].
    repeat split; [intuition|lia].
Qed.

(** [splice(i, 1)] at a valid index removes the element there. *)
Lemma splice_one_at {A : Type} (l1 l2 : list A) x :
  splice_one (l1 ++ x :: l2) (Z.of_nat (length l1)) = l1 ++ l2.
Proof.
  unfold splice_one. rewrite length_app. simpl length.
  destruct (Z.ltb_spec (Z.of_nat (length l1)) 0); [lia|].
  rewrite Z.min_l by lia. rewrite Nat2Z.id. clear.
  induction l1 as [|y l1 IH]; [reflexivity|].
  change (y :: firstn (length l1) (l1 ++ x :: l2) ++ skipn (S (length l1)) (l1 ++ x :: l2)
          = y :: l1 ++ l2).
  rewrite IH. reflexivity.
Qed.

(** With distinct job indices, the fulfilled job's [.then] removes exactly
    that job's promise. *)
Lemma splice_own (l : list (nat * pstatus)) j :
  NoDup (map fst l) -> In (j, Pending) l ->
  exists l1 l2, l = l1 ++ (j, Pending) :: l2 /\
                splice_one l (index_of l j) = l1 ++ l2.
Proof.
  intros Hnd Hin.
  assert (Hj : In j (map fst l)) by (apply (in_map fst) in Hin; exact Hin).
  destruct (index_of_first l j Hj) as (l1 & s & l2 & -> & Hn & ->).
  rewrite splice_one_at. exists l1, l2. split; [|reflexivity].
  rewrite map_app in Hnd. simpl in Hnd. apply NoDup_remove_2 in Hnd.
  apply in_app_or in Hin as [H|[H|H]].
  - apply (in_map fst) in H. contradiction.
  - inversion H; subst. reflexivity.
  - exfalso. apply Hnd. apply in_or_app. right. apply (in_map fst) in H. exact H.
Qed.

(** The reference removal: the first entry of job [j] leaves the array;
    without one the array is unchanged. *)
Fixpoint remove_first (l : list (nat * pstatus)) (j : nat) : list (nat * pstatus) :=
  match l with
  | [] => []
  | (k, s) :: l' => if Nat.eqb k j then l' else (k, s) :: remove_first l' j
  end.

Lemma index_of_absent l j : ~ In j (map fst l) -> index_of l j = (-1)%Z.
Proof.
  induction l as [|[k s] l IH]; simpl; intros H; [reflexivity|].
  destruct (Nat.eqb_spec k j); [tauto|]. rewrite IH by tauto. reflexivity.
Qed.

Lemma remove_first_app l1 x l2 j :
  ~ In j (map fst l1) -> fst x = j -> remove_first (l1 ++ x :: l2) j = l1 ++ l2.
Proof.
  intros H1 Hx. induction l1 as [|[k s] l1 IH]; simpl in *.
  - destruct x as [k s]. simpl in Hx. subst. rewrite Nat.eqb_refl. reflexivity.
  - destruct (Nat.eqb_spec k j); [tauto|]. rewrite IH by tauto. reflexivity.
Qed.

(** [splice(-1, 1)] removes the last element. *)
Lemma splice_one_minus_one {A : Type} (l : list A) : splice_one l (-1) = removelast l.
Proof.
  unfold splice_one. rewrite (proj2 (Z.ltb_lt (-1) 0)) by lia.
  rewrite removelast_firstn_len. destruct l as [|x l]; [reflexivity|].
  set (n := length (x :: l)).
  replace (Z.to_nat (Z.max (Z.of_nat n + -1) 0)) with (Nat.pred n)
    by (unfold n; simpl length; lia).
  rewrite skipn_all2 by (unfold n; simpl; lia). apply app_nil_r.
Qed.

Lemma existsb_id_In (l : list (nat * pstatus)) j :
  existsb (fun e => Nat.eqb (fst e) j) l = true <-> In j (map fst l).
Proof.
  rewrite existsb_exists, in_map_iff. split.
  - intros [x [Hx E]]. apply Nat.eqb_eq in E. eauto.
  - intros [x [E Hx]]. exists x. split; [exact Hx | apply Nat.eqb_eq, E].
Qed.

(** Equivalence of the removal that the [.then] callback performs,
    [promises.splice(promises.indexOf(promise), 1)], with the reference
    removal [remove_first]: when the promise is in the array exactly its
    first occurrence goes; when it is not, [indexOf] answers [-1] and
    [splice(-1, 1)] removes the last promise of the array instead. *)
Theorem splice_indexof_equiv (l : list (nat * pstatus)) j :
  splice_one l (index_of l j) =
  if existsb (fun e => Nat.eqb (fst e) j) l then remove_first l j else removelast l.
Proof.
  destruct (existsb _ l) eqn:E.
  - apply existsb_id_In in E.
    destruct (index_of_first l j E) as (l1 & s & l2 & -> & Hn & ->).
    rewrite splice_one_at, remove_first_app by (assumption || reflexivity). reflexivity.
  - rewrite index_of_absent; [apply splice_one_minus_one|].
    intros H. apply existsb_id_In in H. congruence.
Qed.

Lemma map_fst_mark_failed l j : map fst (mark_failed l j) = map fst l.
Proof.
  induction l as [|[k s] l IH]; simpl; [reflexivity|].
  destruct (Nat.eqb k j); simpl; f_equal; exact IH.
Qed.

Lemma length_mark_failed l j : length (mark_failed l j) = length l.
Proof. unfold mark_failed. apply length_map. Qed.

Lemma In_mark_failed l j k s :
  In (k, s) (mark_failed l j) ->
  (k = j /\ s = Failed) \/ (k <> j /\ In (k, s) l).
Proof.
  unfold mark_failed. rewrite in_map_iff. intros [[k' s'] [E Hin]]. simpl in E.
  destruct (Nat.eqb_spec k' j); inversion E; subst; auto.
Qed.

Lemma mark_failed_In l j : In (j, Pending) l -> In (j, Failed) (mark_failed l j).
Proof.
  intros H. unfold mark_failed. apply (in_map (fun e => if Nat.eqb (fst e) j then (fst e, Failed) else e)) in H.
  simpl in H. rewrite Nat.eqb_refl in H. exact H.
Qed.

Lemma has_failed_iff l : has_failed l = true <-> exists j, In (j, Failed) l.
Proof.
  unfold has_failed. rewrite existsb_exists. split.
  - intros [[j [|]] [Hin H]]; simpl in H; [discriminate|eauto].
  - intros [j Hj]. exists (j, Failed). auto.
Qed.

(** A non-empty array without a rejected promise has a pending one. *)
Lemma pending_member l :
  l <> [] -> has_failed l = false -> exists j, In (j, Pending) l.
Proof.
  destruct l as [|[j [|]] l]; simpl; intros H1 H2; try congruence; eauto.
Qed.

Lemma Permutation_cons_append_inv_helper {A : Type} (l m : list A) x :
  Permutation l m -> Permutation (x :: l) (m ++ [x]).
Proof. intros H. rewrite <- Permutation_cons_append. constructor. exact H. Qed.

(** ** The measure of a state *)

Definition pending_count (l : list (nat * pstatus)) : nat :=
  length (filter (fun e => match snd e with Pending => true | Failed => false end) l).

Definition pc_weight (p : point) : nat :=
  match p with AtLoop => 2 | AtRace _ => 3 | AtAll => 1 | Closed | Crashed => 0 end.

Lemma pending_count_app l1 l2 :
  pending_count (l1 ++ l2) = pending_count l1 + pending_count l2.
Proof. unfold pending_count. rewrite filter_app, length_app. reflexivity. Qed.

Lemma pending_count_cons_ge e l : pending_count l <= pending_count (e :: l).
Proof. unfold pending_count. simpl. destruct (snd e); simpl; lia. Qed.

Lemma pending_count_le l : pending_count l <= length l.
Proof. unfold pending_count. apply filter_length_le. Qed.

Lemma pending_count_mark_failed l j :
  In (j, Pending) l -> pending_count (mark_failed l j) < pending_count l.
Proof.
  induction l as [|[k s] l IH]; simpl; [tauto|]. intros [E|Hin].
  - inversion E; subst. rewrite Nat.eqb_refl. unfold pending_count in *. simpl.
    fold (mark_failed l j).
    assert (forall l', length (filter (fun e => match snd e with Pending => true | Failed => false end) (mark_failed l' j))
                       <= length (filter (fun e => match snd e with Pending => true | Failed => false end) l')).
    { induction l' as [|[k' s'] l' IH']; simpl; [lia|].
      destruct (Nat.eqb k' j), s'; simpl; lia. }
    specialize (H l). lia.
  - specialize (IH Hin). unfold pending_count in *. simpl.
    destruct (Nat.eqb k j), s; simpl; fold (mark_failed l j); lia.
Qed.

Lemma note_settle_weight p s : suspended p -> pc_weight (note_settle p s) = pc_weight p.
Proof. destruct p as [|[]| | |]; simpl; tauto. Qed.

Section Loop.

(** The selected sheets, the configured concurrency, and how the
    promise of job [i] (for [sheets[i]]) settles. *)
Context (sheets : list string) (concurrency : Z) (outcome : nat -> settlement).

(** The loop body: start job [next], push its promise, test the length. *)
Definition push_job (st : state) : state :=
  let ps := promises st ++ [(next st, Pending)] in
  mk_state (S (next st)) ps (completed st)
    (if (concurrency <=? Z.of_nat (length ps))%Z then AtRace (race_start ps) else AtLoop).

(** Job [j] fulfils: its [.then] callback splices it out. *)
Definition fulfil_job (st : state) (j : nat) : state :=
  mk_state (next st) (splice_one (promises st) (index_of (promises st) j))
    (completed st ++ [j]) (note_settle (pc st) Fulfilled).

(** Job [j] rejects: its promise stays in the array. *)
Definition reject_job (st : state) (j : nat) : state :=
  mk_state (next st) (mark_failed (promises st) j) (completed st)
    (note_settle (pc st) Rejected).

Inductive step : state -> state -> Prop :=
| step_push st :
    pc st = AtLoop -> next st < length sheets ->
    step st (push_job st)
| step_fulfil st j :
    suspended (pc st) -> In (j, Pending) (promises st) -> outcome j = Fulfilled ->
    step st (fulfil_job st j)
| step_reject st j :
    suspended (pc st) -> In (j, Pending) (promises st) -> outcome j = Rejected ->
    step st (reject_job st j)
| step_race_resume st :
    pc st = AtRace (Some Fulfilled) -> step st (set_pc st AtLoop)
| step_race_throw st :
    pc st = AtRace (Some Rejected) -> step st (set_pc st Crashed)
| step_loop_exit st :
    pc st = AtLoop -> length sheets <= next st -> step st (set_pc st AtAll)
| step_all_resolve st :
    pc st = AtAll -> promises st = [] -> step st (set_pc st Closed)
| step_all_reject st :
    pc st = AtAll -> has_failed (promises st) = true -> step st (set_pc st Crashed).

Inductive reachable : state -> Prop :=
| reach_init : reachable init
| reach_step st st' : reachable st -> step st st' -> reachable st'.

(** The measure: sheets still to start, promises in the array, pending
    promises, and the control point. *)
Definition measure (st : state) : nat :=
  6 * (length sheets - next st) + 2 * length (promises st)
  + pending_count (promises st) + pc_weight (pc st).

Lemma step_measure st st' : step st st' -> measure st' < measure st.
Proof.
  unfold measure. intros Hs. destruct Hs as
    [st Hpc Hn | st j Hsus Hin Ho | st j Hsus Hin Ho | st Hpc | st Hpc | st Hpc Hn
    | st Hpc Hp | st Hpc Hf]; simpl; try rewrite Hpc; simpl.
  - rewrite length_app, pending_count_app. simpl.
    destruct (concurrency <=? _)%Z; simpl; unfold pending_count at 2; simpl; lia.
  - rewrite note_settle_weight by exact Hsus.
    pose proof (in_split _ _ Hin) as (l1 & l2 & E).
    assert (Hj : In j (map fst (promises st))) by (apply (in_map fst) in Hin; exact Hin).
    destruct (index_of_first _ _ Hj) as (m1 & s & m2 & E' & _ & ->).
    rewrite E', splice_one_at, !length_app, !pending_count_app. simpl.
    pose proof (pending_count_cons_ge (j, s) m2). lia.
  - rewrite note_settle_weight by exact Hsus.
    rewrite length_mark_failed. pose proof (pending_count_mark_failed _ _ Hin). lia.
  - lia.
  - lia.
  - lia.
  - lia.
  - lia.
Qed.

(** ** The invariant of the reachable states *)

(** The effective cap: a concurrency below 1 behaves as 1. *)
Definition cap : Z := Z.max 1 concurrency.

Definition pc_ok (st : state) : Prop :=
  let n := Z.of_nat (length (promises st)) in
  match pc st with
  | AtLoop | AtRace (Some Fulfilled) => (n < cap)%Z
  | AtAll => (n < cap)%Z /\ next st = length sheets
  | AtRace None => promises st <> [] /\ has_failed (promises st) = false
  | AtRace (Some Rejected) | Crashed => has_failed (promises st) = true
  | Closed => promises st = [] /\ next st = length sheets
  end.

Record inv (st : state) : Prop := {
  inv_ids : Permutation (map fst (promises st) ++ completed st) (seq 0 (next st));
  inv_next : next st <= length sheets;
  inv_cap : (Z.of_nat (length (promises st)) <= cap)%Z;
  inv_failed : forall j, In (j, Failed) (promises st) -> outcome j = Rejected;
  inv_pc : pc_ok st }.

Lemma inv_nodup st : inv st -> NoDup (map fst (promises st)).
Proof.
  intros I. apply (NoDup_app_remove_r _ (completed st)).
  apply (Permutation_NoDup (Permutation_sym (inv_ids st I))). apply seq_NoDup.
Qed.

Lemma inv_init : inv init.
Proof.
  constructor; simpl.
  - constructor.
  - lia.
  - unfold cap. lia.
  - intros j [].
  - unfold pc_ok, cap. simpl. lia.
Qed.

Lemma inv_push st : inv st -> pc st = AtLoop -> next st < length sheets ->
  inv (push_job st).
Proof.
  intros I Hpc Hn. pose proof (inv_pc st I) as Hok. unfold pc_ok in Hok. rewrite Hpc in Hok.
  unfold push_job. constructor; cbn [promises completed next pc].
  - rewrite map_app, seq_S, <- app_assoc. simpl.
    rewrite <- Permutation_middle.
    apply Permutation_cons_append_inv_helper. exact (inv_ids st I).
  - lia.
  - rewrite length_app. simpl. lia.
  - intros j Hj. apply in_app_or in Hj as [Hj|[Hj|[]]]; [|discriminate].
    exact (inv_failed st I j Hj).
  - unfold pc_ok. simpl. rewrite length_app. simpl.
    destruct (Z.leb_spec concurrency (Z.of_nat (length (promises st) + 1))).
    + unfold race_start. destruct (has_failed _) eqn:Hf; [reflexivity|].
      split; [|reflexivity]. destruct (promises st); discriminate.
    + unfold cap in *. lia.
Qed.

Lemma has_failed_remove l1 l2 j :
  has_failed (l1 ++ (j, Pending) :: l2) = has_failed (l1 ++ l2).
Proof. unfold has_failed. rewrite !existsb_app. reflexivity. Qed.

Lemma inv_fulfil st j : inv st -> suspended (pc st) -> In (j, Pending) (promises st) ->
  inv (fulfil_job st j).
Proof.
  intros I Hsus Hin.
  destruct (splice_own _ _ (inv_nodup st I) Hin) as (l1 & l2 & E & Hs).
  pose proof (inv_pc st I) as Hok. pose proof (inv_cap st I) as Hcap.
  pose proof (inv_ids st I) as Hids. pose proof (inv_failed st I) as Hfl.
  unfold pc_ok in Hok. unfold fulfil_job. rewrite Hs.
  rewrite E in Hok, Hcap, Hids, Hfl. rewrite length_app in Hcap. simpl in Hcap.
  constructor; cbn [promises completed next pc].
  - rewrite map_app in *. simpl in Hids. rewrite <- Hids, app_assoc.
    rewrite <- Permutation_cons_append, <- !app_assoc.
    apply Permutation_middle.
  - exact (inv_next st I).
  - rewrite length_app. lia.
  - intros k Hk. apply Hfl. apply in_app_or in Hk as [Hk|Hk]; auto using in_or_app, in_cons.
  - unfold pc_ok. cbn [promises next pc]. rewrite length_app.
    rewrite has_failed_remove in Hok. rewrite length_app in Hok. simpl in Hok.
    destruct (pc st) as [|[[]|]| | |]; simpl in *; try tauto; lia.
Qed.

Lemma inv_reject st j : inv st -> suspended (pc st) -> In (j, Pending) (promises st) ->
  outcome j = Rejected -> inv (reject_job st j).
Proof.
  intros I Hsus Hin Ho.
  pose proof (inv_pc st I) as Hok. unfold pc_ok in Hok.
  assert (Hf : has_failed (mark_failed (promises st) j) = true)
    by (apply has_failed_iff; exists j; apply mark_failed_In; exact Hin).
  unfold reject_job. constructor; cbn [promises completed next pc].
  - rewrite map_fst_mark_failed. exact (inv_ids st I).
  - exact (inv_next st I).
  - rewrite length_mark_failed. exact (inv_cap st I).
  - intros k Hk. apply In_mark_failed in Hk as [[-> _]|[_ Hk]]; [exact Ho|].
    exact (inv_failed st I k Hk).
  - unfold pc_ok. cbn [promises next pc]. rewrite length_mark_failed, Hf.
    destruct (pc st) as [|[[]|]| | |]; simpl in *; tauto.
Qed.

Lemma inv_step st st' : inv st -> step st st' -> inv st'.
Proof.
  intros I Hs. destruct Hs as
    [st Hpc Hn | st j Hsus Hin Ho | st j Hsus Hin Ho | st Hpc | st Hpc | st Hpc Hn
    | st Hpc Hp | st Hpc Hf].
  1: apply inv_push; assumption.
  1: apply inv_fulfil; assumption.
  1: apply inv_reject; assumption.
  all: destruct I as [I1 I2 I3 I4 I5]; unfold pc_ok in I5; rewrite Hpc in I5;
    constructor; unfold pc_ok; simpl; auto; try tauto; split; auto; lia.
Qed.

Lemma inv_reachable st : reachable st -> inv st.
Proof.
  induction 1; [apply inv_init | eapply inv_step; eassumption].
Qed.

(** A pending job can settle whenever the main function is suspended. *)
Lemma settle_enabled st j :
  suspended (pc st) -> In (j, Pending) (promises st) -> exists st', step st st'.
Proof.
  intros Hs Hin. destruct (outcome j) eqn:Ho.
  - eexists. apply step_fulfil; eassumption.
  - eexists. apply step_reject; eassumption.
Qed.

Lemma can_step st :
  reachable st -> pc st <> Closed -> pc st <> Crashed -> exists st', step st st'.
Proof.
  intros R Hc Hx. destruct (inv_reachable st R) as [_ Hn _ _ Hok].
  unfold pc_ok in Hok. destruct (pc st) as [|[[]|]| | |] eqn:Hpc; try congruence.
  - destruct (Nat.lt_ge_cases (next st) (length sheets)).
    + eexists. apply step_push; assumption.
    + eexists. apply step_loop_exit; [assumption | lia].
  - eexists. apply step_race_resume. exact Hpc.
  - eexists. apply step_race_throw. exact Hpc.
  - destruct Hok as [Hne Hf]. destruct (pending_member _ Hne Hf) as [j Hj].
    apply (settle_enabled st j); [rewrite Hpc; exact I | exact Hj].
  - destruct (promises st) as [|e l] eqn:Hp.
    + eexists. apply step_all_resolve; assumption.
    + destruct (has_failed (e :: l)) eqn:Hf.
      * eexists. apply step_all_reject; [assumption | rewrite Hp; exact Hf].
      * destruct (pending_member (e :: l) ltac:(discriminate) Hf) as [j Hj].
        apply (settle_enabled st j); [rewrite Hpc; exact I | rewrite Hp; exact Hj].
Qed.

Lemma failed_job st :
  reachable st -> has_failed (promises st) = true ->
  exists j, j < next st /\ outcome j = Rejected /\ ~ In j (completed st).
Proof.
  intros R Hf. pose proof (inv_reachable st R) as I.
  apply has_failed_iff in Hf as [j Hj]. exists j.
  pose proof (inv_ids st I) as Hids.
  assert (Hm : In j (map fst (promises st))) by (apply (in_map fst) in Hj; exact Hj).
  repeat split.
  - assert (Hs : In j (seq 0 (next st)))
      by (apply (Permutation_in _ Hids), in_or_app; left; exact Hm).
    apply in_seq in Hs. lia.
  - exact (inv_failed st I j Hj).
  - intros Hc. pose proof (Permutation_NoDup (Permutation_sym Hids) (seq_NoDup _ _)) as Hnd.
    apply (NoDup_app_remove_l _ _) in Hnd as Hnd'.
    revert Hm Hc. clear -Hnd. induction (map fst (promises st)) as [|k l IH]; simpl.
    + tauto.
    + intros [->|Hm] Hc; inversion Hnd; subst.
      * apply H1. apply in_or_app. right. exact Hc.
      * exact (IH H2 Hm Hc).
Qed.

(** The final control points have no step. *)
Lemma final_no_step st st' :
  pc st = Closed \/ pc st = Crashed -> ~ step st st'.
Proof.
  intros Hpc Hs. destruct Hs; unfold suspended in *; destruct Hpc as [E|E];
    rewrite E in *; discriminate || contradiction.
Qed.

(** ** Properties *)

(** C1: Bounded concurrency.  In every reachable state the array
    [promises] holds at most [max 1 concurrency] promises: at most
    [concurrency] jobs are in flight when it is positive, one at a time
    when it is 0 or negative. *)
Theorem concurrency_bound st :
  reachable st -> (Z.of_nat (length (promises st)) <= Z.max 1 concurrency)%Z.
Proof. intros R. exact (inv_cap st (inv_reachable st R)). Qed.

(** C25: Every job started so far (jobs [0 .. next-1], started in the order
    of the sheet list) is, exactly once, either still in the array or
    completed (its [.then] ran). *)
Theorem jobs_accounted st :
  reachable st ->
  Permutation (map fst (promises st) ++ completed st) (seq 0 (next st)).
Proof. intros R. exact (inv_ids st (inv_reachable st R)). Qed.

(** C4: Termination.  Every run of the loop is finite, whatever the order
    in which the jobs settle: the step relation is well founded. *)
Theorem run_terminates : well_founded (fun st' st => step st st').
Proof.
  apply (wf_incl _ _ (ltof state measure)); [|apply well_founded_ltof].
  intros st' st Hs. apply step_measure. exact Hs.
Qed.

(** C5: No deadlock.  A reachable state where the browser is not closed
    and the function has not thrown always has a next step. *)
Theorem no_deadlock st :
  reachable st -> pc st <> Closed -> pc st <> Crashed -> exists st', step st st'.
Proof. apply can_step. Qed.

Lemma fulfilled_run_stops_closed st :
  (forall j, j < length sheets -> outcome j = Fulfilled) ->
  reachable st -> (forall st', ~ step st st') ->
  pc st = Closed /\ Permutation (completed st) (seq 0 (length sheets)).
Proof.
  intros Hall R Hstop.
  assert (Hnf : has_failed (promises st) = false).
  { destruct (has_failed (promises st)) eqn:Hf; [|reflexivity].
    destruct (failed_job st R Hf) as [j [Hlt [Hj _]]].
    pose proof (inv_next st (inv_reachable st R)).
    rewrite Hall in Hj by lia. discriminate. }
  destruct (inv_reachable st R) as [Hids _ _ _ Hok].
  destruct (pc st) eqn:Hpc;
    try (exfalso; destruct (can_step st R) as [st' Hs];
         [congruence | congruence | exact (Hstop st' Hs)]).
  - unfold pc_ok in Hok. rewrite Hpc in Hok. destruct Hok as [Hp Hn].
    rewrite Hp, <- Hn in *. split; [reflexivity | exact Hids].
  - unfold pc_ok in Hok. rewrite Hpc, Hnf in Hok. discriminate.
Qed.

(** Only jobs whose promise fulfilled are completed. *)
Lemma completed_fulfilled st j :
  reachable st -> In j (completed st) -> outcome j = Fulfilled.
Proof.
  intros R. revert j. induction R as [|st st' R IH Hs]; intros k Hk; [contradiction|].
  destruct Hs; simpl in Hk; auto.
  apply in_app_or in Hk as [Hk | [<- | []]]; auto.
Qed.

(** Once the job of a selected sheet rejects, every run that stops has
    crashed. *)
Lemma rejected_run_stops_crashed st j :
  j < length sheets -> outcome j = Rejected ->
  reachable st -> (forall st', ~ step st st') -> pc st = Crashed.
Proof.
  intros Hj Hrej R Hstop.
  destruct (inv_reachable st R) as [Hids _ _ _ Hok].
  destruct (pc st) eqn:Hpc; try reflexivity;
    try (exfalso; destruct (can_step st R) as [st' Hs];
         [congruence | congruence | exact (Hstop st' Hs)]).
  exfalso. unfold pc_ok in Hok. rewrite Hpc in Hok. destruct Hok as [Hp Hn].
  rewrite Hp, Hn in Hids. simpl in Hids.
  assert (Hin : In j (completed st))
    by (apply (Permutation_in _ (Permutation_sym Hids)), in_seq; lia).
  rewrite (completed_fulfilled st j R Hin) in Hrej. discriminate.
Qed.

(** C3: When the job of every selected sheet fulfils, every run that stops
    has resolved [Promise.all], ready to close the browser, after
    completing every selected sheet exactly once. *)
Theorem all_fulfil_completes st :
  (forall j, j < length sheets -> outcome j = Fulfilled) ->
  reachable st -> (forall st', ~ step st st') ->
  pc st = Closed /\ Permutation (completed st) (seq 0 (length sheets)).
Proof. apply fulfilled_run_stops_closed. Qed.

(** C26: The run crashes only because of a job that rejected: in a crashed
    state some started job rejected and never completed. *)
Theorem crash_needs_rejection st :
  reachable st -> pc st = Crashed ->
  exists j, j < next st /\ outcome j = Rejected /\ ~ In j (completed st).
Proof.
  intros R Hpc. apply failed_job; [exact R|].
  pose proof (inv_pc st (inv_reachable st R)) as Hok. unfold pc_ok in Hok.
  rewrite Hpc in Hok. exact Hok.
Qed.

(** C27: The [.then] callback of a pending job always finds its own promise:
    [promises.indexOf(promise)] is never [-1] there, and the [splice]
    removes exactly that promise. *)
Theorem splice_removes_own st j :
  reachable st -> In (j, Pending) (promises st) ->
  exists l1 l2, promises st = l1 ++ (j, Pending) :: l2 /\
                promises (fulfil_job st j) = l1 ++ l2.
Proof.
  intros R Hin. apply splice_own; [exact (inv_nodup st (inv_reachable st R)) | exact Hin].
Qed.

(** C24: The loop awaits [Promise.race] exactly when the array is full.
    Pushing the promise of a new job in a reachable state suspends the
    loop iff the array then holds [max(1, concurrency)] promises; with
    fewer, the loop goes on to start the next sheet at once, so the pool
    never waits with a free slot. *)
Theorem push_awaits_iff_full st :
  reachable st -> pc st = AtLoop ->
  (exists f, pc (push_job st) = AtRace f) <-> Z.of_nat (length (promises (push_job st))) = cap.
Proof.
  intros R Hpc. pose proof (inv_pc st (inv_reachable st R)) as Hok.
  unfold pc_ok in Hok. rewrite Hpc in Hok. unfold push_job, cap in *. cbn [pc promises].
  rewrite length_app, Nat2Z.inj_add in *. cbn [length Z.of_nat Pos.of_succ_nat] in *.
  destruct (Z.leb_spec concurrency (Z.of_nat (length (promises st)) + 1)); split.
  - intros _. lia.
  - intros _. eauto.
  - intros [f E]. discriminate.
  - lia.
Qed.

Section FirstRejects.
(** With one promise at a time, a first job that rejects ends the run. *)
Hypothesis Hcap1 : (concurrency <= 1)%Z.
Hypothesis Hrej0 : outcome 0 = Rejected.
Hypothesis Hlen2 : 2 <= length sheets.

Definition s_started : state := mk_state 1 [(0, Pending)] [] (AtRace None).
Definition s_rejected : state := mk_state 1 [(0, Failed)] [] (AtRace (Some Rejected)).
Definition s_crashed : state := mk_state 1 [(0, Failed)] [] Crashed.

Lemma push_init : push_job init = s_started.
Proof.
  unfold push_job. simpl. apply Z.leb_le in Hcap1. rewrite Hcap1. reflexivity.
Qed.

Lemma reachable_first_rejects st :
  reachable st -> st = init \/ st = s_started \/ st = s_rejected \/ st = s_crashed.
Proof.
  induction 1 as [|s1 s2 Hr IH Hs]; [left; reflexivity|].
  destruct IH as [-> | [-> | [-> | ->]]]; inversion Hs; subst;
    try rewrite push_init; simpl in *; try discriminate; try contradiction;
    repeat match goal with
           | H : _ = _ \/ False |- _ => destruct H as [H|[]]; inversion H; subst
           end;
    try congruence; try lia; auto 6.
Qed.
End FirstRejects.

(** C6: One rejecting job aborts the whole run.  With a concurrency of 1
    (or less), when the first sheet's job rejects (its [goto] fails), every
    run stops with the main function crashed after starting that one job:
    no other sheet is rendered, and the browser is never closed. *)
Theorem one_rejection_aborts st :
  (concurrency <= 1)%Z -> outcome 0 = Rejected -> 2 <= length sheets ->
  reachable st -> (forall st', ~ step st st') ->
  pc st = Crashed /\ next st = 1 /\ completed st = [].
Proof.
  intros Hc H0 Hl R Hstop.
  destruct (reachable_first_rejects Hc H0 Hl st R) as [-> | [-> | [-> | ->]]].
  - exfalso. apply (Hstop (push_job init)). apply step_push; simpl; [reflexivity | lia].
  - exfalso. apply (Hstop (reject_job s_started 0)).
    apply step_reject; simpl; auto.
  - exfalso. apply (Hstop (set_pc s_rejected Crashed)). apply step_race_throw. reflexivity.
  - auto.
Qed.

End Loop.

(** ** Concrete runs *)

(** One sheet, concurrency 1, its job fulfils: start, fulfil, resume,
    leave the loop, [Promise.all] resolves. *)
Lemma one_sheet_fulfilled (s : string) (outcome : nat -> settlement) :
  outcome 0 = Fulfilled ->
  reachable [s] 1 outcome (fulfil_job (push_job 1 init) 0).
Proof.
  intros Ho. eapply reach_step; [eapply reach_step; [apply reach_init|]|].
  - apply step_push; simpl; [reflexivity | lia].
  - apply step_fulfil; simpl; auto.
Qed.

Lemma one_sheet_closed (s : string) (outcome : nat -> settlement) :
  outcome 0 = Fulfilled ->
  reachable [s] 1 outcome
    (set_pc (set_pc (set_pc (fulfil_job (push_job 1 init) 0) AtLoop) AtAll) Closed).
Proof.
  intros Ho.
  eapply reach_step; [eapply reach_step; [eapply reach_step; [apply one_sheet_fulfilled; exact Ho|]|]|].
  - apply step_race_resume. reflexivity.
  - apply step_loop_exit; [reflexivity | simpl; lia].
  - apply step_all_resolve; reflexivity.
Qed.

Lemma one_sheet_crashed (s : string) (outcome : nat -> settlement) :
  outcome 0 = Rejected ->
  reachable [s] 1 outcome (set_pc (reject_job (push_job 1 init) 0) Crashed).
Proof.
  intros Ho. eapply reach_step; [eapply reach_step; [eapply reach_step; [apply reach_init|]|]|].
  - apply step_push; simpl; [reflexivity | lia].
  - apply step_reject; simpl; auto.
  - apply step_race_throw. reflexivity.
Qed.

Lemma sample_reach_fulfilled :
  reachable ["A"%string] 1 (fun _ => Fulfilled) (fulfil_job (push_job 1 init) 0).
Proof. apply one_sheet_fulfilled. reflexivity. Qed.

Lemma sample_reach_closed :
  reachable ["A"%string] 1 (fun _ => Fulfilled)
    (set_pc (set_pc (set_pc (fulfil_job (push_job 1 init) 0) AtLoop) AtAll) Closed).
Proof. apply one_sheet_closed. reflexivity. Qed.

(** Two sheets, concurrency 1, every job rejects. *)
Lemma sample_reach_crashed :
  reachable ["A"%string; "B"%string] 1 (fun _ => Rejected) s_crashed.
Proof.
  apply (reach_step _ _ _ s_rejected); [apply (reach_step _ _ _ s_started)|].
  - rewrite <- (push_init 1 ltac:(lia)).
    eapply reach_step; [apply reach_init | apply step_push; simpl; [reflexivity | lia]].
  - change s_rejected with (reject_job s_started 0). apply step_reject; simpl; auto.
  - change s_crashed with (set_pc s_rejected Crashed). apply step_race_throw. reflexivity.
Qed.

Lemma concurrency_bound_witness :
  reachable ["A"%string] 1 (fun _ => Fulfilled) (fulfil_job (push_job 1 init) 0) /\
  (Z.of_nat (length (promises (fulfil_job (push_job 1 init) 0))) <= Z.max 1 1)%Z.
Proof.
  split; [apply sample_reach_fulfilled|].
  apply (concurrency_bound ["A"%string] 1 (fun _ => Fulfilled)). apply sample_reach_fulfilled.
Defined.

Lemma jobs_accounted_witness :
  reachable ["A"%string] 1 (fun _ => Fulfilled) (fulfil_job (push_job 1 init) 0) /\
  Permutation (map fst (promises (fulfil_job (push_job 1 init) 0))
               ++ completed (fulfil_job (push_job 1 init) 0)) (seq 0 1).
Proof.
  split; [apply sample_reach_fulfilled|].
  apply (jobs_accounted ["A"%string] 1 (fun _ => Fulfilled)). apply sample_reach_fulfilled.
Defined.

Lemma no_deadlock_witness :
  reachable ["A"%string] 1 (fun _ => Fulfilled) (fulfil_job (push_job 1 init) 0) /\
  exists st', step ["A"%string] 1 (fun _ => Fulfilled)
                (fulfil_job (push_job 1 init) 0) st'.
Proof.
  split; [apply sample_reach_fulfilled|].
  apply (no_deadlock ["A"%string] 1 (fun _ => Fulfilled));
    [apply sample_reach_fulfilled | simpl; discriminate | simpl; discriminate].
Defined.

Lemma all_fulfil_completes_witness :
  let st := set_pc (set_pc (set_pc (fulfil_job (push_job 1 init) 0) AtLoop) AtAll) Closed in
  reachable ["A"%string] 1 (fun _ => Fulfilled) st /\
  (forall st', ~ step ["A"%string] 1 (fun _ => Fulfilled) st st') /\
  pc st = Closed /\ Permutation (completed st) (seq 0 1).
Proof.
  intros st. assert (Hstop : forall st', ~ step ["A"%string] 1 (fun _ => Fulfilled) st st')
    by (intros st'; apply final_no_step; left; reflexivity).
  split; [apply sample_reach_closed|]. split; [exact Hstop|].
  apply (all_fulfil_completes ["A"%string] 1 (fun _ => Fulfilled));
    [reflexivity | apply sample_reach_closed | exact Hstop].
Defined.

Lemma crash_needs_rejection_witness :
  reachable ["A"%string; "B"%string] 1 (fun _ => Rejected) s_crashed /\
  pc s_crashed = Crashed /\
  exists j, j < next s_crashed /\ Rejected = Rejected /\ ~ In j (completed s_crashed).
Proof.
  split; [apply sample_reach_crashed|]. split; [reflexivity|].
  apply (crash_needs_rejection ["A"%string; "B"%string] 1 (fun _ => Rejected));
    [apply sample_reach_crashed | reflexivity].
Defined.

Lemma one_rejection_aborts_witness :
  (1 <= 1)%Z /\ 2 <= length ["A"%string; "B"%string] /\
  reachable ["A"%string; "B"%string] 1 (fun _ => Rejected) s_crashed /\
  pc s_crashed = Crashed /\ next s_crashed = 1 /\ completed s_crashed = [].
Proof.
  split; [lia|]. split; [simpl; lia|]. split; [apply sample_reach_crashed|].
  apply (one_rejection_aborts ["A"%string; "B"%string] 1 (fun _ => Rejected));
    [lia | reflexivity | simpl; lia | apply sample_reach_crashed
    | intros st'; apply final_no_step; right; reflexivity].
Defined.

Lemma splice_removes_own_witness :
  In (0, Pending) (promises (push_job 2 init)) /\
  exists l1 l2, promises (push_job 2 init) = l1 ++ (0, Pending) :: l2 /\
                promises (fulfil_job (push_job 2 init) 0) = l1 ++ l2.
Proof.
  split; [simpl; auto|].
  apply (splice_removes_own ["A"%string; "B"%string] 2 (fun _ => Fulfilled)); [|simpl; auto].
  eapply reach_step; [apply reach_init | apply step_push; simpl; [reflexivity | lia]].
Defined.

Lemma push_awaits_iff_full_witness :
  reachable ["A"]%string 2 (fun _ => Fulfilled) init /\ pc init = AtLoop /\
  Z.of_nat (length (promises (push_job 2 init))) <> cap 2.
Proof.
  split; [apply reach_init|]. split; [reflexivity|].
  intros E. apply (push_awaits_iff_full ["A"]%string 2 (fun _ => Fulfilled) init (reach_init _ _ _) eq_refl) in E.
  destruct E as [f E]. discriminate.
Defined.

End Scheduler.
