(* ===== verification/SchedulerRun.v ===== *)
(** * SchedulerRun: an executable run of the render loop

    [Scheduler.step] lets any pending job settle while the main function is
    suspended.  This file fixes one order, the one of a browser that
    finishes the jobs in the order they were started: the oldest pending
    promise of the array settles first.  [next_state] chooses the step,
    [run] iterates it with fuel, and the theorems show that every chosen
    step is a step of [Scheduler.step], that [next_state] stops only in the
    final control points, and that fuel at least [Scheduler.measure] of the
    start state is enough to reach them.  Concrete runs then evaluate with
    [vm_compute]. *)

From Stdlib Require Import String List ZArith Lia.
From S2P Require Import Prelude RenderJob Scheduler.
Import ListNotations.
Import RenderJob Scheduler.

Module SchedulerRun.

(** The oldest pending promise of the array. *)
Fixpoint first_pending (l : list (nat * pstatus)) : option nat :=
  match l with
  | [] => None
  | (j, Pending) :: _ => Some j
  | (_, Failed) :: l' => first_pending l'
  end.

Section Run.

Context (sheets : list string) (concurrency : Z) (outcome : nat -> settlement).

(** Settle the oldest pending job, as [outcome] says. *)
Definition settle_oldest (st : state) : option state :=
  match first_pending (promises st) with
  | Some j =>
      Some (match outcome j with
            | Fulfilled => fulfil_job st j
            | Rejected => reject_job st j
            end)
  | None => None
  end.

(** The step the run takes from [st], if any. *)
Definition next_state (st : state) : option state :=
  match pc st with
  | AtLoop =>
      if Nat.ltb (next st) (length sheets) then Some (push_job concurrency st)
      else Some (set_pc st AtAll)
  | AtRace (Some Fulfilled) => Some (set_pc st AtLoop)
  | AtRace (Some Rejected) => Some (set_pc st Crashed)
  | AtRace None => settle_oldest st
  | AtAll =>
      match promises st with
      | [] => Some (set_pc st Closed)
      | _ => if has_failed (promises st) then Some (set_pc st Crashed) else settle_oldest st
      end
  | Closed | Crashed => None
  end.

Fixpoint run (fuel : nat) (st : state) : state :=
  match fuel with
  | 0 => st
  | S k => match next_state st with Some st' => run k st' | None => st end
  end.

(** ** Lemmas *)

Lemma first_pending_In l j : first_pending l = Some j -> In (j, Pending) l.
Proof.
  induction l as [|[k [|]] l IH]; simpl; intros H; try discriminate.
  - inversion H; auto.
  - auto.
Qed.

Lemma first_pending_none l : first_pending l = None -> has_failed l = false -> l = [].
Proof.
  induction l as [|[k [|]] l IH]; simpl; intros H1 H2; try discriminate; reflexivity.
Qed.

Lemma settle_oldest_step st st' :
  suspended (pc st) -> settle_oldest st = Some st' ->
  step sheets concurrency outcome st st'.
Proof.
  unfold settle_oldest. intros Hs H.
  destruct (first_pending (promises st)) as [j|] eqn:E; [|discriminate].
  apply first_pending_In in E. inversion H; subst.
  destruct (outcome j) eqn:Ho.
  - apply step_fulfil; assumption.
  - apply step_reject; assumption.
Qed.

(** Every chosen step is a step of the loop. *)
Lemma next_state_step st st' :
  next_state st = Some st' -> step sheets concurrency outcome st st'.
Proof.
  unfold next_state. intros H.
  destruct (pc st) as [|[[]|]| | |] eqn:Hpc; try discriminate.
  - destruct (Nat.ltb_spec (next st) (length sheets)); inversion H; subst.
    + apply step_push; assumption.
    + apply step_loop_exit; assumption.
  - inversion H; subst. apply step_race_resume. exact Hpc.
  - inversion H; subst. apply step_race_throw. exact Hpc.
  - apply settle_oldest_step; [rewrite Hpc; exact I | exact H].
  - destruct (promises st) as [|e l] eqn:Hp.
    + inversion H; subst. apply step_all_resolve; assumption.
    + destruct (has_failed (e :: l)) eqn:Hf.
      * inversion H; subst. apply step_all_reject; [assumption | rewrite Hp; exact Hf].
      * apply settle_oldest_step; [rewrite Hpc; exact I | exact H].
Qed.

(** In a reachable state the run stops only at [Closed] or [Crashed]. *)
Lemma next_state_none st :
  reachable sheets concurrency outcome st -> next_state st = None ->
  pc st = Closed \/ pc st = Crashed.
Proof.
  intros R H. pose proof (inv_pc _ _ _ _ (inv_reachable _ _ _ _ R)) as Hok.
  unfold next_state, settle_oldest in H. unfold pc_ok in Hok.
  destruct (pc st) as [|[[]|]| | |] eqn:Hpc; auto; exfalso.
  - destruct (Nat.ltb (next st) (length sheets)); discriminate.
  - discriminate.
  - discriminate.
  - destruct Hok as [Hne Hf].
    destruct (first_pending (promises st)) eqn:E; [discriminate|].
    exact (Hne (first_pending_none _ E Hf)).
  - destruct (promises st) as [|e l] eqn:Hp; [discriminate|].
    destruct (has_failed (e :: l)) eqn:Hf; [discriminate|].
    destruct (first_pending (e :: l)) eqn:E; [discriminate|].
    apply first_pending_none in E; [discriminate | exact Hf].
Qed.

Lemma run_reachable fuel st :
  reachable sheets concurrency outcome st -> reachable sheets concurrency outcome (run fuel st).
Proof.
  revert st. induction fuel as [|k IH]; intros st R; simpl; [exact R|].
  destruct (next_state st) as [st'|] eqn:E; [|exact R].
  apply IH. eapply reach_step; [exact R | apply next_state_step; exact E].
Qed.

(** Fuel at least the measure suffices to reach a final control point. *)
Lemma run_final fuel st :
  reachable sheets concurrency outcome st -> measure sheets st <= fuel ->
  pc (run fuel st) = Closed \/ pc (run fuel st) = Crashed.
Proof.
  revert st. induction fuel as [|k IH]; intros st R Hm.
  - simpl. destruct (next_state st) as [st'|] eqn:E.
    + pose proof (step_measure _ _ _ _ _ (next_state_step _ _ E)). lia.
    + exact (next_state_none st R E).
  - simpl. destruct (next_state st) as [st'|] eqn:E.
    + pose proof (next_state_step _ _ E) as Hs.
      pose proof (step_measure _ _ _ _ _ Hs).
      apply IH; [eapply reach_step; eassumption | lia].
    + exact (next_state_none st R E).
Qed.

(** Under the oldest-first order with every job fulfilling, the completed
    jobs followed by the array are exactly the started jobs, in order. *)
Definition fifo_inv (st : state) : Prop :=
  completed st ++ map fst (promises st) = seq 0 (next st) /\
  Forall (fun e => snd e = Pending) (promises st).

Lemma fifo_inv_step st st' :
  (forall j, outcome j = Fulfilled) -> fifo_inv st -> next_state st = Some st' -> fifo_inv st'.
Proof.
  intros Hall [Hord Hpend] H.
  assert (Hset : forall q, fifo_inv (set_pc st q)) by (intros q; split; assumption).
  assert (Hsettle : forall st'', settle_oldest st = Some st'' -> fifo_inv st'').
  { unfold settle_oldest. intros st'' E.
    destruct (promises st) as [|[j sj] l] eqn:Hp; [discriminate|].
    inversion Hpend as [|e l' Hj Hl]; subst. simpl in Hj. subst sj.
    simpl in E. inversion E; subst. rewrite Hall.
    unfold fulfil_job. rewrite Hp. simpl. rewrite Nat.eqb_refl. unfold splice_one. simpl.
    split; cbn [completed promises next]; [|exact Hl].
    rewrite <- Hord. simpl. rewrite <- app_assoc. reflexivity. }
  unfold next_state in H.
  destruct (pc st) as [|[[]|]| | |]; try discriminate.
  - destruct (Nat.ltb (next st) (length sheets)); inversion H; subst; [|apply Hset].
    unfold push_job. split; cbn [completed promises next].
    + rewrite map_app, app_assoc, Hord, seq_S. reflexivity.
    + apply Forall_app. split; [exact Hpend | repeat constructor].
  - inversion H; subst. apply Hset.
  - inversion H; subst. apply Hset.
  - apply Hsettle. exact H.
  - destruct (promises st) as [|e l] eqn:Hp; [inversion H; subst; apply Hset|].
    destruct (has_failed (e :: l)); [inversion H; subst; apply Hset|].
    apply Hsettle. exact H.
Qed.

Lemma fifo_inv_run fuel st :
  (forall j, outcome j = Fulfilled) -> fifo_inv st -> fifo_inv (run fuel st).
Proof.
  intros Hall. revert st. induction fuel as [|k IH]; intros st H; simpl; [exact H|].
  destruct (next_state st) as [st'|] eqn:E; [|exact H].
  apply IH. exact (fifo_inv_step st st' Hall H E).
Qed.

(** ** Properties *)

(** C28: With fuel at least [Scheduler.measure] of the start state, the run
    in which the oldest pending job settles first reaches [Closed] or
    [Crashed], through steps of the loop.  When every job fulfils it ends
    [Closed], and the jobs completed in exactly the order of the sheet
    list. *)
Theorem fifo_run_completes fuel :
  measure sheets init <= fuel ->
  reachable sheets concurrency outcome (run fuel init) /\
  (pc (run fuel init) = Closed \/ pc (run fuel init) = Crashed) /\
  ((forall j, outcome j = Fulfilled) ->
   pc (run fuel init) = Closed /\ completed (run fuel init) = seq 0 (length sheets)).
Proof.
  intros Hf. pose proof (run_reachable fuel init (reach_init _ _ _)) as R.
  pose proof (run_final fuel init (reach_init _ _ _) Hf) as Hfin.
  split; [exact R|]. split; [exact Hfin|]. intros Hall.
  assert (Hinv : fifo_inv (run fuel init))
    by (apply fifo_inv_run; [exact Hall | split; [reflexivity | constructor]]).
  destruct Hinv as [Hord _].
  pose proof (inv_reachable _ _ _ _ R) as [_ _ _ Hfail Hok].
  destruct Hfin as [Hc|Hc].
  - unfold pc_ok in Hok. rewrite Hc in Hok. destruct Hok as [Hp Hn].
    rewrite Hp, Hn, app_nil_r in Hord. split; [exact Hc | exact Hord].
  - exfalso. unfold pc_ok in Hok. rewrite Hc in Hok.
    apply has_failed_iff in Hok as [j Hj]. specialize (Hfail j Hj).
    rewrite Hall in Hfail. discriminate.
Qed.

(** C32: With fuel at least [Scheduler.measure] of the start state, the
    run in which the oldest pending job settles first ends [Closed], ready
    for [browser.close()], exactly when the job of every selected sheet
    fulfils, and ends [Crashed] exactly when the job of some selected sheet
    rejects: one rejection anywhere in the list, whatever the concurrency,
    keeps the browser from being closed. *)
Theorem fifo_run_closed_iff fuel :
  measure sheets init <= fuel ->
  (pc (run fuel init) = Closed <-> forall j, j < length sheets -> outcome j = Fulfilled) /\
  (pc (run fuel init) = Crashed <-> exists j, j < length sheets /\ outcome j = Rejected).
Proof.
  intros Hf. pose proof (run_reachable fuel init (reach_init _ _ _)) as R.
  pose proof (run_final fuel init (reach_init _ _ _) Hf) as Hfin.
  assert (Hstop : forall st', ~ step sheets concurrency outcome (run fuel init) st')
    by (intros st'; apply final_no_step, Hfin).
  assert (Hrej : forall j, j < length sheets -> outcome j = Rejected -> pc (run fuel init) = Crashed)
    by (intros j Hj Ho; exact (rejected_run_stops_crashed _ _ _ _ j Hj Ho R Hstop)).
  split; split.
  - intros Hc j Hj. destruct (outcome j) eqn:Ho; [reflexivity|].
    rewrite (Hrej j Hj Ho) in Hc. discriminate.
  - intros Hall. exact (proj1 (fulfilled_run_stops_closed _ _ _ _ Hall R Hstop)).
  - intros Hc. destruct (failed_job _ _ _ _ R) as [j [Hj [Ho _]]].
    + pose proof (inv_pc _ _ _ _ (inv_reachable _ _ _ _ R)) as Hok.
      unfold pc_ok in Hok. rewrite Hc in Hok. exact Hok.
    + pose proof (inv_next _ _ _ _ (inv_reachable _ _ _ _ R)). exists j. split; [lia | exact Ho].
  - intros [j [Hj Ho]]. exact (Hrej j Hj Ho).
Qed.

End Run.

(** An executable run.  Three sheets, concurrency 2, the job of the
    second sheet rejects: the first job completes, the third is started,
    and the run crashes when the race sees the rejection; the third job's
    result is never awaited and the browser is never closed. *)
Theorem fifo_run_example :
  let st := run ["A"; "B"; "C"]%string 2 (fun j => if Nat.eqb j 1 then Rejected else Fulfilled)
              30 init in
  pc st = Crashed /\ next st = 3 /\ completed st = [0] /\
  promises st = [(1, Failed); (2, Pending)].
Proof. vm_compute. repeat split. Qed.

Lemma fifo_run_completes_witness :
  measure ["A"; "B"; "C"]%string init <= 40 /\
  completed (run ["A"; "B"; "C"]%string 2 (fun _ => Fulfilled) 40 init) = seq 0 3.
Proof.
  assert (H : measure ["A"; "B"; "C"]%string init <= 40) by (vm_compute; lia).
  split; [exact H|].
  apply (proj2 (proj2 (fifo_run_completes ["A"; "B"; "C"]%string 2 (fun _ => Fulfilled) 40 H))).
  reflexivity.
Defined.

Lemma fifo_run_closed_iff_witness :
  measure ["A"; "B"; "C"]%string init <= 30 /\
  pc (run ["A"; "B"; "C"]%string 2 (fun j => if Nat.eqb j 1 then Rejected else Fulfilled) 30 init) = Crashed.
Proof.
  assert (H : measure ["A"; "B"; "C"]%string init <= 30) by (vm_compute; lia).
  split; [exact H|].
  apply (proj2 (proj2 (fifo_run_closed_iff ["A"; "B"; "C"]%string 2
                         (fun j => if Nat.eqb j 1 then Rejected else Fulfilled) 30 H))).
  exists 1. split; [simpl; lia | reflexivity].
Defined.

End SchedulerRun.
