(* ===== verification/Pool.v ===== *)
(** * Pool: the bounded worker pool of the specification

    Sections 4.4 and 9 of the specification describe the render scheduler
    as a bounded working set: a job is admitted only while fewer than [cap]
    jobs are in flight, a job leaves the working set when it completes or
    fails (a failure is logged and treated as complete), and the run is over
    when every job has been admitted and has left.  This file states that
    contract as an abstract transition system over the job indices
    [0 .. n-1]; [PoolRefinement] shows that the loop of [src/index.js]
    implements it on every run that does not crash.

    The working set is a list up to permutation: the order in which jobs
    leave it is not specified. *)

From Stdlib Require Import List Lia Permutation.
From S2P Require Import Prelude.
Import ListNotations.

Module Pool.

Record pool : Type := mk_pool {
  admitted : nat;        (* jobs 0 .. admitted-1 have been admitted *)
  working : list nat;    (* the working set *)
  done : list nat;       (* jobs that completed, in order *)
  failed : list nat }.   (* jobs that failed, in order *)

Definition pool_init : pool := mk_pool 0 [] [] [].

Section Contract.

(** [n] jobs, at most [cap] in flight. *)
Context (n cap : nat).

Inductive pool_step : pool -> pool -> Prop :=
| pool_admit p :
    admitted p < n -> length (working p) < cap ->
    pool_step p (mk_pool (S (admitted p)) (working p ++ [admitted p]) (done p) (failed p))
| pool_complete p j rest :
    Permutation (working p) (j :: rest) ->
    pool_step p (mk_pool (admitted p) rest (done p ++ [j]) (failed p))
| pool_fail p j rest :
    Permutation (working p) (j :: rest) ->
    pool_step p (mk_pool (admitted p) rest (done p) (failed p ++ [j])).

Inductive pool_reachable : pool -> Prop :=
| pool_reach_init : pool_reachable pool_init
| pool_reach_step p p' : pool_reachable p -> pool_step p p' -> pool_reachable p'.

(** The run is over: every job admitted, none in flight. *)
Definition pool_final (p : pool) : Prop := admitted p = n /\ working p = [].

(** ** The contract's own invariants *)

Lemma pool_working_bound p :
  pool_reachable p -> length (working p) <= cap.
Proof.
  induction 1 as [|p p' _ IH Hs]; simpl; [lia|].
  destruct Hs as [p Ha Hw | p j rest Hp | p j rest Hp]; simpl in *.
  - rewrite length_app. simpl. lia.
  - apply Permutation_length in Hp. simpl in Hp. lia.
  - apply Permutation_length in Hp. simpl in Hp. lia.
Qed.

Lemma pool_accounted p :
  pool_reachable p ->
  Permutation (working p ++ done p ++ failed p) (seq 0 (admitted p)).
Proof.
  induction 1 as [|p p' _ IH Hs]; [constructor|].
  destruct Hs as [p Ha Hw | p j rest Hp | p j rest Hp]; cbn [admitted working done failed] in *.
  - rewrite seq_S, <- IH, <- app_assoc. simpl.
    rewrite <- Permutation_middle. apply Permutation_cons_append.
  - rewrite <- IH, Hp. simpl.
    replace (rest ++ (done p ++ [j]) ++ failed p) with ((rest ++ done p) ++ j :: failed p)
      by (rewrite <- !app_assoc; reflexivity).
    rewrite <- Permutation_middle, <- app_assoc. reflexivity.
  - rewrite <- IH, Hp. simpl.
    replace (rest ++ done p ++ failed p ++ [j]) with ((rest ++ done p ++ failed p) ++ [j])
      by (rewrite <- !app_assoc; reflexivity).
    symmetry. apply Permutation_cons_append.
Qed.

End Contract.

End Pool.
