(* ===== verification/PoolRefinement.v ===== *)
(** * PoolRefinement: the render loop implements the bounded pool

    The abstraction maps a state of [Scheduler] to a state of [Pool]: the
    admitted jobs are the jobs the loop started, the working set is the
    pending promises of the array, the completed jobs are the jobs whose
    [.then] ran, and the failed jobs are the rejected promises still in the
    array.  Every step of the loop is a step of the pool or leaves the
    abstraction unchanged, except the two steps where the main function
    throws ([Crashed]), which the pool of the specification does not have:
    there, a failed job aborts the run instead of being treated as complete.

    The refinement theorem states that every reachable state of the loop
    that has not crashed is related to a reachable state of the pool, and
    that a closed loop corresponds to a finished pool. *)

From Stdlib Require Import String List ZArith Lia Permutation.
From S2P Require Import Prelude RenderJob Scheduler Pool.
Import ListNotations.
Import RenderJob Scheduler Pool.

Module PoolRefinement.

Definition is_pending (e : nat * pstatus) : bool :=
  match snd e with Pending => true | Failed => false end.

Definition is_failed (e : nat * pstatus) : bool :=
  match snd e with Failed => true | Pending => false end.

Definition pending_ids (l : list (nat * pstatus)) : list nat := map fst (filter is_pending l).

Definition failed_ids (l : list (nat * pstatus)) : list nat := map fst (filter is_failed l).

(** The number of jobs the pool lets run at once, for a configured concurrency. *)
Definition pool_cap (concurrency : Z) : nat := Z.to_nat (Z.max 1 concurrency).

(** The abstraction relation. *)
Definition abs (st : state) (p : pool) : Prop :=
  admitted p = next st /\
  Permutation (working p) (pending_ids (promises st)) /\
  done p = completed st /\
  Permutation (failed p) (failed_ids (promises st)).

(** ** Lemmas on the abstraction of the array *)

Lemma pending_ids_app l1 l2 : pending_ids (l1 ++ l2) = pending_ids l1 ++ pending_ids l2.
Proof. unfold pending_ids. rewrite filter_app, map_app. reflexivity. Qed.

Lemma failed_ids_app l1 l2 : failed_ids (l1 ++ l2) = failed_ids l1 ++ failed_ids l2.
Proof. unfold failed_ids. rewrite filter_app, map_app. reflexivity. Qed.

Lemma failed_ids_cons e l :
  failed_ids (e :: l) = (if is_failed e then [fst e] else []) ++ failed_ids l.
Proof. unfold failed_ids. simpl. destruct (is_failed e); reflexivity. Qed.

#[local] Hint Rewrite pending_ids_app failed_ids_app : gs.

Lemma pending_ids_length l : length (pending_ids l) <= length l.
Proof. unfold pending_ids. rewrite length_map. apply filter_length_le. Qed.

Lemma mark_failed_absent l j : ~ In j (map fst l) -> mark_failed l j = l.
Proof.
  induction l as [|[k s] l IH]; simpl; [reflexivity|]. intros H.
  destruct (Nat.eqb_spec k j); [tauto|]. f_equal. apply IH. tauto.
Qed.

(** With distinct indices, a pending job sits alone at one place of the array. *)
Lemma pending_split (l : list (nat * pstatus)) (j : nat) :
  NoDup (map fst l) -> In (j, Pending) l ->
  exists l1 l2, l = l1 ++ (j, Pending) :: l2 /\
                ~ In j (map fst l1) /\ ~ In j (map fst l2).
Proof.
  intros Hnd Hin. destruct (in_split _ _ Hin) as (l1 & l2 & ->).
  exists l1, l2. split; [reflexivity|].
  rewrite map_app in Hnd. simpl in Hnd. apply NoDup_remove_2 in Hnd.
  split; intros H; apply Hnd; apply in_or_app; auto.
Qed.

Lemma mark_failed_split (l1 l2 : list (nat * pstatus)) (j : nat) :
  ~ In j (map fst l1) -> ~ In j (map fst l2) ->
  mark_failed (l1 ++ (j, Pending) :: l2) j = l1 ++ (j, Failed) :: l2.
Proof.
  intros H1 H2. unfold mark_failed. rewrite map_app. simpl. rewrite Nat.eqb_refl.
  fold (mark_failed l1 j). fold (mark_failed l2 j).
  rewrite !mark_failed_absent by assumption. reflexivity.
Qed.

Lemma abs_set_pc st p q : abs st p -> abs (set_pc st q) p.
Proof. unfold abs, set_pc. simpl. tauto. Qed.

Section Refinement.

Context (sheets : list string) (concurrency : Z) (outcome : nat -> settlement).

(** One step of the loop is a step of the pool or a stutter. *)
Lemma step_simulated st st' p :
  reachable sheets concurrency outcome st -> abs st p ->
  step sheets concurrency outcome st st' -> pc st' <> Crashed ->
  abs st' p \/
  exists p', pool_step (length sheets) (pool_cap concurrency) p p' /\ abs st' p'.
Proof.
  intros R [Ha [Hw [Hd Hf]]] Hs Hx.
  pose proof (inv_reachable sheets concurrency outcome st R) as I.
  destruct Hs as
    [st Hpc Hn | st j Hsus Hin Ho | st j Hsus Hin Ho | st Hpc | st Hpc | st Hpc Hn
    | st Hpc Hp | st Hpc Hfl];
    try (left; apply abs_set_pc; repeat split; assumption);
    try (exfalso; apply Hx; reflexivity).
  - (* the loop starts job [next] *)
    right. exists (mk_pool (S (admitted p)) (working p ++ [admitted p]) (done p) (failed p)).
    split.
    + apply pool_admit; [lia|].
      pose proof (inv_pc _ _ _ _ I) as Hok. unfold pc_ok in Hok. rewrite Hpc in Hok.
      rewrite (Permutation_length Hw). pose proof (pending_ids_length (promises st)).
      unfold cap, pool_cap in *. lia.
    + unfold abs, push_job. simpl. autorewrite with gs. simpl.
      rewrite app_nil_r, Ha. repeat split; auto.
      apply Permutation_app_tail. exact Hw.
  - (* job [j] fulfils *)
    destruct (splice_own _ _ (inv_nodup _ _ _ _ I) Hin) as (m1 & m2 & E' & Hsp).
    right. exists (mk_pool (admitted p) (pending_ids (m1 ++ m2)) (done p ++ [j]) (failed p)).
    split.
    + apply pool_complete. rewrite Hw, E'. autorewrite with gs. simpl.
      symmetry. apply Permutation_middle.
    + unfold abs, fulfil_job. simpl. rewrite Hsp, Hd.
      repeat split; auto. rewrite Hf, E'. autorewrite with gs. reflexivity.
  - (* job [j] rejects *)
    destruct (pending_split _ _ (inv_nodup _ _ _ _ I) Hin) as (l1 & l2 & E & H1 & H2).
    right. exists (mk_pool (admitted p) (pending_ids (l1 ++ l2)) (done p) (failed p ++ [j])).
    split.
    + apply pool_fail. rewrite Hw, E. autorewrite with gs. simpl.
      symmetry. apply Permutation_middle.
    + unfold abs, reject_job. simpl. rewrite E, mark_failed_split by assumption.
      repeat split; auto; autorewrite with gs; simpl; [reflexivity|].
      rewrite Hf, E. autorewrite with gs. rewrite !failed_ids_cons. simpl.
      rewrite <- app_assoc. apply Permutation_app_head. symmetry.
      apply Permutation_cons_append.
Qed.

Lemma abs_init : abs init pool_init.
Proof. repeat split; constructor. Qed.

Lemma refines_reachable st :
  reachable sheets concurrency outcome st -> pc st <> Crashed ->
  exists p, pool_reachable (length sheets) (pool_cap concurrency) p /\ abs st p.
Proof.
  induction 1 as [|st st' R IH Hs]; intros Hx.
  - exists pool_init. split; [constructor | apply abs_init].
  - assert (Hc : pc st <> Crashed).
    { intros E. exact (final_no_step _ _ _ st st' (or_intror E) Hs). }
    destruct (IH Hc) as [p [Hp Habs]].
    destruct (step_simulated st st' p R Habs Hs Hx) as [H | [p' [Hps H]]].
    + exists p. auto.
    + exists p'. split; [econstructor; eassumption | exact H].
Qed.

(** ** Property *)

(** C11: Refinement of the bounded worker pool of the specification.  Every
    reachable state of the render loop that has not crashed is related by
    [abs] to a reachable state of the pool with [n] the number of selected
    sheets and [max 1 concurrency] slots, and a closed loop corresponds to a
    finished pool: every job admitted, none in flight. *)
Theorem loop_refines_pool st :
  reachable sheets concurrency outcome st -> pc st <> Crashed ->
  exists p, pool_reachable (length sheets) (pool_cap concurrency) p /\ abs st p /\
            (pc st = Closed -> pool_final (length sheets) p).
Proof.
  intros R Hx. destruct (refines_reachable st R Hx) as [p [Hp Habs]].
  exists p. split; [exact Hp|]. split; [exact Habs|]. intros Hc.
  pose proof (inv_pc _ _ _ _ (inv_reachable _ _ _ _ R)) as Hok.
  unfold pc_ok in Hok. rewrite Hc in Hok. destruct Hok as [Hnil Hn].
  destruct Habs as [Ha [Hw _]]. rewrite Hnil in Hw. split.
  - rewrite Ha. exact Hn.
  - apply Permutation_nil. symmetry. exact Hw.
Qed.

End Refinement.

(** ** A concrete run *)

Lemma loop_refines_pool_witness :
  let st := set_pc (set_pc (set_pc (fulfil_job (push_job 1 init) 0) AtLoop) AtAll) Closed in
  reachable ["A"%string] 1 (fun _ => Fulfilled) st /\ pc st <> Crashed /\
  exists p, pool_reachable 1 (pool_cap 1) p /\ abs st p /\ (pc st = Closed -> pool_final 1 p).
Proof.
  intros st. assert (R : reachable ["A"%string] 1 (fun _ => Fulfilled) st)
    by (apply one_sheet_closed; reflexivity).
  assert (Hx : pc st <> Crashed) by (intros E; inversion E).
  split; [exact R|]. split; [exact Hx|].
  apply (loop_refines_pool ["A"%string] 1 (fun _ => Fulfilled) st R Hx).
Defined.

End PoolRefinement.
