(* ===== verification/Orchestrator.v ===== *)
(** * Orchestrator: the render phase of the main function, [src/index.js] lines 76-104

    The main function lists the extracted directory, selects the sheets
    ([Selector.sheet_names], lines 80-88), launches the browser, and runs the
    loop of [Scheduler] over the selected sheets; the job of the [i]-th sheet
    is [screenshot(join(extractedDir, sheetName + '.html'),
    join(outputDir, sheetName + '.jpg'), browser)] (line 93), whose promise
    settles as [RenderJob] computes from the browser's answers for that
    sheet's page.  This file composes the three: the scheduler's [outcome]
    is the settlement of the [RenderJob] program of each sheet.

    [join] is [node:path]'s [join], modelled in [NodeJoin].

    The theorem shows that per-tab errors stay per-tab: when every selected
    sheet's page opens, navigates and closes, every run reaches [browser.close()]
    after completing every selected sheet, whatever the layout, resize and
    capture of each page do. *)

From Stdlib Require Import String List QArith ZArith Lia Permutation.
From S2P Require Import Prelude NodePath NodeJoin Selector Geometry RenderJob Scheduler.
Import ListNotations.
Import NodePath NodeJoin Selector Geometry RenderJob Scheduler.

Module Orchestrator.

(** The job of the [i]-th selected sheet, line 93. *)
Definition job_of (extracted_dir output_dir : string) (pages : string -> page_env)
    (sheets : list string) (i : nat) : job unit :=
  let s := nth i sheets ""%string in
  screenshot (join extracted_dir (s ++ ".html")) (join output_dir (s ++ ".jpg")) (pages s).

Definition job_outcome (extracted_dir output_dir : string) (pages : string -> page_env)
    (sheets : list string) (i : nat) : settlement :=
  settle_of (job_of extracted_dir output_dir pages sheets i).

(** The states of the render loop over the selected sheets (lines 83-104). *)
Definition render_reachable (files : list string) (inc exc : cfg_value) (concurrency : Z)
    (extracted_dir output_dir : string) (pages : string -> page_env) (st : state) : Prop :=
  let sheets := sheet_names files inc exc in
  reachable sheets concurrency (job_outcome extracted_dir output_dir pages sheets) st.

(** A sheet whose page opens, navigates and closes. *)
Definition page_ok (env : page_env) : Prop :=
  new_page_ok env = true /\ goto_ok env = true /\ close_ok env = true.

Lemma job_outcome_fulfilled extracted_dir output_dir pages sheets i :
  page_ok (pages (nth i sheets ""%string)) ->
  job_outcome extracted_dir output_dir pages sheets i = Fulfilled.
Proof.
  intros H. unfold job_outcome, job_of. apply settle_iff. exact H.
Qed.

Lemma job_outcome_rejected extracted_dir output_dir pages sheets i :
  ~ page_ok (pages (nth i sheets ""%string)) ->
  job_outcome extracted_dir output_dir pages sheets i = Rejected.
Proof.
  intros H. unfold job_outcome, job_of.
  destruct (settle_of _) eqn:E; [|reflexivity].
  exfalso. apply H. apply settle_iff in E. exact E.
Qed.

(** ** Properties *)

(** C2: Per-tab errors stay per-tab.  When the page of every selected sheet
    opens, navigates and closes, every run of the render loop stops with
    [Promise.all] resolved, ready to close the browser, after completing
    the job of every selected sheet exactly once, whatever the layout,
    resize and capture of each page do (a page without its header still
    lets its siblings render). *)
Theorem pipeline_completes (files : list string) (inc exc : cfg_value) (concurrency : Z)
    (extracted_dir output_dir : string) (pages : string -> page_env) (st : state) :
  (forall s, In s (sheet_names files inc exc) -> page_ok (pages s)) ->
  render_reachable files inc exc concurrency extracted_dir output_dir pages st ->
  (forall st', ~ step (sheet_names files inc exc) concurrency
                  (job_outcome extracted_dir output_dir pages (sheet_names files inc exc)) st st') ->
  pc st = Closed /\
  Permutation (completed st) (seq 0 (length (sheet_names files inc exc))).
Proof.
  intros Hpages R Hstop.
  apply (fulfilled_run_stops_closed (sheet_names files inc exc) concurrency
           (job_outcome extracted_dir output_dir pages (sheet_names files inc exc)) st);
    [|exact R|exact Hstop].
  intros j Hj. apply job_outcome_fulfilled. apply Hpages. apply nth_In. exact Hj.
Qed.

(** C35: Distinct sheets write distinct files.  When [readdir] lists
    distinct names without ['/'], the captures of two jobs of the render
    loop write the same path only if they are the same job: the output path
    [join(outputDir, sheetName + '.jpg')] ends with the sheet's own name,
    whatever [outputDir] is. *)
Theorem jobs_write_distinct_files (files : list string) (inc exc : cfg_value)
    (extracted_dir output_dir : string) (pages : string -> page_env) (i j : nat)
    (p : string) (c c' : rect) :
  NoDup files -> Forall (fun f => no_slash f = true) files ->
  (i < length (sheet_names files inc exc))%nat -> (j < length (sheet_names files inc exc))%nat ->
  In (Screenshot p c)
     (trace_of (job_of extracted_dir output_dir pages (sheet_names files inc exc) i)) ->
  In (Screenshot p c')
     (trace_of (job_of extracted_dir output_dir pages (sheet_names files inc exc) j)) ->
  i = j.
Proof.
  intros Hnd Hf Hi Hj Hci Hcj. unfold job_of in Hci, Hcj.
  apply screenshot_writes_png in Hci, Hcj. rewrite Hci in Hcj.
  pose proof (sheet_names_no_slash files inc exc Hf) as Hns. rewrite Forall_forall in Hns.
  apply (f_equal basename) in Hcj.
  rewrite !basename_join in Hcj
    by (apply plain_ext_name; [apply Hns, nth_In; assumption | reflexivity | simpl; lia]).
  apply (proj1 (NoDup_nth _ ""%string) (sheet_names_NoDup files inc exc Hnd Hf) i j Hi Hj).
  rewrite <- (slice_to_suffix (nth i _ _) ".jpg"), <- (slice_to_suffix (nth j _ _) ".jpg"), Hcj.
  reflexivity.
Qed.

(** ** A concrete run

    One [.html] file among other entries, no include or exclude list,
    concurrency 1, and a page without any of the two elements: its layout
    error is logged and the run still completes. *)

Lemma pipeline_completes_witness :
  let files := ["A.html"; "notes.txt"]%string in
  let pages := fun _ : string => (mk_page_env true true None None true true true) in
  let st := set_pc (set_pc (set_pc (fulfil_job (push_job 1 init) 0) AtLoop) AtAll) Closed in
  (forall s, In s (sheet_names files COther COther) -> page_ok (pages s)) /\
  render_reachable files COther COther 1 "/tmp/gs2imgx" "out" pages st /\
  pc st = Closed /\ Permutation (completed st) (seq 0 1).
Proof.
  intros files pages st.
  assert (Hp : forall s, In s (sheet_names files COther COther) -> page_ok (pages s))
    by (intros s _; repeat split).
  assert (R : render_reachable files COther COther 1 "/tmp/gs2imgx" "out" pages st)
    by (apply one_sheet_closed; reflexivity).
  split; [exact Hp|]. split; [exact R|].
  apply (pipeline_completes files COther COther 1 "/tmp/gs2imgx" "out" pages st Hp R).
  intros st'. apply final_no_step. left. reflexivity.
Defined.

Lemma jobs_write_distinct_files_witness :
  let files := ["A.html"; "B.html"; "notes.txt"]%string in
  let pages := fun _ : string =>
    mk_page_env true true (Some (Some (mk_rect 0%Q 20%Q 46%Q 600%Q)))
      (Some (Some (mk_rect 0%Q 20%Q 1046%Q 600%Q))) true true true in
  let clip := clip_area 46%Q (mk_rect 0%Q 20%Q 1046%Q 600%Q) in
  In (Screenshot "out/A.jpg" clip)
     (trace_of (job_of "/tmp/x" "out" pages (sheet_names files COther COther) 0)) /\ 0%nat = 0%nat.
Proof.
  intros files pages clip.
  assert (H : In (Screenshot "out/A.jpg" clip)
                 (trace_of (job_of "/tmp/x" "out" pages (sheet_names files COther COther) 0)))
    by (vm_compute; repeat (solve [left; reflexivity] || right)).
  split; [exact H|].
  apply (jobs_write_distinct_files files COther COther "/tmp/x" "out" pages 0 0 "out/A.jpg" clip clip);
    [repeat constructor; simpl; intuition discriminate | repeat constructor
    | simpl; lia | simpl; lia | exact H | exact H].
Defined.

End Orchestrator.
