(* ===== verification/Main.v ===== *)
(** * Main: [download], [unzip] and the top-level chain of [src/index.js]

    Lines 12-18 ([download]) create a temporary directory, fetch the zip
    export of the spreadsheet and write it there; lines 20-43 ([unzip])
    create a second temporary directory, open the archive, write every
    entry under it in [try], close the archive in [finally], and remove the
    download directory as [dirname(zipPath)]; lines 74-105 chain the two
    with the main function: create the output directory, list the
    extracted directory, select the sheets ([Selector.sheet_names]), launch
    the browser, run the render loop ([Scheduler]), close the browser and
    remove the extracted directory.

    Each awaited file-system, network or browser call is an [io_call] event
    of the [Js] monad of [Prelude]; the environment [io_env] says which calls
    succeed, which suffix [mkdtemp] appends, which entries the archive holds
    and what [readdir] lists.  The render loop, whose promises the browser
    settles in any order, is one event whose end the environment gives as
    the control point where [Scheduler]'s loop stops ([loop_end]); the
    theorems that compose the two take [loop_end] from a stopped run of the
    loop of [Orchestrator].  A loop that ends [Closed] has settled every
    job, so each page of the run was opened and released before
    [browser.close()] ([completed_run_closes_every_page]). *)

From Stdlib Require Import String List ZArith Lia Permutation.
From S2P Require Import Prelude NodePath NodeJoin Selector RenderJob Scheduler Orchestrator.
Import ListNotations.
Import NodePath NodeJoin Selector RenderJob Scheduler Orchestrator.
Open Scope string_scope.
Open Scope js_scope.

Module Main.

(** ** Data *)

(** The awaited calls of lines 12-43 and 74-105. *)
Inductive io_call : Type :=
| Mkdtemp (prefix : string)
| Fetch (url : string)
| WriteFile (path : string)          (* [await pipeline(source, createWriteStream(path))] *)
| ZipOpen (path : string)            (* [await yauzl.open(path)] *)
| OpenReadStream (name : string)     (* [await entry.openReadStream()] *)
| Mkdir (path : string)              (* [await mkdir(path, { recursive: true })] *)
| ZipClose
| Rm (path : string)                 (* [await rm(path, { force: true, recursive: true })] *)
| Readdir (path : string)
| Launch                             (* [await firefox.launch()] *)
| RenderLoop (extracted_dir output_dir : string) (sheets : list string)
| BrowserClose.

Inductive main_exn : Type :=
| IOError (c : io_call)   (* the call rejected *)
| JobRejected.            (* [Promise.race] or [Promise.all] rejected *)

Record io_env : Type := mk_io_env {
  tmpdir : string;                     (* [tmpdir()] *)
  temp_name : string -> string;        (* what [mkdtemp] appends to a prefix *)
  entries : list string;               (* the [entry.filename]s of the archive *)
  listing : list string;               (* [readdir(extractedDir)] *)
  io_ok : io_call -> bool;
  loop_end : list string -> point }.   (* where the render loop over the sheets stops *)

(** The four [config.get] values. *)
Record config : Type := mk_config {
  sheetID : string;
  outputDir : string;
  includeSheets : cfg_value;
  excludeSheets : cfg_value;
  concurrency : Z }.

Abbreviation main_js := (Js io_call main_exn).

(** ** Operations *)

Section Program.
Variable env : io_env.

(** An awaited call: it resolves or rejects, as the environment says. *)
Definition io (c : io_call) : main_js unit :=
  ([c], if io_ok env c then Done tt else Thrown (IOError c)).

Definition mkdtemp (prefix : string) : main_js string :=
  io (Mkdtemp prefix) ;; js_ret (prefix ++ temp_name env prefix).

Definition export_url (id : string) : string :=
  "https://docs.google.com/spreadsheets/d/" ++ id ++ "/export?format=zip".

Definition download (id : string) : main_js string :=
  dir <- mkdtemp (join (tmpdir env) "gs2imgz-") ;;
  let zipPath := join dir (id ++ ".zip") in
  io (Fetch (export_url id)) ;;
  io (WriteFile zipPath) ;;
  js_ret zipPath.

(** The body of [for await (const entry of zip)]. *)
Definition extract_entry (extractedDir name : string) : main_js unit :=
  let targetPath := join extractedDir name in
  if ends_with_slash name then io (Mkdir targetPath)
  else
    io (OpenReadStream name) ;;
    io (Mkdir (dirname targetPath)) ;;
    io (WriteFile targetPath).

Fixpoint extract_entries (extractedDir : string) (es : list string) : main_js unit :=
  match es with
  | [] => js_ret tt
  | e :: es' => extract_entry extractedDir e ;; extract_entries extractedDir es'
  end.

Definition unzip (zipPath : string) : main_js string :=
  extractedDir <- mkdtemp (join (tmpdir env) "gs2imgx-") ;;
  io (ZipOpen zipPath) ;;
  js_finally (extract_entries extractedDir (entries env)) (io ZipClose) ;;
  io (Rm (dirname zipPath)) ;;
  js_ret extractedDir.

(** Lines 90-102: the loop resolves when [Promise.all] does. *)
Definition render_loop (extractedDir outputDir : string) (sheets : list string) : main_js unit :=
  js_emit (RenderLoop extractedDir outputDir sheets) ;;
  match loop_end env sheets with
  | Closed => js_ret tt
  | _ => js_throw JobRejected
  end.

(** Lines 76-105: the [async extractedDir => { ... }] of the last [.then]. *)
Definition render_phase (cfg : config) (extractedDir : string) : main_js unit :=
  let outputDir := normalize (outputDir cfg) in
  io (Mkdir outputDir) ;;
  io (Readdir extractedDir) ;;
  let sheetNames := sheet_names (listing env) (includeSheets cfg) (excludeSheets cfg) in
  io Launch ;;
  render_loop extractedDir outputDir sheetNames ;;
  io BrowserClose ;;
  io (Rm extractedDir).

(** Lines 74-105. *)
Definition main (cfg : config) : main_js unit :=
  zipPath <- download (sheetID cfg) ;;
  extractedDir <- unzip zipPath ;;
  render_phase cfg extractedDir.

End Program.

(** ** Reference traces *)

(** The calls of one archive entry when they all resolve. *)
Definition entry_calls (extractedDir name : string) : list io_call :=
  let targetPath := join extractedDir name in
  if ends_with_slash name then [Mkdir targetPath]
  else [OpenReadStream name; Mkdir (dirname targetPath); WriteFile targetPath].

(** The directories of a run. *)
Definition download_dir (env : io_env) : string :=
  let p := join (tmpdir env) "gs2imgz-" in p ++ temp_name env p.

Definition extracted_dir (env : io_env) : string :=
  let p := join (tmpdir env) "gs2imgx-" in p ++ temp_name env p.

Definition zip_path (env : io_env) (cfg : config) : string :=
  join (download_dir env) (sheetID cfg ++ ".zip").

Definition selected (env : io_env) (cfg : config) : list string :=
  sheet_names (listing env) (includeSheets cfg) (excludeSheets cfg).

(** The calls of a run in which every call resolves, up to the render loop. *)
Definition setup_trace (env : io_env) (cfg : config) : list io_call :=
  [Mkdtemp (join (tmpdir env) "gs2imgz-"); Fetch (export_url (sheetID cfg));
   WriteFile (zip_path env cfg);
   Mkdtemp (join (tmpdir env) "gs2imgx-"); ZipOpen (zip_path env cfg)] ++
  flat_map (entry_calls (extracted_dir env)) (entries env) ++
  [ZipClose; Rm (dirname (zip_path env cfg));
   Mkdir (normalize (outputDir cfg)); Readdir (extracted_dir env); Launch].

(** The render loop of the run stops where [loop_end] says: [st] is a
    stopped state of the loop of [Orchestrator] over the selected sheets,
    whose jobs settle as [RenderJob] computes from the pages [pages]. *)
Definition loop_run (env : io_env) (cfg : config) (pages : string -> page_env) (st : state) : Prop :=
  let sheets := selected env cfg in
  let outcome := job_outcome (extracted_dir env) (normalize (outputDir cfg)) pages sheets in
  reachable sheets (concurrency cfg) outcome st /\
  (forall st', ~ step sheets (concurrency cfg) outcome st st') /\
  loop_end env sheets = pc st.

(** The typestate of the two resources of the run: the archive opened by
    [yauzl.open] and the browser launched by [firefox.launch()].  Opening
    acquires the resource when the call resolves; reading an entry and
    running the render loop need it open; [zip.close()] and
    [browser.close()] release it. *)
Record resources : Type := mk_resources { zip_res : rstate; browser_res : rstate }.

Definition resource_step (env : io_env) (r : resources) (c : io_call) : option resources :=
  let on_zip f := option_map (fun z => mk_resources z (browser_res r)) (f (zip_res r)) in
  let on_browser f := option_map (fun b => mk_resources (zip_res r) b) (f (browser_res r)) in
  match c with
  | ZipOpen _ => on_zip (acquire (io_ok env c))
  | OpenReadStream _ => on_zip use
  | ZipClose => on_zip release
  | Launch => on_browser (acquire (io_ok env c))
  | RenderLoop _ _ _ => on_browser use
  | BrowserClose => on_browser release
  | _ => Some r
  end.

(** The exceptions of the file-system and network calls. *)
Definition io_error (e : main_exn) : Prop := exists c, e = IOError c.

(** Calls that touch neither resource. *)
Definition quiet_call (c : io_call) : bool :=
  match c with
  | Mkdtemp _ | Fetch _ | WriteFile _ | Mkdir _ | Readdir _ | Rm _ => true
  | _ => false
  end.

(** ** Lemmas *)

Section Success.
Variable env : io_env.
Hypothesis Hok : forall c, io_ok env c = true.

Lemma io_resolves c : io env c = ([c], Done tt).
Proof. unfold io. rewrite Hok. reflexivity. Qed.

(** Run a program whose calls all resolve. *)
Local Ltac run_ok := repeat progress (simpl; rewrite ?Hok).

Lemma extract_entries_ok dir es :
  extract_entries env dir es = (flat_map (entry_calls dir) es, Done tt).
Proof.
  induction es as [|e es IH]; [reflexivity|]. simpl.
  unfold extract_entry, entry_calls. rewrite !io_resolves.
  destruct (ends_with_slash e); simpl; rewrite IH; reflexivity.
Qed.

Lemma download_ok id :
  download env id =
  ([Mkdtemp (join (tmpdir env) "gs2imgz-"); Fetch (export_url id);
    WriteFile (join (download_dir env) (id ++ ".zip"))],
   Done (join (download_dir env) (id ++ ".zip"))).
Proof. unfold download, mkdtemp, io. run_ok. reflexivity. Qed.

Lemma unzip_ok zp :
  unzip env zp =
  ([Mkdtemp (join (tmpdir env) "gs2imgx-"); ZipOpen zp] ++
   flat_map (entry_calls (extracted_dir env)) (entries env) ++ [ZipClose; Rm (dirname zp)],
   Done (extracted_dir env))%list.
Proof.
  unfold unzip, mkdtemp, io. run_ok. rewrite extract_entries_ok. run_ok.
  rewrite <- app_assoc. reflexivity.
Qed.

Local Ltac main_setup :=
  unfold main; rewrite download_ok; simpl; rewrite unzip_ok;
  unfold render_phase, render_loop, setup_trace, zip_path, selected, io.

(** The loop resolves: the browser is closed and the extracted directory
    removed. *)
Lemma main_closed cfg :
  loop_end env (selected env cfg) = Closed ->
  main env cfg =
  (setup_trace env cfg ++
   [RenderLoop (extracted_dir env) (normalize (outputDir cfg)) (selected env cfg);
    BrowserClose; Rm (extracted_dir env)], Done tt)%list.
Proof.
  intros Hle. main_setup. unfold selected in Hle. rewrite Hle. run_ok.
  rewrite <- !app_assoc. reflexivity.
Qed.

(** The loop rejects: the main function throws right after it. *)
Lemma main_rejected cfg :
  loop_end env (selected env cfg) <> Closed ->
  main env cfg =
  (setup_trace env cfg ++
   [RenderLoop (extracted_dir env) (normalize (outputDir cfg)) (selected env cfg)],
   Thrown JobRejected)%list.
Proof.
  intros Hle. main_setup. unfold selected in Hle.
  destruct (loop_end env _); [| | | congruence |]; run_ok;
    rewrite <- !app_assoc; reflexivity.
Qed.

End Success.

(** Calls that fetch or write data, the only calls of [download] and of
    the extraction loop. *)
Definition acquiring_call (c : io_call) : bool :=
  match c with
  | Mkdtemp _ | Fetch _ | WriteFile _ | OpenReadStream _ | Mkdir _ => true
  | _ => false
  end.

Local Ltac calls_ok :=
  repeat (apply Forall_trace_bind || intro); try (unfold io, js_ret; simpl; repeat constructor).

Lemma download_acquiring env id :
  Forall (fun c => acquiring_call c = true) (trace_of (download env id)).
Proof. unfold download, mkdtemp. calls_ok. Qed.

Lemma extract_entries_acquiring env dir es :
  Forall (fun c => acquiring_call c = true) (trace_of (extract_entries env dir es)).
Proof.
  induction es as [|e es IH]; simpl; [constructor|].
  apply Forall_trace_bind; [|intros; exact IH].
  unfold extract_entry. destruct (ends_with_slash e); calls_ok.
Qed.

Lemma not_in_acquiring c l :
  acquiring_call c = false -> Forall (fun c => acquiring_call c = true) l -> ~ In c l.
Proof. intros Hc Hl Hin. rewrite Forall_forall in Hl. rewrite (Hl c Hin) in Hc. discriminate. Qed.

#[local] Hint Resolve download_acquiring extract_entries_acquiring : gs.

(** Close [~ In c trace] for a call [c] that is not acquiring, when the
    trace is made of listed calls and acquiring parts. *)
Local Ltac not_in_trace :=
  let H := fresh in intros H;
  repeat match type of H with
  | In _ (_ ++ _) => apply in_app_iff in H as [H|H]
  | In _ (_ :: _) => destruct H as [H|H]
  | In _ [] => destruct H
  | _ = _ => discriminate H
  end;
  try (refine (not_in_acquiring _ _ _ _ H); [reflexivity | assumption]).

Lemma entry_calls_acquiring dir es :
  Forall (fun c => acquiring_call c = true) (flat_map (entry_calls dir) es).
Proof.
  induction es as [|e es IH]; simpl; [constructor|]. apply Forall_app. split; [|exact IH].
  unfold entry_calls. destruct (ends_with_slash e); repeat constructor.
Qed.

Lemma plain_temp_dir x : no_slash x = true -> plain_segment ("gs2imgz-" ++ x) = true.
Proof. intros H. unfold plain_segment. simpl. exact H. Qed.

Lemma plain_zip_name id : no_slash id = true -> plain_segment (id ++ ".zip") = true.
Proof. intros H. apply plain_ext_name; [exact H | reflexivity | simpl; lia]. Qed.

(** Under a [tmpdir] of plain segments, the download directory is one more
    plain segment. *)
Lemma download_dir_abs env tsegs :
  tmpdir env = abs_path tsegs -> Forall (fun s => plain_segment s = true) tsegs ->
  no_slash (temp_name env (join (tmpdir env) "gs2imgz-")) = true ->
  download_dir env =
  abs_path (tsegs ++ [String.append "gs2imgz-" (temp_name env (join (tmpdir env) "gs2imgz-"))])%list.
Proof.
  intros Ht Hs Hx. unfold download_dir. rewrite Ht in *.
  rewrite join_abs_plain by (exact Hs || reflexivity). apply abs_path_snoc_app.
Qed.

(** *** Exceptions and resources of each stage *)

Lemma io_throws env c : throws_only io_error (io env c).
Proof. unfold io. intros e. destruct (io_ok env c); simpl; [discriminate|]. intros H; inversion H; eexists; reflexivity. Qed.

Local Ltac throws_ok :=
  repeat (apply throws_only_bind || apply throws_only_finally || apply throws_only_ret
          || apply io_throws || intro).

Lemma download_throws env id : throws_only io_error (download env id).
Proof. unfold download, mkdtemp. throws_ok. Qed.

Lemma extract_entries_throws env dir es : throws_only io_error (extract_entries env dir es).
Proof.
  induction es as [|e es IH]; simpl; [apply throws_only_ret|].
  apply throws_only_bind; [|intros; exact IH].
  unfold extract_entry. destruct (ends_with_slash e); throws_ok.
Qed.

Lemma unzip_throws env zp : throws_only io_error (unzip env zp).
Proof. unfold unzip, mkdtemp. throws_ok. exact (extract_entries_throws _ _ _ _ H). Qed.

Lemma io_error_not_rejected e : io_error e -> e <> JobRejected.
Proof. intros [c ->]. discriminate. Qed.

Lemma quiet_stays env r c : quiet_call c = true -> resource_step env r c = Some r.
Proof. destruct c; simpl; congruence. Qed.

Lemma download_quiet env id : Forall (fun c => quiet_call c = true) (trace_of (download env id)).
Proof. unfold download, mkdtemp. calls_ok. Qed.

Lemma download_resources env id r :
  protocol_run (resource_step env) r (trace_of (download env id)) = Some r.
Proof. apply (protocol_run_stay _ _ _ _ (quiet_stays env r)), download_quiet. Qed.

(** The extraction loop reads entries of the open archive and touches
    nothing else. *)
Lemma extract_resources env dir es b :
  protocol_run (resource_step env) (mk_resources Opened b)
    (trace_of (extract_entries env dir es)) = Some (mk_resources Opened b).
Proof.
  apply (protocol_run_stay _ (fun c => acquiring_call c = true)); [|apply extract_entries_acquiring].
  intros c Hc. destruct c; simpl in *; congruence.
Qed.

(** [unzip] leaves the archive released, or never opened when [yauzl.open]
    rejects, and releases it before it resolves. *)
Lemma unzip_resources env zp b :
  exists z, protocol_run (resource_step env) (mk_resources Unopened b) (trace_of (unzip env zp))
            = Some (mk_resources z b) /\ z <> Opened /\
            (forall x, result_of (unzip env zp) = Done x -> z = Released).
Proof.
  pose proof (extract_resources env (extracted_dir env) (entries env) b) as He.
  unfold unzip, mkdtemp, io.
  destruct (io_ok env (Mkdtemp (join (tmpdir env) "gs2imgx-"))); simpl;
    [|exists Unopened; repeat split; [discriminate | intros x H; inversion H]].
  fold (extracted_dir env).
  destruct (io_ok env (ZipOpen zp)) eqn:Hz; simpl; rewrite ?Hz; simpl;
    [|exists Unopened; repeat split; [discriminate | intros x H; inversion H]].
  exists Released. split; [|split; [discriminate | reflexivity]].
  destruct (extract_entries env (extracted_dir env) (entries env)) as [t [[]|e]];
    destruct (io_ok env ZipClose); try destruct (io_ok env (Rm (dirname zp)));
    cbn [trace_of fst] in He; simpl; rewrite ?Hz, ?protocol_run_app, He; reflexivity.
Qed.

(** The render phase launches the browser and leaves it open exactly when
    the render loop rejects. *)
Lemma render_phase_resources env cfg x z :
  exists b, protocol_run (resource_step env) (mk_resources z Unopened)
              (trace_of (render_phase env cfg x)) = Some (mk_resources z b) /\
            (b = Opened <-> result_of (render_phase env cfg x) = Thrown JobRejected).
Proof.
  unfold render_phase, render_loop, io.
  destruct (io_ok env (Mkdir _)); simpl;
    [|exists Unopened; split; [reflexivity | split; discriminate]].
  destruct (io_ok env (Readdir x)); simpl;
    [|exists Unopened; split; [reflexivity | split; discriminate]].
  destruct (io_ok env Launch) eqn:Hl; simpl; rewrite ?Hl; simpl;
    [|exists Unopened; split; [reflexivity | split; discriminate]].
  destruct (loop_end env _); simpl; rewrite ?Hl; simpl;
    try (exists Opened; split; [reflexivity | split; reflexivity]).
  destruct (io_ok env BrowserClose); simpl; rewrite ?Hl; simpl;
    [|exists Released; split; [reflexivity | split; discriminate]].
  exists Released. split; [reflexivity|].
  destruct (io_ok env (Rm x)); simpl; rewrite ?Hl; simpl; split; discriminate.
Qed.

(** With every call resolving, the run begins with [setup_trace]. *)
Lemma main_setup_prefix env cfg :
  (forall c, io_ok env c = true) ->
  exists t, trace_of (main env cfg) = (setup_trace env cfg ++ t)%list.
Proof.
  intros Hok. destruct (point_eq_dec (loop_end env (selected env cfg)) Closed) as [E|E].
  - rewrite (main_closed env Hok cfg E). eexists. reflexivity.
  - rewrite (main_rejected env Hok cfg E). eexists. reflexivity.
Qed.

(** A run of the loop that reached [Closed] has completed every job. *)
Lemma closed_completed sheets conc outcome st :
  reachable sheets conc outcome st -> pc st = Closed ->
  Permutation (completed st) (seq 0 (length sheets)).
Proof.
  intros R Hc. destruct (inv_reachable sheets conc outcome st R) as [Hids _ _ _ Hok].
  unfold pc_ok in Hok. rewrite Hc in Hok. destruct Hok as [Hp Hn].
  rewrite Hp, Hn in Hids. exact Hids.
Qed.

(** ** Properties *)

(** C10: The archive is closed exactly once, after every call of the
    extraction loop, whatever the entries and the file system do once
    [yauzl.open] has resolved; the download directory is removed only when
    every entry was extracted and the archive closed, and otherwise [unzip]
    rejects with nothing after the close. *)
Theorem unzip_closes_archive env zp :
  io_ok env (Mkdtemp (join (tmpdir env) "gs2imgx-")) = true ->
  io_ok env (ZipOpen zp) = true ->
  exists r,
    trace_of (unzip env zp) =
      ([Mkdtemp (join (tmpdir env) "gs2imgx-"); ZipOpen zp] ++
       trace_of (extract_entries env (extracted_dir env) (entries env)) ++ ZipClose :: r)%list /\
    ~ In ZipClose (trace_of (extract_entries env (extracted_dir env) (entries env))) /\
    ((r = [Rm (dirname zp)] /\
      result_of (extract_entries env (extracted_dir env) (entries env)) = Done tt /\
      io_ok env ZipClose = true) \/
     (r = [] /\ exists e, result_of (unzip env zp) = Thrown e)).
Proof.
  intros Hx Hz.
  assert (Hnc := not_in_acquiring ZipClose _ eq_refl
                   (extract_entries_acquiring env (extracted_dir env) (entries env))).
  unfold unzip, mkdtemp, io. rewrite Hx. simpl. rewrite Hz. simpl.
  fold (extracted_dir env).
  destruct (extract_entries env (extracted_dir env) (entries env)) as [t [[]|e]];
    destruct (io_ok env ZipClose) eqn:Hc; simpl in *;
    [destruct (io_ok env (Rm (dirname zp)))| | |]; simpl;
    eexists; (split; [rewrite <- ?app_assoc; reflexivity|]); split; auto;
    right; split; eauto.
Qed.

(** C29: A failed download is fatal: when [fetch] rejects, the run
    throws its error right away, without extracting, listing, launching
    the browser or rendering anything, and the download directory it
    created is left behind. *)
Theorem fetch_failure_fatal env cfg :
  io_ok env (Mkdtemp (join (tmpdir env) "gs2imgz-")) = true ->
  io_ok env (Fetch (export_url (sheetID cfg))) = false ->
  main env cfg =
    ([Mkdtemp (join (tmpdir env) "gs2imgz-"); Fetch (export_url (sheetID cfg))],
     Thrown (IOError (Fetch (export_url (sheetID cfg))))).
Proof.
  intros Hm Hf. unfold main, download, mkdtemp, io. rewrite Hm. simpl. rewrite Hf. reflexivity.
Qed.

(** C30: A failed extraction is fatal: when a call of the extraction loop
    rejects, the archive is still closed, the run throws that error, the
    browser is never launched, and neither temporary directory is
    removed. *)
Theorem extraction_failure_fatal env cfg zp e :
  result_of (download env (sheetID cfg)) = Done zp ->
  io_ok env (Mkdtemp (join (tmpdir env) "gs2imgx-")) = true ->
  io_ok env (ZipOpen zp) = true -> io_ok env ZipClose = true ->
  result_of (extract_entries env (extracted_dir env) (entries env)) = Thrown e ->
  result_of (main env cfg) = Thrown e /\
  In ZipClose (trace_of (main env cfg)) /\
  ~ In Launch (trace_of (main env cfg)) /\
  (forall p, ~ In (Rm p) (trace_of (main env cfg))).
Proof.
  intros Hd Hx Hz Hc He.
  assert (Hdl := download_acquiring env (sheetID cfg)).
  assert (Hel := extract_entries_acquiring env (extracted_dir env) (entries env)).
  unfold main. destruct (download env (sheetID cfg)) as [td rd]. simpl in Hd, Hdl. subst rd.
  unfold unzip, mkdtemp, io. rewrite Hx. simpl. rewrite Hz. simpl. fold (extracted_dir env).
  destruct (extract_entries env (extracted_dir env) (entries env)) as [t r].
  simpl in He, Hel. subst r. rewrite Hc. simpl.
  split; [reflexivity|].
  split; [apply in_or_app; right; right; right; apply in_or_app; right; left; reflexivity|].
  split; [|intros p]; not_in_trace.
Qed.

(** C8: End to end, per-tab errors stay per-tab.  When every file-system,
    network and browser call of the main chain resolves and the page of
    every selected sheet opens, navigates and closes, whatever the layout,
    resize and capture of each page do, the run downloads and extracts the
    archive, removes the download directory, renders every selected sheet,
    then closes the browser and removes the extracted directory, and
    resolves. *)
Theorem main_completes env cfg pages st :
  (forall c, io_ok env c = true) ->
  (forall s, In s (selected env cfg) -> page_ok (pages s)) ->
  loop_run env cfg pages st ->
  main env cfg =
    (setup_trace env cfg ++
     [RenderLoop (extracted_dir env) (normalize (outputDir cfg)) (selected env cfg);
      BrowserClose; Rm (extracted_dir env)], Done tt)%list.
Proof.
  intros Hok Hpages [R [Hstop Hend]]. apply main_closed; [exact Hok|].
  assert (Hall : forall j, j < length (selected env cfg) ->
            job_outcome (extracted_dir env) (normalize (outputDir cfg)) pages (selected env cfg) j
            = Fulfilled)
    by (intros j Hj; apply job_outcome_fulfilled, Hpages, nth_In, Hj).
  rewrite Hend. exact (proj1 (fulfilled_run_stops_closed _ _ _ st Hall R Hstop)).
Qed.

(** C9: A page that fails to open, navigate or close makes the whole run
    throw after the browser was launched: the browser is never closed and
    the extracted directory never removed, although the specification
    requires the orchestrator to release both exactly once even when
    rendering partially fails. *)
Theorem job_rejection_leaks env cfg pages st s :
  (forall c, io_ok env c = true) ->
  In s (selected env cfg) -> ~ page_ok (pages s) ->
  loop_run env cfg pages st ->
  main env cfg =
    (setup_trace env cfg ++
     [RenderLoop (extracted_dir env) (normalize (outputDir cfg)) (selected env cfg)],
     Thrown JobRejected)%list /\
  In Launch (trace_of (main env cfg)) /\ ~ In BrowserClose (trace_of (main env cfg)).
Proof.
  intros Hok Hin Hbad [R [Hstop Hend]].
  destruct (In_nth _ _ ""%string Hin) as [i [Hi Hs]]. subst s.
  assert (Hc : pc st = Crashed)
    by exact (rejected_run_stops_crashed _ _ _ st i Hi (job_outcome_rejected _ _ _ _ _ Hbad) R Hstop).
  assert (E := main_rejected env Hok cfg ltac:(rewrite Hend, Hc; discriminate)).
  assert (Hl := entry_calls_acquiring (extracted_dir env) (entries env)).
  rewrite E. split; [reflexivity|]. cbn [trace_of fst].
  split; [apply in_or_app; left | ]; unfold setup_trace;
    [rewrite !in_app_iff; simpl; tauto | not_in_trace].
Qed.

(** [unzip] removes exactly the directory [download] created: for a
    [tmpdir()] made of plain segments, a [mkdtemp] suffix and a sheet id
    without ['/'], [dirname(zipPath)] is the download directory, and a run
    whose calls all resolve removes it. *)
Theorem download_dir_removed env cfg tsegs :
  (forall c, io_ok env c = true) ->
  tmpdir env = abs_path tsegs -> Forall (fun s => plain_segment s = true) tsegs ->
  no_slash (temp_name env (join (tmpdir env) "gs2imgz-")) = true ->
  no_slash (sheetID cfg) = true ->
  dirname (zip_path env cfg) = download_dir env /\
  In (Rm (download_dir env)) (trace_of (main env cfg)).
Proof.
  intros Hok Ht Hs Hx Hid.
  assert (Hd : dirname (zip_path env cfg) = download_dir env).
  { unfold zip_path. rewrite (download_dir_abs env tsegs Ht Hs Hx).
    rewrite join_abs_plain by (apply plain_zip_name, Hid || (apply Forall_app; split;
      [exact Hs | repeat constructor; apply plain_temp_dir, Hx])).
    apply dirname_abs_snoc; [|apply plain_zip_name, Hid].
    apply Forall_app. split; [exact Hs | repeat constructor; apply plain_temp_dir, Hx]. }
  split; [exact Hd|]. destruct (main_setup_prefix env cfg Hok) as [t ->].
  rewrite <- Hd. unfold setup_trace. rewrite !in_app_iff. simpl. tauto.
Qed.

(** The sheet id is not checked: with [tmpdir()] ["/tmp"] and the id
    ["../x"], the archive is written to ["/tmp/x.zip"] and [unzip] runs
    [rm("/tmp", { recursive: true })]. *)
Example sheet_id_escapes_tmpdir :
  let env := mk_io_env "/tmp" (fun _ => "Xa31Qz") ["Sheet1.html"] ["Sheet1.html"]
               (fun _ => true) (fun _ => Closed) in
  let cfg := mk_config "../x" "out" COther COther 2 in
  zip_path env cfg = "/tmp/x.zip" /\ In (Rm "/tmp") (trace_of (main env cfg)).
Proof. vm_compute. split; [reflexivity|]. repeat (solve [left; reflexivity] || right). Qed.

(** C34: The run follows the typestate of the archive and of the
    browser, whatever the file system, the network, the archive and the
    render loop do: no entry is read outside [yauzl.open] ... [zip.close()],
    the loop runs only in a launched browser, each is closed at most once.
    The archive is never left open, and the browser is left running
    exactly when the run throws because a job rejected. *)
Theorem resources_typestate env cfg :
  exists r,
    protocol_run (resource_step env) (mk_resources Unopened Unopened) (trace_of (main env cfg))
      = Some r /\
    zip_res r <> Opened /\
    (browser_res r = Opened <-> result_of (main env cfg) = Thrown JobRejected).
Proof.
  unfold main. rewrite protocol_run_bind, result_bind, download_resources.
  destruct (result_of (download env (sheetID cfg))) as [zp|e] eqn:Ed.
  - rewrite protocol_run_bind, result_bind.
    destruct (unzip_resources env zp Unopened) as [z [Hu [Hz _]]]. rewrite Hu.
    destruct (result_of (unzip env zp)) as [x|e] eqn:Eu.
    + destruct (render_phase_resources env cfg x z) as [b [Hr Hb]]. rewrite Hr.
      exists (mk_resources z b). split; [reflexivity | split; [exact Hz | exact Hb]].
    + exists (mk_resources z Unopened). split; [reflexivity | split; [exact Hz|]]. simpl.
      split; [discriminate | intros E; inversion E; subst].
      exfalso. exact (io_error_not_rejected _ (unzip_throws env zp JobRejected Eu) eq_refl).
  - exists (mk_resources Unopened Unopened). split; [reflexivity | split; [discriminate|]]. simpl.
    split; [discriminate | intros E; inversion E; subst].
    exfalso. exact (io_error_not_rejected _ (download_throws env (sheetID cfg) JobRejected Ed) eq_refl).
Qed.

(** C22: In a run whose render loop completes, [Promise.all] has waited for
    the job of every selected sheet: each job opened its page and released
    it by [page.close()], and only then does the run call
    [browser.close()] and remove the extracted directory. *)
Theorem completed_run_closes_every_page env cfg pages st :
  (forall c, io_ok env c = true) -> loop_run env cfg pages st -> pc st = Closed ->
  (forall s, In s (selected env cfg) ->
     protocol_run (page_step (pages s)) Unopened
       (trace_of (screenshot (join (extracted_dir env) (s ++ ".html"))
                    (join (normalize (outputDir cfg)) (s ++ ".jpg")) (pages s))) = Some Released) /\
  exists t, trace_of (main env cfg) =
    (t ++ [RenderLoop (extracted_dir env) (normalize (outputDir cfg)) (selected env cfg);
           BrowserClose; Rm (extracted_dir env)])%list.
Proof.
  intros Hok [R [_ Hend]] Hclosed. split.
  - intros s Hs. destruct (In_nth _ _ ""%string Hs) as [i [Hi <-]].
    assert (Hin : In i (completed st))
      by (apply (Permutation_in _ (Permutation_sym (closed_completed _ _ _ st R Hclosed))), in_seq; lia).
    pose proof (completed_fulfilled _ _ _ st i R Hin) as Hf.
    unfold job_outcome, job_of in Hf. apply settle_iff in Hf as (Hn & Hg & _).
    apply page_released; assumption.
  - rewrite (main_closed env Hok cfg) by (rewrite Hend; exact Hclosed). eexists. reflexivity.
Qed.

(** ** Concrete runs *)

(** A spreadsheet with one tab, its archive holding the tab's page and a
    resource directory. *)
Definition sample_env (ok : io_call -> bool) (le : list string -> point) : io_env :=
  mk_io_env "/tmp" (fun _ => "Xa31Qz")
    ["Sheet1.html"; "resources/"; "resources/sheet.css"] ["Sheet1.html"; "resources"] ok le.

Definition sample_cfg : config := mk_config "1AbC-x_9" "out" COther COther 1.

Definition sample_page (goto : bool) : page_env := mk_page_env true goto None None true true true.

Definition sample_closed_state : state :=
  set_pc (set_pc (set_pc (fulfil_job (push_job 1 init) 0) AtLoop) AtAll) Closed.

Lemma completed_run_closes_every_page_witness :
  protocol_run (page_step (sample_page true)) Unopened
    (trace_of (screenshot "/tmp/gs2imgx-Xa31Qz/Sheet1.html" "out/Sheet1.jpg" (sample_page true)))
  = Some Released.
Proof.
  set (env := sample_env (fun _ => true) (fun _ => Closed)).
  assert (Hrun : loop_run env sample_cfg (fun _ => sample_page true) sample_closed_state).
  { split; [apply one_sheet_closed; reflexivity|].
    split; [intros st'; apply final_no_step; left; reflexivity | reflexivity]. }
  exact (proj1 (completed_run_closes_every_page env sample_cfg (fun _ => sample_page true) sample_closed_state
                  (fun _ => eq_refl) Hrun eq_refl) "Sheet1" (or_introl eq_refl)).
Defined.

Lemma main_completes_witness :
  result_of (main (sample_env (fun _ => true) (fun _ => Closed)) sample_cfg) = Done tt.
Proof.
  set (env := sample_env (fun _ => true) (fun _ => Closed)).
  set (pages := fun _ : string => sample_page true).
  set (st := set_pc (set_pc (set_pc (fulfil_job (push_job 1 init) 0) AtLoop) AtAll) Closed).
  assert (Hok : forall c, io_ok env c = true) by reflexivity.
  assert (Hp : forall s, In s (selected env sample_cfg) -> page_ok (pages s))
    by (intros s _; repeat split).
  assert (Hrun : loop_run env sample_cfg pages st).
  { split; [apply one_sheet_closed; reflexivity|].
    split; [intros st'; apply final_no_step; left; reflexivity | reflexivity]. }
  rewrite (main_completes env sample_cfg pages st Hok Hp Hrun). reflexivity.
Defined.

Lemma job_rejection_leaks_witness :
  ~ In BrowserClose (trace_of (main (sample_env (fun _ => true) (fun _ => Crashed)) sample_cfg)).
Proof.
  set (env := sample_env (fun _ => true) (fun _ => Crashed)).
  set (pages := fun _ : string => sample_page false).
  set (st := set_pc (reject_job (push_job 1 init) 0) Crashed).
  assert (Hok : forall c, io_ok env c = true) by reflexivity.
  assert (Hin : In "Sheet1" (selected env sample_cfg)) by (left; reflexivity).
  assert (Hbad : ~ page_ok (pages "Sheet1")) by (intros [_ [H _]]; discriminate).
  assert (Hrun : loop_run env sample_cfg pages st).
  { split; [apply one_sheet_crashed; reflexivity|].
    split; [intros st'; apply final_no_step; right; reflexivity | reflexivity]. }
  exact (proj2 (proj2 (job_rejection_leaks env sample_cfg pages st "Sheet1" Hok Hin Hbad Hrun))).
Defined.

Lemma unzip_closes_archive_witness :
  let env := sample_env (fun c => match c with WriteFile _ => false | _ => true end) (fun _ => Closed) in
  exists r,
    trace_of (unzip env "/tmp/gs2imgz-Xa31Qz/1AbC-x_9.zip") =
      ([Mkdtemp "/tmp/gs2imgx-"; ZipOpen "/tmp/gs2imgz-Xa31Qz/1AbC-x_9.zip"] ++
       trace_of (extract_entries env (extracted_dir env) (entries env)) ++ ZipClose :: r)%list /\
    ~ In ZipClose (trace_of (extract_entries env (extracted_dir env) (entries env))) /\
    ((r = [Rm "/tmp/gs2imgz-Xa31Qz"] /\
      result_of (extract_entries env (extracted_dir env) (entries env)) = Done tt /\
      io_ok env ZipClose = true) \/
     (r = [] /\ exists e, result_of (unzip env "/tmp/gs2imgz-Xa31Qz/1AbC-x_9.zip") = Thrown e)).
Proof.
  intros env. exact (unzip_closes_archive env "/tmp/gs2imgz-Xa31Qz/1AbC-x_9.zip" eq_refl eq_refl).
Defined.

Lemma fetch_failure_fatal_witness :
  let env := sample_env (fun c => match c with Fetch _ => false | _ => true end) (fun _ => Closed) in
  ~ In Launch (trace_of (main env sample_cfg)).
Proof.
  intros env. rewrite (fetch_failure_fatal env sample_cfg eq_refl eq_refl).
  simpl. intros [H|[H|[]]]; discriminate.
Defined.

Lemma extraction_failure_fatal_witness :
  let env := sample_env (fun c => match c with OpenReadStream _ => false | _ => true end)
               (fun _ => Closed) in
  result_of (main env sample_cfg) = Thrown (IOError (OpenReadStream "Sheet1.html")).
Proof.
  intros env.
  exact (proj1 (extraction_failure_fatal env sample_cfg (zip_path env sample_cfg)
                  (IOError (OpenReadStream "Sheet1.html")) eq_refl eq_refl eq_refl eq_refl eq_refl)).
Defined.

Lemma download_dir_removed_witness :
  In (Rm "/tmp/gs2imgz-Xa31Qz")
     (trace_of (main (sample_env (fun _ => true) (fun _ => Closed)) sample_cfg)).
Proof.
  exact (proj2 (download_dir_removed (sample_env (fun _ => true) (fun _ => Closed)) sample_cfg
                  ["tmp"] (fun _ => eq_refl) eq_refl ltac:(repeat constructor) eq_refl eq_refl)).
Defined.

End Main.
