(* ===== verification/FsState.v ===== *)
(** * FsState: paths, directories and archive entries of Node's [fs]

    The file system of a run is the list of paths that exist (directories
    and files), as the calls name them with a trailing ['/'] dropped
    ([resolve]).  This file gives the operations of Node's [fs] on it:
    the paths [mkdir(p, { recursive: true })] creates ([mkdir_p]), the
    paths [rm(p, { recursive: true })] removes ([under]), the names
    [readdir(d)] lists ([readdir], [child_name]), the test that a path
    exists ([exists_path]), and the paths that extracting an archive entry
    creates ([entry_paths], lines 26-34).  [FsRun] applies the calls of a
    run of [main] to this state.

    The lemmas turn the string tests of [rm] and [readdir] on absolute
    paths of plain segments into prefix tests on their lists of segments
    ([under_abs], [child_abs], [mkdir_p_abs]) and describe the paths of
    each archive entry ([entry_paths_abs]). *)

From Stdlib Require Import String Ascii List Arith Lia Permutation.
From S2P Require Import Prelude NodePath NodeJoin Selector Scheduler Main.
Import ListNotations.
Import NodePath NodeJoin Selector Scheduler Main.
Open Scope string_scope.
Open Scope bool_scope.

Module FsState.

Create HintDb fs.

(** ** The file system *)

Definition fs := list string.

(** [Some r] when [s] is [pre ++ r]. *)
Fixpoint strip_prefix (pre s : string) : option string :=
  match pre, s with
  | EmptyString, _ => Some s
  | String a pre', String b s' => if Ascii.eqb a b then strip_prefix pre' s' else None
  | String _ _, EmptyString => None
  end.

(** The prefix of the paths under the directory [d]. *)
Definition dir_prefix (d : string) : string := if String.eqb d "/" then d else d ++ "/".

(** [p] is [d] or lies under [d]. *)
Definition under (d p : string) : bool :=
  String.eqb p d || match strip_prefix (dir_prefix d) p with Some _ => true | None => false end.

(** The path a call names, as [fs] resolves it: without a trailing ['/']. *)
Definition resolve (p : string) : string :=
  if ends_with_slash p && negb (String.eqb p "/")
  then substring 0 (String.length p - 1) p else p.

(** [p] and the directories above it, up to the root. *)
Fixpoint ancestors (fuel : nat) (p : string) : list string :=
  match fuel with
  | 0 => []
  | S f => p :: (let d := dirname p in if String.eqb d p then [] else ancestors f d)
  end.

(** [mkdir(p, { recursive: true })] *)
Definition mkdir_p (p : string) : list string :=
  let q := resolve p in ancestors (S (String.length q)) q.

(** The path [p] exists. *)
Definition exists_path (s : fs) (p : string) : bool := existsb (String.eqb (resolve p)) s.

(** The name of [q] in the directory [d], when [q] is one segment under it. *)
Definition child_name (d q : string) : option string :=
  match strip_prefix (dir_prefix d) q with
  | Some r => if no_slash r && negb (String.eqb r "") then Some r else None
  | None => None
  end.

(** [readdir(d)] *)
Definition readdir (s : fs) (d : string) : list string :=
  nodup string_dec (flat_map (fun q => match child_name d q with Some r => [r] | None => [] end) s).

(** ** Archive entries

    An entry name is a relative path of plain segments, with a trailing
    ['/'] for a directory entry ([yauzl] rejects absolute names and [".."]
    segments). *)

Definition entry_segs (e : string) : list string := split_slash (resolve e).

Definition entry_ok (e : string) : bool := forallb plain_segment (entry_segs e).

(** The entry's name in the extracted directory. *)
Definition top_name (e : string) : string := hd "" (entry_segs e).

(** The paths that extracting the entry [e] into [x] creates. *)
Definition entry_paths (x e : string) : list string :=
  let target := join x e in
  if ends_with_slash e then mkdir_p target
  else (mkdir_p (dirname target) ++ [resolve target])%list.

(** The paths that [mkdir(p, { recursive: true })] creates lie outside [d]. *)
Definition outside (d p : string) : Prop := forall a, In a (mkdir_p p) -> under d a = false.

(** ** Lemmas on prefixes *)

Lemma strip_prefix_app pre r : strip_prefix pre (pre ++ r) = Some r.
Proof. induction pre as [|a pre IH]; [destruct r; reflexivity|]. simpl. rewrite Ascii.eqb_refl. exact IH. Qed.

Lemma strip_prefix_some pre s r : strip_prefix pre s = Some r -> s = pre ++ r.
Proof.
  revert s. induction pre as [|a pre IH]; intros s H; simpl in *; [congruence|].
  destruct s as [|b s]; [discriminate|].
  destruct (Ascii.eqb_spec a b); [subst; f_equal; apply IH, H | discriminate].
Qed.

(** ** Lemmas on absolute paths of plain segments *)

Local Abbreviation plain l := (Forall (fun s => plain_segment s = true) l).

Section Plain.

Lemma plain_no_slash_all l : plain l -> Forall (fun s => no_slash s = true) l.
Proof. intros H. eapply Forall_impl; [|exact H]. auto with gs. Qed.

Lemma abs_path_app xs ys :
  xs <> [] -> ys <> [] -> abs_path (xs ++ ys)%list = abs_path xs ++ String "/" (String.concat "/" ys).
Proof. intros Hx Hy. unfold abs_path. rewrite concat_app by assumption. reflexivity. Qed.

(** The segments of an absolute path. *)
Lemma split_abs_path zs : zs <> [] -> plain zs -> split_slash (String.concat "/" zs) = zs.
Proof. intros Hz Hs. apply split_slash_concat; [exact Hz | apply plain_no_slash_all, Hs]. Qed.

Lemma abs_path_concat xs zs : abs_path xs = abs_path zs -> String.concat "/" xs = String.concat "/" zs.
Proof. unfold abs_path. intros E. injection E as E. exact E. Qed.

Lemma abs_path_nil_not zs : zs <> [] -> plain zs -> abs_path zs <> "/".
Proof.
  intros Hz Hs E. apply (concat_not_empty zs Hz Hs).
  exact (abs_path_concat zs [] E).
Qed.

Lemma abs_path_inj xs zs : plain xs -> plain zs -> abs_path xs = abs_path zs -> xs = zs.
Proof.
  intros Hx Hz E. destruct xs as [|a xs], zs as [|b zs]; [reflexivity| | |].
  - exfalso. apply (abs_path_nil_not (b :: zs)); [discriminate | exact Hz | symmetry; exact E].
  - exfalso. apply (abs_path_nil_not (a :: xs)); [discriminate | exact Hx | exact E].
  - apply abs_path_concat in E.
    rewrite <- (split_abs_path (a :: xs)), <- (split_abs_path (b :: zs)), E by (discriminate || assumption).
    reflexivity.
Qed.

(** A path strictly under [abs_path xs] extends its segments. *)
Lemma strip_abs xs zs r :
  xs <> [] -> plain xs -> plain zs ->
  strip_prefix (abs_path xs ++ "/") (abs_path zs) = Some r ->
  exists cs, cs <> [] /\ zs = (xs ++ cs)%list /\ r = String.concat "/" cs.
Proof.
  intros Hx Hxs Hzs H. apply strip_prefix_some in H.
  assert (E : String.concat "/" zs = String.concat "/" xs ++ String "/" r)
    by (unfold abs_path in H; cbn [append] in H; injection H as H; rewrite append_assoc in H; exact H).
  clear H. destruct zs as [|z zs].
  - exfalso. simpl in E. destruct (String.concat "/" xs); discriminate.
  - assert (Hsp := f_equal split_slash E).
    rewrite split_abs_path in Hsp by (discriminate || exact Hzs).
    rewrite split_slash_app_slash, split_abs_path in Hsp by assumption.
    exists (split_slash r). split; [destruct (split_slash_cons r) as [? [? ->]]; discriminate|].
    split; [exact Hsp | symmetry; apply concat_split].
Qed.

Lemma dir_prefix_abs xs : xs <> [] -> plain xs -> dir_prefix (abs_path xs) = abs_path xs ++ "/".
Proof.
  intros Hx Hxs. unfold dir_prefix.
  destruct (String.eqb_spec (abs_path xs) "/") as [E|_]; [destruct (abs_path_nil_not xs Hx Hxs E) | reflexivity].
Qed.

(** [rm(abs_path xs)] removes the paths that extend [xs], the root
    included. *)
Lemma under_abs_app xs cs : under (abs_path xs) (abs_path (xs ++ cs)) = true.
Proof.
  unfold under. destruct cs as [|c cs]; [rewrite app_nil_r, String.eqb_refl; reflexivity|].
  apply Bool.orb_true_iff. right. destruct xs as [|x xs].
  - unfold dir_prefix. simpl. reflexivity.
  - rewrite abs_path_app by discriminate. unfold dir_prefix.
    destruct (String.eqb_spec (abs_path (x :: xs)) "/") as [E|_].
    + unfold abs_path in *. simpl in E |- *. injection E as E. rewrite E. reflexivity.
    + change (String "/" (String.concat "/" (c :: cs))) with ("/" ++ String.concat "/" (c :: cs)).
      rewrite <- append_assoc, strip_prefix_app. reflexivity.
Qed.

Lemma under_abs xs zs :
  xs <> [] -> plain xs -> plain zs ->
  under (abs_path xs) (abs_path zs) = true <-> exists cs, zs = (xs ++ cs)%list.
Proof.
  intros Hx Hxs Hzs. split; [|intros [cs ->]; apply under_abs_app].
  unfold under. rewrite dir_prefix_abs by assumption. intros H. apply Bool.orb_true_iff in H as [H|H].
  - apply String.eqb_eq, abs_path_inj in H; [|assumption..]. exists []. rewrite app_nil_r. exact H.
  - destruct (strip_prefix _ _) eqn:E; [|discriminate].
    destruct (strip_abs xs zs s Hx Hxs Hzs E) as [cs [_ [-> _]]]. eauto.
Qed.

(** The entries of a directory of plain segments. *)
Lemma child_abs xs zs r :
  xs <> [] -> plain xs -> plain zs ->
  child_name (abs_path xs) (abs_path zs) = Some r <-> zs = (xs ++ [r])%list /\ plain_segment r = true.
Proof.
  intros Hx Hxs Hzs. unfold child_name. rewrite dir_prefix_abs by assumption. split.
  - destruct (strip_prefix _ _) as [r'|] eqn:E; [|discriminate].
    destruct (no_slash r' && negb (String.eqb r' "")) eqn:Hr; [|discriminate]. intros H. inversion H; subst r'.
    apply andb_prop in Hr as [Hns Hne].
    destruct (strip_abs xs zs r Hx Hxs Hzs E) as [cs [Hcs [-> Hr]]].
    assert (Hc : cs = [r]).
    { rewrite <- (split_abs_path cs), <- Hr by (exact Hcs || (apply Forall_app in Hzs; tauto)).
      apply split_slash_no_slash, Hns. }
    subst cs. split; [reflexivity|]. apply Forall_app in Hzs as [_ Hr']. inversion Hr'; assumption.
  - intros [-> Hr]. rewrite abs_path_app by (assumption || discriminate).
    change (String "/" (String.concat "/" [r])) with ("/" ++ r). rewrite <- append_assoc, strip_prefix_app.
    unfold plain_segment in Hr. destruct (no_slash r), (String.eqb r ""); simpl in *;
      rewrite ?Bool.andb_false_r in Hr; try discriminate; reflexivity.
Qed.

Lemma plain_firstn k l : plain l -> plain (firstn k l).
Proof. intros H. rewrite <- (firstn_skipn k l) in H. apply Forall_app in H. tauto. Qed.

Lemma plain_app l1 l2 : plain l1 -> plain l2 -> plain (l1 ++ l2)%list.
Proof. intros; apply Forall_app; auto. Qed.

Lemma ends_with_slash_abs zs : zs <> [] -> plain zs -> ends_with_slash (abs_path zs) = false.
Proof.
  intros Hz Hs. unfold abs_path. change ("/" ++ String.concat "/" zs) with (String "/" (String.concat "/" zs)).
  rewrite ends_with_slash_cons by (apply concat_not_empty; assumption).
  apply ends_with_slash_concat; assumption.
Qed.

Lemma resolve_abs zs : plain zs -> resolve (abs_path zs) = abs_path zs.
Proof.
  intros Hs. destruct zs as [|z zs]; [reflexivity|].
  unfold resolve. rewrite ends_with_slash_abs by (discriminate || exact Hs). reflexivity.
Qed.

Lemma length_append_slash s : String.length (s ++ "/") = S (String.length s).
Proof. induction s; simpl; congruence. Qed.

Lemma substring_prefix s t : substring 0 (String.length s) (s ++ t) = s.
Proof. induction s as [|c s IH]; [destruct t; reflexivity | simpl; rewrite IH; reflexivity]. Qed.

Lemma resolve_slash s : s <> "" -> resolve (s ++ "/") = s.
Proof.
  intros Hs. unfold resolve. rewrite ends_with_slash_app_slash_end.
  destruct (String.eqb_spec (s ++ "/") "/") as [E|E].
  - exfalso. destruct s as [|a s]; [congruence|]. injection E as _ E. destruct s; discriminate.
  - simpl. rewrite length_append_slash. simpl. rewrite Nat.sub_0_r. apply substring_prefix.
Qed.

Lemma ends_with_slash_inv e : ends_with_slash e = true -> exists s, e = s ++ "/".
Proof.
  induction e as [|c e IH]; [discriminate|]. intros H. destruct e as [|d e].
  - simpl in H. apply Ascii.eqb_eq in H. subst c. exists "". reflexivity.
  - destruct (IH H) as [s ->]. exists (String c s). reflexivity.
Qed.

(** An absolute path of plain segments is longer than its list of segments. *)
Lemma length_concat_plain zs : plain zs -> length zs <= String.length (String.concat "/" zs).
Proof.
  induction zs as [|a zs IH]; intros Hs; [simpl; lia|]. inversion Hs as [|? ? Ha Hl]; subst.
  destruct zs as [|b zs].
  - simpl. destruct a; [apply plain_not_empty in Ha; congruence | simpl; lia].
  - change (String.concat "/" (a :: b :: zs)) with (a ++ String "/" (String.concat "/" (b :: zs))).
    rewrite length_append. simpl. specialize (IH Hl). simpl in IH. lia.
Qed.

(** The prefixes of [L ++ [a]] are [L ++ [a]] and the prefixes of [L]. *)
Lemma in_prefixes_snoc L a q :
  (abs_path (L ++ [a]) = q \/ exists k, k <= length L /\ q = abs_path (firstn k L)) <->
  exists k, k <= length (L ++ [a]) /\ q = abs_path (firstn k (L ++ [a])).
Proof.
  rewrite length_app. simpl. split.
  - intros [<-|[k [Hk ->]]].
    + exists (length L + 1). split; [lia|]. rewrite firstn_all2 by (rewrite length_app; simpl; lia). reflexivity.
    + exists k. split; [lia|]. rewrite firstn_app. replace (k - length L) with 0 by lia.
      rewrite app_nil_r. reflexivity.
  - intros [k [Hk ->]]. destruct (Nat.eq_dec k (length L + 1)) as [->|Hk'].
    + left. rewrite firstn_all2 by (rewrite length_app; simpl; lia). reflexivity.
    + right. exists k. split; [lia|]. rewrite firstn_app. replace (k - length L) with 0 by lia.
      rewrite app_nil_r. reflexivity.
Qed.

(** [ancestors] of an absolute path lists the paths of its prefixes. *)
Lemma ancestors_abs n ys p :
  plain ys -> length ys < n ->
  In p (ancestors n (abs_path ys)) <-> exists k, k <= length ys /\ p = abs_path (firstn k ys).
Proof.
  revert ys. induction n as [|n IH]; intros ys Hs Hn; [lia|].
  destruct ys as [|y ys' _] using rev_ind.
  - simpl. split; [intros [<-|[]]; exists 0; auto | intros [k [Hk ->]]; left; destruct k; reflexivity].
  - apply Forall_app in Hs as [Hs Hy]. inversion Hy as [|? ? Hy' _]; subst.
    rewrite length_app in Hn. cbn [length ancestors] in Hn |- *.
    rewrite dirname_abs_snoc by assumption.
    destruct (String.eqb_spec (abs_path ys') (abs_path (ys' ++ [y]))) as [E|_].
    { apply abs_path_inj in E; [|assumption|apply plain_app; auto].
      apply (f_equal (@length _)) in E. rewrite length_app in E. simpl in E. lia. }
    cbn [In]. rewrite (IH ys') by (assumption || lia). apply in_prefixes_snoc.
Qed.

Lemma mkdir_p_abs ys p :
  plain ys ->
  In p (mkdir_p (abs_path ys)) <-> exists k, k <= length ys /\ p = abs_path (firstn k ys).
Proof.
  intros Hs. unfold mkdir_p. rewrite resolve_abs by exact Hs. apply ancestors_abs; [exact Hs|].
  pose proof (length_concat_plain ys Hs). unfold abs_path. simpl. lia.
Qed.

Lemma mkdir_p_abs_slash ys p :
  ys <> [] -> plain ys ->
  In p (mkdir_p (abs_path ys ++ "/")) <-> exists k, k <= length ys /\ p = abs_path (firstn k ys).
Proof.
  intros Hy Hs. rewrite <- mkdir_p_abs by exact Hs. unfold mkdir_p.
  rewrite resolve_slash, resolve_abs by (exact Hs || unfold abs_path; discriminate). reflexivity.
Qed.

(** ** Lemmas on the state *)

Lemma strip_prefix_length pre s r :
  strip_prefix pre s = Some r -> String.length s = String.length pre + String.length r.
Proof. intros H. apply strip_prefix_some in H. subst. apply length_append. Qed.

Lemma child_name_self d : child_name d d = None.
Proof.
  unfold child_name, dir_prefix. destruct (String.eqb_spec d "/") as [->|_]; [reflexivity|].
  destruct (strip_prefix (d ++ "/") d) eqn:E; [|reflexivity].
  apply strip_prefix_length in E. rewrite length_append in E. simpl in E. lia.
Qed.

Lemma child_under d q r : child_name d q = Some r -> under d q = true.
Proof.
  unfold child_name, under. destruct (strip_prefix _ _); [intros _; apply Bool.orb_true_r | discriminate].
Qed.

Lemma child_name_plain d q r : child_name d q = Some r -> no_slash r = true.
Proof.
  unfold child_name. destruct (strip_prefix _ _) as [r'|]; [|discriminate].
  destruct (no_slash r') eqn:E; simpl; [|discriminate].
  destruct (negb _); [intros H; inversion H; subst; exact E | discriminate].
Qed.

Lemma readdir_In s d n : In n (readdir s d) <-> exists q, In q s /\ child_name d q = Some n.
Proof.
  unfold readdir. rewrite nodup_In, in_flat_map. split.
  - intros [q [Hq Hn]]. exists q. split; [exact Hq|].
    destruct (child_name d q); [destruct Hn as [<-|[]]; reflexivity | destruct Hn].
  - intros [q [Hq Hn]]. exists q. rewrite Hn. split; [exact Hq | left; reflexivity].
Qed.

Lemma readdir_no_slash s d : Forall (fun n => no_slash n = true) (readdir s d).
Proof.
  apply Forall_forall. intros n Hn. apply readdir_In in Hn as [q [_ Hq]].
  exact (child_name_plain d q n Hq).
Qed.

Lemma in_mkdir_p_self p : In (resolve p) (mkdir_p p).
Proof. left. reflexivity. Qed.

Lemma exists_path_In s p : exists_path s p = true <-> In (resolve p) s.
Proof.
  unfold exists_path. rewrite existsb_exists. split.
  - intros [q [Hq E]]. apply String.eqb_eq in E. subst q. exact Hq.
  - intros H. exists (resolve p). split; [exact H | apply String.eqb_refl].
Qed.

(** ** Lemmas on entries *)

Lemma entry_shape e :
  entry_ok e = true ->
  entry_segs e <> [] /\ plain (entry_segs e) /\
  e = (if ends_with_slash e then String.concat "/" (entry_segs e) ++ "/" else String.concat "/" (entry_segs e)).
Proof.
  unfold entry_ok. rewrite forallb_forall, <- Forall_forall. intros Hs.
  split; [destruct (split_slash_cons (resolve e)) as [? [? E]]; unfold entry_segs; rewrite E; discriminate|].
  split; [exact Hs|]. unfold entry_segs. rewrite concat_split.
  destruct (ends_with_slash e) eqn:He.
  - destruct (ends_with_slash_inv e He) as [s ->]. destruct s as [|c s].
    + exfalso. inversion Hs as [|? ? H _]. discriminate.
    + rewrite resolve_slash by discriminate. reflexivity.
  - unfold resolve. rewrite He. reflexivity.
Qed.

(** Extracting an entry into a directory of plain segments creates the
    paths of the prefixes of the entry's path, down to the directory's
    parent and its root. *)
Lemma entry_paths_abs xs e q :
  xs <> [] -> plain xs -> entry_ok e = true ->
  In q (entry_paths (abs_path xs) e) <->
  exists k, k <= length (xs ++ entry_segs e) /\ q = abs_path (firstn k (xs ++ entry_segs e)).
Proof.
  intros Hx Hxs He. destruct (entry_shape e He) as [Hne [Hs Hshape]].
  set (segs := entry_segs e) in *. clearbody segs.
  unfold entry_paths. destruct (ends_with_slash e) eqn:Hend; rewrite Hshape.
  - rewrite join_abs_rel_slash by assumption.
    apply mkdir_p_abs_slash; [destruct xs; [congruence | discriminate] | apply plain_app; assumption].
  - rewrite join_abs_rel by assumption.
    destruct (exists_last Hne) as [init [l Hl]]. rewrite Hl in *.
    apply Forall_app in Hs as [Hinit Hl']. inversion Hl' as [|? ? Hl'' _]; subst.
    rewrite app_assoc, dirname_abs_snoc, resolve_abs
      by (first [assumption | repeat apply plain_app; auto]).
    rewrite in_app_iff, mkdir_p_abs by (apply plain_app; assumption).
    rewrite <- in_prefixes_snoc. simpl. intuition.
Qed.

(** The paths that [firstn] keeps of two sibling paths. *)
Lemma sibling_neq (t : list string) a b l cs : a <> b -> (t ++ a :: l)%list <> (t ++ b :: cs)%list.
Proof. intros Hab E. apply app_inv_head in E. injection E as E _. exact (Hab E). Qed.

Lemma firstn_sibling (t : list string) a b l k cs :
  a <> b -> firstn k (t ++ a :: l) <> (t ++ b :: cs)%list.
Proof.
  intros Hab E. apply (f_equal (firstn (length t + 1))) in E.
  rewrite firstn_firstn, firstn_app_2 in E. simpl in E.
  destruct (le_lt_dec (length t + 1) k) as [Hk|Hk].
  - rewrite Nat.min_l, firstn_app_2 in E by exact Hk. simpl in E.
    apply app_inv_head in E. injection E as E. exact (Hab E).
  - rewrite Nat.min_r in E by lia. apply (f_equal (@length _)) in E.
    rewrite length_firstn, !length_app in E. simpl in E. lia.
Qed.

(** The name of a child of a directory is the first segment after it. *)
Lemma firstn_child (L segs : list string) k n :
  firstn k (L ++ segs) = (L ++ [n])%list -> n = hd "" segs.
Proof.
  intros E. pose proof (firstn_skipn k (L ++ segs)) as F. rewrite E, <- app_assoc in F.
  apply app_inv_head in F. rewrite <- F. reflexivity.
Qed.

Lemma firstn_top (L segs : list string) :
  segs <> [] -> firstn (length L + 1) (L ++ segs) = (L ++ [hd "" segs])%list.
Proof. intros Hs. rewrite firstn_app_2. destruct segs; [congruence | reflexivity]. Qed.


End Plain.

End FsState.
