(* ===== verification/FsRun.v ===== *)
(** * FsRun: runs of [main] on a file system

    The calls of a run of [Main.main] applied to the file system of
    [FsState], after Node's [fs] module ([fs_apply]): [mkdtemp(prefix)]
    creates [prefix + suffix]; [pipeline(..., createWriteStream(p))]
    creates the file [p]; [mkdir] with [recursive] creates a path and its
    ancestors; [rm] with [recursive] removes a path and everything under
    it; the other calls leave the state alone.  A call changes the state
    when it resolves ([io_ok]); a call that rejects changes nothing
    ([fs_run]).  [fs_pre] says which paths a call needs (Node rejects it
    with [ENOENT] otherwise), and [fs_safe] that every call of a trace
    finds them.  The images that the browser writes are added in
    [RunOutput].

    The theorems: what [readdir(extractedDir)] lists in a run, which paths
    a completed or an aborted run leaves behind, that every call finds the
    paths it needs, and what the sheet id ["../" ++ n] does to
    [tmpdir()]. *)

From Stdlib Require Import String Ascii List Arith Lia Permutation.
From S2P Require Import Prelude NodePath NodeJoin Selector Scheduler Main FsState.
Import ListNotations.
Import NodePath NodeJoin Selector Scheduler Main FsState.
Open Scope string_scope.
Open Scope bool_scope.

Module FsRun.

Local Abbreviation plain l := (Forall (fun s => plain_segment s = true) l).

(** ** Running calls on the file system *)

(** The effect of a call that resolved. *)
Definition fs_apply (env : io_env) (s : fs) (c : io_call) : fs :=
  match c with
  | Mkdtemp prefix => (prefix ++ temp_name env prefix) :: s
  | WriteFile p => resolve p :: s
  | Mkdir p => (mkdir_p p ++ s)%list
  | Rm p => filter (fun q => negb (under (resolve p) q)) s
  | _ => s
  end.

(** The state after the calls of a trace. *)
Definition fs_run (env : io_env) (s : fs) (t : list io_call) : fs :=
  fold_left (fun s c => if io_ok env c then fs_apply env s c else s) t s.

(** A call finds the paths it needs, or Node rejects it with [ENOENT]:
    [mkdtemp(prefix)] the directory of [prefix], [createWriteStream(p)]
    the directory of [p], [yauzl.open(p)] the file [p], [readdir(p)] the
    directory [p].  [mkdir] with [recursive] and [rm] with [force] need
    nothing. *)
Definition fs_pre (s : fs) (c : io_call) : bool :=
  match c with
  | Mkdtemp prefix => exists_path s (dirname prefix)
  | WriteFile p => exists_path s (dirname p)
  | ZipOpen p | Readdir p => exists_path s p
  | _ => true
  end.

(** Every call of a trace finds the paths it needs in the state the calls
    before it leave. *)
Fixpoint fs_safe (env : io_env) (s : fs) (t : list io_call) : bool :=
  match t with
  | [] => true
  | c :: t' => fs_pre s c && fs_safe env (if io_ok env c then fs_apply env s c else s) t'
  end.

(** The calls of a run in which every call resolves, before
    [readdir(extractedDir)]. *)
Definition pre_readdir (env : io_env) (cfg : config) : list io_call :=
  [Mkdtemp (join (tmpdir env) "gs2imgz-"); Fetch (export_url (sheetID cfg));
   WriteFile (zip_path env cfg);
   Mkdtemp (join (tmpdir env) "gs2imgx-"); ZipOpen (zip_path env cfg)] ++
  flat_map (entry_calls (extracted_dir env)) (entries env) ++
  [ZipClose; Rm (dirname (zip_path env cfg)); Mkdir (normalize (outputDir cfg))].

(** ** Lemmas on runs of calls *)

Lemma fs_run_app env s t1 t2 : fs_run env s (t1 ++ t2) = fs_run env (fs_run env s t1) t2.
Proof. apply fold_left_app. Qed.

Lemma in_rm env d q s : In q (fs_apply env s (Rm d)) <-> In q s /\ under (resolve d) q = false.
Proof. simpl. rewrite filter_In, Bool.negb_true_iff. reflexivity. Qed.

Lemma fs_safe_app env s t1 t2 :
  fs_safe env s (t1 ++ t2) = fs_safe env s t1 && fs_safe env (fs_run env s t1) t2.
Proof.
  revert s. induction t1 as [|c t1 IH]; intros s; [reflexivity|].
  simpl. rewrite IH, Bool.andb_assoc. reflexivity.
Qed.

(** [fs_safe] says what it means: the call at every position of the trace
    finds what it needs in the state that the calls before it leave. *)
Lemma fs_safe_iff env s t :
  fs_safe env s t = true <->
  forall pre c post, t = (pre ++ c :: post)%list -> fs_pre (fs_run env s pre) c = true.
Proof.
  revert s. induction t as [|c t IH]; intros s; simpl.
  - split; [intros _ [|] ? ? E; discriminate | reflexivity].
  - rewrite Bool.andb_true_iff, IH. split.
    + intros [Hc Ht] [|a pre] c' post E; injection E as <- E; [exact Hc|].
      exact (Ht pre c' post E).
    + intros H. split; [exact (H [] c t eq_refl)|].
      intros pre c' post E. exact (H (c :: pre) c' post (f_equal (cons c) E)).
Qed.

(** Calls that need no path. *)
Definition needs_nothing (c : io_call) : bool :=
  match c with Mkdtemp _ | WriteFile _ | ZipOpen _ | Readdir _ => false | _ => true end.

Lemma fs_safe_needs_nothing env s t : forallb needs_nothing t = true -> fs_safe env s t = true.
Proof.
  revert s. induction t as [|c t IH]; intros s H; [reflexivity|].
  simpl in H. apply andb_prop in H as [Hc Ht].
  simpl. rewrite IH by exact Ht. destruct c; try discriminate; reflexivity.
Qed.

(** The effect of the calls of one entry and of the extraction loop. *)
Section Extraction.
Variable env : io_env.
Hypothesis Hok : forall c, io_ok env c = true.

Lemma fs_run_ok_cons s c t : fs_run env s (c :: t) = fs_run env (fs_apply env s c) t.
Proof. unfold fs_run. cbn [fold_left]. rewrite Hok. reflexivity. Qed.

Lemma fs_run_entry s x e p :
  In p (fs_run env s (entry_calls x e)) <-> In p s \/ In p (entry_paths x e).
Proof.
  unfold entry_calls, entry_paths. destruct (ends_with_slash e); rewrite !fs_run_ok_cons;
    cbn [fs_apply fs_run fold_left In]; rewrite ?in_app_iff; cbn [In]; tauto.
Qed.

Lemma fs_run_entries s x es p :
  In p (fs_run env s (flat_map (entry_calls x) es)) <->
  In p s \/ exists e, In e es /\ In p (entry_paths x e).
Proof.
  revert s. induction es as [|e es IH]; intros s; simpl.
  - split; [auto | intros [H|[_ [[] _]]]; exact H].
  - rewrite fs_run_app, IH, fs_run_entry. split.
    + intros [[H|H]|[e' [He' H]]]; eauto.
    + intros [H|[e' [[<-|He'] H]]]; eauto.
Qed.

Lemma fs_safe_ok_cons s c t : fs_safe env s (c :: t) = fs_pre s c && fs_safe env (fs_apply env s c) t.
Proof. simpl. rewrite Hok. reflexivity. Qed.

(** [mkdir(dirname(targetPath))] before [createWriteStream(targetPath)]:
    the calls of an entry find what they need, whatever the state. *)
Lemma fs_safe_entry s x e : fs_safe env s (entry_calls x e) = true.
Proof.
  unfold entry_calls. destruct (ends_with_slash e); rewrite !fs_safe_ok_cons;
    cbn [fs_pre fs_apply fs_safe]; rewrite ?Bool.andb_true_r; [reflexivity|].
  apply exists_path_In, in_or_app. left. apply in_mkdir_p_self.
Qed.

Lemma fs_safe_entries s x es : fs_safe env s (flat_map (entry_calls x) es) = true.
Proof.
  revert s. induction es as [|e es IH]; intros s; [reflexivity|].
  simpl. rewrite fs_safe_app, fs_safe_entry, IH. reflexivity.
Qed.

End Extraction.

(** ** The position of [readdir] in a run *)

Lemma app_cons_unique {A} (c : A) pre post l1 l2 :
  ~ In c l1 -> ~ In c l2 -> (pre ++ c :: post)%list = (l1 ++ c :: l2)%list -> pre = l1.
Proof.
  revert l1. induction pre as [|a pre IH]; intros [|b l1] H1 H2 E; simpl in *.
  - reflexivity.
  - injection E as E1 _. exfalso. apply H1. left. symmetry. exact E1.
  - injection E as E1 E2. exfalso. apply H2. rewrite <- E2. apply in_or_app. right. left. reflexivity.
  - injection E as E1 E2. subst b. f_equal. apply IH; auto.
Qed.

Lemma setup_trace_split env cfg :
  setup_trace env cfg = (pre_readdir env cfg ++ [Readdir (extracted_dir env); Launch])%list.
Proof. unfold setup_trace, pre_readdir. rewrite <- !app_assoc. reflexivity. Qed.

Lemma readdir_not_in_pre env cfg d : ~ In (Readdir d) (pre_readdir env cfg).
Proof.
  unfold pre_readdir. rewrite !in_app_iff, in_flat_map.
  intros [H|[[e [_ H]]|H]]; [| unfold entry_calls in H; destruct (ends_with_slash e) |];
    simpl in H; intuition discriminate.
Qed.

(** In a run whose calls all resolve, [readdir(extractedDir)] is called
    once, after the calls of [pre_readdir]. *)
Lemma main_readdir env cfg pre post :
  (forall c, io_ok env c = true) ->
  trace_of (main env cfg) = (pre ++ Readdir (extracted_dir env) :: post)%list ->
  pre = pre_readdir env cfg.
Proof.
  intros Hok E. destruct (point_eq_dec (loop_end env (selected env cfg)) Closed) as [Hc|Hc];
    [rewrite (main_closed env Hok cfg Hc) in E | rewrite (main_rejected env Hok cfg Hc) in E];
    cbn [trace_of fst] in E; rewrite setup_trace_split, <- !app_assoc in E;
    symmetry in E; cbn [app] in E;
    refine (app_cons_unique _ _ _ _ _ (readdir_not_in_pre env cfg _) _ E);
    simpl; intuition discriminate.
Qed.

(** ** A run of [main] on a file system

    The hypotheses of a realistic run: [tmpdir()] is an absolute path of
    plain segments, the [mkdtemp] suffixes and the sheet id have no ['/'],
    the entry names are relative paths of plain segments, the temporary
    directories are new ([mkdtemp] creates them), and the output directory
    lies outside them. *)
Section Run.
Variables (env : io_env) (cfg : config) (fs0 : fs) (tsegs : list string).
Hypothesis Hok : forall c, io_ok env c = true.
Hypothesis Ht : tmpdir env = abs_path tsegs.
Hypothesis Hts : plain tsegs.
Hypothesis Hz : no_slash (temp_name env (join (tmpdir env) "gs2imgz-")) = true.
Hypothesis Hx : no_slash (temp_name env (join (tmpdir env) "gs2imgx-")) = true.
Hypothesis Hid : no_slash (sheetID cfg) = true.
Hypothesis Hes : forallb entry_ok (entries env) = true.
Hypothesis Hfresh : forall p, In p fs0 -> under (download_dir env) p = false /\ under (extracted_dir env) p = false.
Hypothesis Houtz : outside (download_dir env) (normalize (outputDir cfg)).
Hypothesis Houtx : outside (extracted_dir env) (normalize (outputDir cfg)).

Local Abbreviation zname := ("gs2imgz-" ++ temp_name env (join (tmpdir env) "gs2imgz-")).
Local Abbreviation xname := ("gs2imgx-" ++ temp_name env (join (tmpdir env) "gs2imgx-")).
Local Abbreviation zsegs := (tsegs ++ [zname])%list.
Local Abbreviation xsegs := (tsegs ++ [xname])%list.

Lemma zname_xname : zname <> xname.
Proof. intros E. inversion E. Qed.

Lemma plain_zsegs : plain zsegs.
Proof. apply plain_app; [exact Hts | repeat constructor; exact Hz]. Qed.

Lemma plain_xsegs : plain xsegs.
Proof. apply plain_app; [exact Hts | repeat constructor; exact Hx]. Qed.

Lemma xsegs_not_nil : xsegs <> [].
Proof. destruct tsegs; discriminate. Qed.

Lemma zsegs_not_nil : zsegs <> [].
Proof. destruct tsegs; discriminate. Qed.

Lemma plain_zip_segs : plain (zsegs ++ [String.append (sheetID cfg) ".zip"])%list.
Proof. apply plain_app; [exact plain_zsegs | repeat constructor; apply plain_zip_name, Hid]. Qed.

#[local] Hint Resolve plain_zsegs plain_xsegs xsegs_not_nil zsegs_not_nil plain_zip_segs zname_xname : fs.

Lemma download_dir_segs : download_dir env = abs_path zsegs.
Proof. apply download_dir_abs; assumption. Qed.

Lemma extracted_dir_segs : extracted_dir env = abs_path xsegs.
Proof.
  unfold extracted_dir. rewrite Ht in *.
  rewrite join_abs_plain by (exact Hts || reflexivity). apply abs_path_snoc_app.
Qed.

Lemma zip_path_segs : zip_path env cfg = abs_path (zsegs ++ [String.append (sheetID cfg) ".zip"]).
Proof.
  unfold zip_path. rewrite download_dir_segs.
  apply join_abs_plain; [exact plain_zsegs | apply plain_zip_name, Hid].
Qed.

Lemma dirname_zip_path : dirname (zip_path env cfg) = download_dir env.
Proof.
  rewrite zip_path_segs, download_dir_segs.
  apply dirname_abs_snoc; [exact plain_zsegs | apply plain_zip_name, Hid].
Qed.

(** The entries' paths lie in the extracted directory, not in the download
    directory. *)
Lemma entry_path_segs e q :
  In e (entries env) -> In q (entry_paths (extracted_dir env) e) ->
  exists k, k <= length (xsegs ++ entry_segs e) /\ q = abs_path (firstn k (xsegs ++ entry_segs e)).
Proof.
  intros He Hq. rewrite extracted_dir_segs in Hq.
  unfold is_true in Hes. rewrite forallb_forall in Hes.
  apply (entry_paths_abs xsegs e q xsegs_not_nil plain_xsegs (Hes e He)), Hq.
Qed.

Lemma plain_entry e : In e (entries env) -> plain (xsegs ++ entry_segs e).
Proof.
  intros He. rewrite forallb_forall in Hes.
  apply plain_app; [exact plain_xsegs | apply (entry_shape e (Hes e He))].
Qed.

Lemma entry_path_not_in_download e q :
  In e (entries env) -> In q (entry_paths (extracted_dir env) e) -> under (download_dir env) q = false.
Proof.
  intros He Hq. destruct (entry_path_segs e q He Hq) as [k [_ ->]].
  apply Bool.not_true_is_false. rewrite download_dir_segs, under_abs
    by (auto with fs || apply plain_firstn, plain_entry, He).
  intros [cs E]. rewrite <- !app_assoc in E. simpl in E.
  exact (firstn_sibling tsegs xname zname _ k cs (fun E' => zname_xname (eq_sym E')) E).
Qed.

Lemma extracted_dir_not_in_download : under (download_dir env) (extracted_dir env) = false.
Proof.
  apply Bool.not_true_is_false. rewrite download_dir_segs, extracted_dir_segs, under_abs by auto with fs.
  intros [cs E]. rewrite <- app_assoc in E.
  exact (sibling_neq tsegs xname zname [] cs (fun E' => zname_xname (eq_sym E')) E).
Qed.

Lemma resolve_zip_path : resolve (zip_path env cfg) = zip_path env cfg.
Proof. rewrite zip_path_segs. apply resolve_abs, plain_zip_segs. Qed.

Lemma resolve_download_dir : resolve (download_dir env) = download_dir env.
Proof. rewrite download_dir_segs. apply resolve_abs, plain_zsegs. Qed.

Lemma resolve_extracted_dir : resolve (extracted_dir env) = extracted_dir env.
Proof. rewrite extracted_dir_segs. apply resolve_abs, plain_xsegs. Qed.

Lemma dirname_temp_prefix pre : plain_segment pre = true -> dirname (join (tmpdir env) pre) = tmpdir env.
Proof. intros H. rewrite Ht, join_abs_plain, dirname_abs_snoc by assumption. reflexivity. Qed.

Lemma resolve_tmpdir : resolve (tmpdir env) = tmpdir env.
Proof. rewrite Ht. apply resolve_abs, Hts. Qed.

(** The calls before [readdir] find what they need. *)
Lemma setup_safe : In (tmpdir env) fs0 -> fs_safe env fs0 (pre_readdir env cfg) = true.
Proof.
  intros Htmp. unfold pre_readdir. rewrite !fs_safe_app, !(fs_safe_ok_cons env Hok), (fs_safe_entries env Hok).
  cbn [fs_pre fs_apply fs_safe]. rewrite !Bool.andb_true_r, !Bool.andb_true_iff, !exists_path_In.
  rewrite !dirname_temp_prefix, resolve_tmpdir, dirname_zip_path, resolve_download_dir, resolve_zip_path
    by reflexivity.
  unfold download_dir. cbv zeta. simpl. tauto.
Qed.

(** The state after the calls up to the render loop. *)
Lemma setup_fs p :
  In p (fs_run env fs0 (pre_readdir env cfg)) <->
  In p (mkdir_p (normalize (outputDir cfg))) \/
  ((In p fs0 \/ p = extracted_dir env \/ p = zip_path env cfg \/ p = download_dir env \/
    exists e, In e (entries env) /\ In p (entry_paths (extracted_dir env) e)) /\
   under (download_dir env) p = false).
Proof.
  unfold pre_readdir. rewrite !fs_run_app.
  repeat rewrite (fs_run_ok_cons env Hok).
  cbn [fs_apply fs_run fold_left].
  rewrite in_app_iff, filter_In, Bool.negb_true_iff, dirname_zip_path, resolve_download_dir,
    (fs_run_entries env Hok), resolve_zip_path.
  cbn [In]. unfold download_dir, extracted_dir. cbv zeta. intuition congruence.
Qed.

Lemma setup_state : fs_run env fs0 (setup_trace env cfg) = fs_run env fs0 (pre_readdir env cfg).
Proof. rewrite setup_trace_split, fs_run_app, !(fs_run_ok_cons env Hok). reflexivity. Qed.

Lemma entry_segs_plain e : In e (entries env) -> entry_segs e <> [] /\ plain (entry_segs e).
Proof.
  intros He. rewrite forallb_forall in Hes. destruct (entry_shape e (Hes e He)) as [H1 [H2 _]]. auto.
Qed.

Lemma top_entry_path e :
  In e (entries env) -> In (abs_path (xsegs ++ [top_name e])) (entry_paths (extracted_dir env) e).
Proof.
  intros He. destruct (entry_segs_plain e He) as [Hne _]. rewrite forallb_forall in Hes.
  rewrite extracted_dir_segs, entry_paths_abs by auto with fs.
  exists (length xsegs + 1). rewrite firstn_top by exact Hne. split; [|reflexivity].
  rewrite !length_app. destruct (entry_segs e); [congruence | cbn [length]; lia].
Qed.

Lemma top_name_plain e : In e (entries env) -> plain_segment (top_name e) = true.
Proof.
  intros He. destruct (entry_segs_plain e He) as [Hne Hs]. unfold top_name.
  destruct (entry_segs e); [congruence | inversion Hs; assumption].
Qed.

(** The children of the extracted directory before [readdir]: the first
    segments of the entries' names. *)
Lemma setup_children n :
  (exists q, In q (fs_run env fs0 (pre_readdir env cfg)) /\ child_name (extracted_dir env) q = Some n) <->
  exists e, In e (entries env) /\ top_name e = n.
Proof.
  split.
  - intros [q [Hq Hc]]. pose proof (child_under _ _ _ Hc) as Hu.
    apply setup_fs in Hq as [Hq|[[Hq|[->|[->|[->|[e [He Hq]]]]]] _]].
    + rewrite (Houtx q Hq) in Hu. discriminate.
    + rewrite (proj2 (Hfresh q Hq)) in Hu. discriminate.
    + rewrite child_name_self in Hc. discriminate.
    + rewrite extracted_dir_segs, zip_path_segs, child_abs in Hc by auto with fs.
      destruct Hc as [E _]. rewrite <- !app_assoc in E.
      destruct (sibling_neq tsegs zname xname _ _ zname_xname E).
    + rewrite extracted_dir_segs, download_dir_segs, child_abs in Hc by auto with fs.
      destruct Hc as [E _]. rewrite <- !app_assoc in E.
      destruct (sibling_neq tsegs zname xname _ _ zname_xname E).
    + exists e. split; [exact He|]. destruct (entry_path_segs e q He Hq) as [k [_ ->]].
      rewrite extracted_dir_segs, child_abs in Hc by (auto with fs || apply plain_firstn, plain_entry, He).
      destruct Hc as [E _]. symmetry. exact (firstn_child _ _ _ _ E).
  - intros [e [He <-]]. exists (abs_path (xsegs ++ [top_name e])). split.
    + apply setup_fs. right. split.
      * right; right; right; right. exists e. split; [exact He | apply top_entry_path, He].
      * exact (entry_path_not_in_download e _ He (top_entry_path e He)).
    + rewrite extracted_dir_segs, child_abs by (auto with fs || apply plain_app; auto with fs;
        repeat constructor; apply top_name_plain, He).
      split; [reflexivity | apply top_name_plain, He].
Qed.

(** C36: When every call resolves, the listing that [readdir(extractedDir)]
    returns in a run of [main] names exactly the first segments of the
    archive's entries: the extraction loop writes every entry under the
    extracted directory, and nothing else of the run lies there. *)
Theorem readdir_lists_top_names pre post n :
  trace_of (main env cfg) = (pre ++ Readdir (extracted_dir env) :: post)%list ->
  In n (readdir (fs_run env fs0 pre) (extracted_dir env)) <->
  exists e, In e (entries env) /\ top_name e = n.
Proof.
  intros E. rewrite (main_readdir env cfg pre post Hok E), readdir_In. apply setup_children.
Qed.

(** C37: When [readdir] returns the extracted directory's entries, in any
    order, the sheets that the run renders are distinct, and a name is one
    of them iff the archive has a top-level entry [name ++ ".html"], the
    name is not empty and it passes the allow and deny lists. *)
Theorem rendered_sheets_from_archive :
  Permutation (listing env) (readdir (fs_run env fs0 (setup_trace env cfg)) (extracted_dir env)) ->
  NoDup (selected env cfg) /\
  forall s, In s (selected env cfg) <->
    (exists e, In e (entries env) /\ top_name e = String.append s ".html") /\ s <> "" /\
    spec_pass (cfg_list (includeSheets cfg)) (cfg_list (excludeSheets cfg)) s.
Proof.
  intros Hp. rewrite setup_state in Hp.
  assert (Hns : Forall (fun f => no_slash f = true) (listing env)).
  { apply Forall_forall. intros f Hf. apply (Permutation_in _ Hp) in Hf.
    exact (proj1 (Forall_forall _ _) (readdir_no_slash _ _) f Hf). }
  split.
  - apply sheet_names_NoDup; [|exact Hns].
    apply (Permutation_NoDup (Permutation_sym Hp)), NoDup_nodup.
  - intros s. unfold selected, sheet_names. rewrite select_In, tab_ids_In_iff by exact Hns.
    rewrite <- setup_children, <- readdir_In. split.
    + intros [[H1 H2] H3]. split; [apply (Permutation_in _ Hp), H1 | split; assumption].
    + intros [H1 [H2 H3]]. split; [split; [apply (Permutation_in _ (Permutation_sym Hp)), H1 | exact H2] | exact H3].
Qed.

(** C38: A run whose render loop completes leaves nothing of its two
    temporary directories, keeps every path that existed before, and
    leaves the output directory in place. *)
Theorem completed_run_removes_temp_dirs :
  loop_end env (selected env cfg) = Closed ->
  (forall p, In p (fs_run env fs0 (trace_of (main env cfg))) ->
     under (download_dir env) p = false /\ under (extracted_dir env) p = false) /\
  incl fs0 (fs_run env fs0 (trace_of (main env cfg))) /\
  In (resolve (normalize (outputDir cfg))) (fs_run env fs0 (trace_of (main env cfg))).
Proof.
  intros Hc. rewrite (main_closed env Hok cfg Hc). cbn [trace_of fst].
  rewrite fs_run_app, setup_state, !(fs_run_ok_cons env Hok). cbn [fs_apply fs_run fold_left].
  rewrite resolve_extracted_dir. repeat split.
  - apply filter_In in H as [H _]. apply setup_fs in H as [H|[_ H]]; [exact (Houtz p H) | exact H].
  - apply filter_In in H as [_ H]. apply Bool.negb_true_iff, H.
  - intros p Hp. apply filter_In. rewrite Bool.negb_true_iff. split; [|apply Hfresh, Hp].
    apply setup_fs. right. split; [left; exact Hp | apply Hfresh, Hp].
  - apply filter_In. rewrite Bool.negb_true_iff. split; [apply setup_fs; left; apply in_mkdir_p_self|].
    apply Houtx, in_mkdir_p_self.
Qed.

(** C39: A run aborted by a rejected job leaves the extracted directory
    and every path the extraction created behind, while the download
    directory is gone. *)
Theorem rejected_run_leaves_extracted_tree :
  loop_end env (selected env cfg) <> Closed ->
  In (extracted_dir env) (fs_run env fs0 (trace_of (main env cfg))) /\
  (forall e p, In e (entries env) -> In p (entry_paths (extracted_dir env) e) ->
     In p (fs_run env fs0 (trace_of (main env cfg)))) /\
  (forall p, In p (fs_run env fs0 (trace_of (main env cfg))) -> under (download_dir env) p = false).
Proof.
  intros Hc. rewrite (main_rejected env Hok cfg Hc). cbn [trace_of fst].
  rewrite fs_run_app, setup_state, !(fs_run_ok_cons env Hok). cbn [fs_apply fs_run fold_left].
  repeat split.
  - apply setup_fs. right. split; [right; left; reflexivity | apply extracted_dir_not_in_download].
  - intros e p He Hp. apply setup_fs. right. split; [eauto 10 | exact (entry_path_not_in_download e p He Hp)].
  - intros p Hp. apply setup_fs in Hp as [Hp|[_ Hp]]; [exact (Houtz p Hp) | exact Hp].
Qed.

(** C40: No call of a run rejects for a missing path: when [tmpdir()]
    exists and every call resolves, each call of [main] finds the paths it
    needs in the state the calls before it leave ([mkdtemp] its parent
    directory, every [createWriteStream] its directory, [yauzl.open] the
    archive, [readdir] the extracted directory), whatever the order of the
    archive's entries: [mkdir(dirname(targetPath))] precedes every write
    of the extraction. *)
Theorem run_finds_its_paths pre c post :
  In (tmpdir env) fs0 ->
  trace_of (main env cfg) = (pre ++ c :: post)%list ->
  fs_pre (fs_run env fs0 pre) c = true.
Proof.
  intros Htmp. revert pre c post. apply fs_safe_iff.
  destruct (point_eq_dec (loop_end env (selected env cfg)) Closed) as [Hc|Hc];
    [rewrite (main_closed env Hok cfg Hc) | rewrite (main_rejected env Hok cfg Hc)];
    cbn [trace_of fst]; rewrite setup_trace_split, <- app_assoc, fs_safe_app, setup_safe by exact Htmp;
    cbn [app]; rewrite (fs_safe_ok_cons env Hok), fs_safe_needs_nothing by reflexivity;
    cbn [fs_pre andb]; rewrite Bool.andb_true_r, exists_path_In, resolve_extracted_dir;
    apply setup_fs; right; (split; [right; left; reflexivity | apply extracted_dir_not_in_download]).
Qed.

End Run.

(** ** A sheet id that climbs out of the download directory

    The sheet id is joined into the archive's path unchecked (line 14),
    and [unzip] removes [dirname(zipPath)] recursively (line 41). *)
Section Escape.
Variables (env : io_env) (cfg : config) (fs0 : fs) (tsegs : list string) (n : string).
Hypothesis Hok : forall c, io_ok env c = true.
Hypothesis Ht : tmpdir env = abs_path tsegs.
Hypothesis Hts : plain tsegs.
Hypothesis Hz : no_slash (temp_name env (join (tmpdir env) "gs2imgz-")) = true.
Hypothesis Hx : no_slash (temp_name env (join (tmpdir env) "gs2imgx-")) = true.
Hypothesis Hid : sheetID cfg = String "." (String "." (String "/" n)).
Hypothesis Hn : no_slash n = true.
Hypothesis Hout : outside (tmpdir env) (normalize (outputDir cfg)).

Lemma plain_temp_dir_x x : no_slash x = true -> plain_segment ("gs2imgx-" ++ x) = true.
Proof. intros H. unfold plain_segment. simpl. exact H. Qed.

(** With the sheet id ["../" ++ n], [dirname(zipPath)] is [tmpdir()]. *)
Lemma escape_zip_dirname : dirname (zip_path env cfg) = tmpdir env.
Proof.
  unfold zip_path. rewrite (download_dir_abs env tsegs Ht Hts Hz), Hid.
  change (String "." (String "." (String "/" n)) ++ ".zip") with (String "." (String "." (String "/" (n ++ ".zip")))).
  rewrite join_abs_parent, dirname_abs_snoc, Ht by (exact Hts || apply plain_temp_dir, Hz || apply plain_zip_name, Hn).
  reflexivity.
Qed.

Lemma escape_state p : In p (fs_run env fs0 (pre_readdir env cfg)) -> under (tmpdir env) p = false.
Proof.
  unfold pre_readdir. rewrite !fs_run_app. repeat rewrite (fs_run_ok_cons env Hok).
  cbn [fs_apply fs_run fold_left]. rewrite in_app_iff, filter_In, Bool.negb_true_iff, escape_zip_dirname.
  assert (Hr : resolve (tmpdir env) = tmpdir env) by (rewrite Ht; apply resolve_abs, Hts).
  rewrite Hr. intros [H|[_ H]]; [exact (Hout p H) | exact H].
Qed.

(** C31: An unchecked sheet id wipes [tmpdir()]: with the sheet id
    ["../" ++ n], [unzip] removes [tmpdir()] itself, so that when
    [readdir(extractedDir)] is called nothing is left under [tmpdir()] (no
    file other programs kept there, not the extracted directory), and the
    [readdir] has no directory to list: Node rejects it with [ENOENT]. *)
Theorem sheet_id_parent_wipes_tmpdir pre post :
  trace_of (main env cfg) = (pre ++ Readdir (extracted_dir env) :: post)%list ->
  (forall p, In p (fs_run env fs0 pre) -> under (tmpdir env) p = false) /\
  fs_pre (fs_run env fs0 pre) (Readdir (extracted_dir env)) = false.
Proof.
  intros E. rewrite (main_readdir env cfg pre post Hok E). split; [exact escape_state|].
  apply Bool.not_true_is_false. cbn [fs_pre]. rewrite exists_path_In. intros H.
  apply escape_state in H. revert H. apply Bool.eq_true_false_abs.
  unfold extracted_dir. cbv zeta. set (sfx := temp_name env (join (tmpdir env) "gs2imgx-")) in *.
  rewrite Ht, join_abs_plain, abs_path_snoc_app by (exact Hts || reflexivity).
  rewrite resolve_abs by (apply plain_app; [exact Hts | constructor; [apply plain_temp_dir_x, Hx | constructor]]).
  apply under_abs_app.
Qed.

End Escape.

(** ** Concrete runs

    The sample spreadsheet of [Main] on a file system holding ["/"] and
    ["/tmp"], with the output directory ["out"]. *)

Definition sample_fs : fs := ["/"; "/tmp"].

Local Ltac sample_hyps :=
  lazymatch goal with
  | |- forall c : io_call, _ => intros c; reflexivity
  | |- forall p : string, In p _ -> _ =>
      let p := fresh in let H := fresh in
      intros p H; repeat (destruct H as [<-|H]; [split; vm_compute; reflexivity|]); destruct H
  | |- outside _ _ =>
      let a := fresh in let H := fresh in
      intros a H; vm_compute in H; repeat (destruct H as [<-|H]; [vm_compute; reflexivity|]); destruct H
  | |- Forall _ _ => repeat (apply Forall_cons; [reflexivity|]); apply Forall_nil
  | |- _ => vm_compute; reflexivity
  end.

Lemma readdir_lists_top_names_witness :
  In "resources"
    (readdir (fs_run (sample_env (fun _ => true) (fun _ => Closed)) sample_fs
                (pre_readdir (sample_env (fun _ => true) (fun _ => Closed)) sample_cfg))
       (extracted_dir (sample_env (fun _ => true) (fun _ => Closed)))).
Proof.
  refine (proj2 (readdir_lists_top_names (sample_env (fun _ => true) (fun _ => Closed)) sample_cfg
                   sample_fs ["tmp"] _ _ _ _ _ _ _ _ _ _
                   [Launch; RenderLoop "/tmp/gs2imgx-Xa31Qz" "out" ["Sheet1"]; BrowserClose;
                    Rm "/tmp/gs2imgx-Xa31Qz"] "resources" _) _).
  all: try solve [sample_hyps].
  exists "resources/". split; [right; left; reflexivity | reflexivity].
Defined.

Lemma rendered_sheets_from_archive_witness :
  NoDup (selected (sample_env (fun _ => true) (fun _ => Closed)) sample_cfg).
Proof.
  refine (proj1 (rendered_sheets_from_archive (sample_env (fun _ => true) (fun _ => Closed))
                   sample_cfg sample_fs ["tmp"] _ _ _ _ _ _ _ _ _ _)); try solve [sample_hyps].
  vm_compute. apply perm_swap.
Defined.

Lemma completed_run_removes_temp_dirs_witness :
  incl sample_fs (fs_run (sample_env (fun _ => true) (fun _ => Closed)) sample_fs
                    (trace_of (main (sample_env (fun _ => true) (fun _ => Closed)) sample_cfg))).
Proof.
  refine (proj1 (proj2 (completed_run_removes_temp_dirs (sample_env (fun _ => true) (fun _ => Closed))
                          sample_cfg sample_fs ["tmp"] _ _ _ _ _ _ _ _ _ _))); solve [sample_hyps].
Defined.

Lemma run_finds_its_paths_witness :
  fs_pre (fs_run (sample_env (fun _ => true) (fun _ => Closed)) sample_fs
            (pre_readdir (sample_env (fun _ => true) (fun _ => Closed)) sample_cfg))
    (Readdir "/tmp/gs2imgx-Xa31Qz") = true.
Proof.
  refine (run_finds_its_paths (sample_env (fun _ => true) (fun _ => Closed)) sample_cfg sample_fs ["tmp"]
            _ _ _ _ _ _ _ _
            [Launch; RenderLoop "/tmp/gs2imgx-Xa31Qz" "out" ["Sheet1"]; BrowserClose;
             Rm "/tmp/gs2imgx-Xa31Qz"] _ _); try solve [sample_hyps].
  right. left. reflexivity.
Defined.

(** The sample spreadsheet with the sheet id ["../x"], on a [/tmp]
    holding another program's file. *)
Definition escape_cfg : config := mk_config "../x" "out" COther COther (concurrency sample_cfg).

Lemma sheet_id_parent_wipes_tmpdir_witness :
  let env := sample_env (fun _ => true) (fun _ => Closed) in
  let s := fs_run env ["/"; "/tmp"; "/tmp/notes.txt"] (pre_readdir env escape_cfg) in
  ~ In "/tmp/notes.txt" s /\ fs_pre s (Readdir "/tmp/gs2imgx-Xa31Qz") = false.
Proof.
  intros env s.
  destruct (sheet_id_parent_wipes_tmpdir env escape_cfg ["/"; "/tmp"; "/tmp/notes.txt"] ["tmp"] "x"
              ltac:(sample_hyps) ltac:(sample_hyps) ltac:(sample_hyps) ltac:(sample_hyps)
              ltac:(sample_hyps) ltac:(sample_hyps) ltac:(sample_hyps) ltac:(sample_hyps)
              (pre_readdir env escape_cfg)
              [Launch; RenderLoop "/tmp/gs2imgx-Xa31Qz" "out" ["Sheet1"]; BrowserClose;
               Rm "/tmp/gs2imgx-Xa31Qz"] ltac:(sample_hyps)) as [Hgone Hfail].
  split; [intros H; apply Hgone in H; discriminate H | exact Hfail].
Defined.

Lemma rejected_run_leaves_extracted_tree_witness :
  In "/tmp/gs2imgx-Xa31Qz"
    (fs_run (sample_env (fun _ => true) (fun _ => Crashed)) sample_fs
       (trace_of (main (sample_env (fun _ => true) (fun _ => Crashed)) sample_cfg))).
Proof.
  refine (proj1 (rejected_run_leaves_extracted_tree (sample_env (fun _ => true) (fun _ => Crashed))
                   sample_cfg sample_fs ["tmp"] _ _ _ _ _ _ _ _ _)); try solve [sample_hyps].
  discriminate.
Defined.

End FsRun.
