(* ===== verification/RunOutput.v ===== *)
(** * RunOutput: the images a completed run leaves in the output directory

    The render loop is one event of [Main]'s trace.  Its effect on the file
    system is the set of files its jobs write: [page.screenshot({ path:
    pngPath, clip })] (line 66) writes [pngPath] when the call resolves
    ([job_files]), and the jobs of the loop are those of [Orchestrator]
    ([job_of], line 93).  A run that ends [Closed] has completed every job
    of the selected sheets ([Main.closed_completed]), so the loop of such a run
    writes the files of all of them ([loop_files]).  [fs_run_loop] runs a
    trace of [main] on [FsState]'s file system with the render loop
    writing a given list of files. *)

From Stdlib Require Import String Ascii List Arith Lia Permutation ZArith QArith.
From S2P Require Import Prelude NodePath NodeJoin Selector Geometry RenderJob Scheduler Orchestrator Main FsState FsRun.
Import ListNotations.
Import NodePath NodeJoin Selector Geometry RenderJob Scheduler Orchestrator Main FsState FsRun.
Open Scope string_scope.
Open Scope bool_scope.

Module RunOutput.

(** ** The files of the render loop *)

(** The files a job writes: its [page.screenshot] calls that resolved. *)
Definition job_files (env : page_env) (t : list call) : list string :=
  flat_map (fun c => match c with Screenshot p _ => if capture_ok env then [p] else [] | _ => [] end) t.

(** The files the jobs [js] of the render loop over [sheets] write. *)
Definition loop_files (x out : string) (pages : string -> page_env) (sheets : list string)
    (js : list nat) : list string :=
  flat_map (fun i => job_files (pages (nth i sheets "")) (trace_of (job_of x out pages sheets i))) js.

(** The state after the calls of a trace of [main], the render loop writing
    the files [w]. *)
Definition fs_run_loop (env : io_env) (w : list string) (s : fs) (t : list io_call) : fs :=
  fold_left (fun s c => match c with
                        | RenderLoop _ _ _ => (w ++ s)%list
                        | _ => if io_ok env c then fs_apply env s c else s
                        end) t s.

(** A sheet whose job captures its image: the page opened and navigated,
    the layout was found, and the resize and the capture succeeded. *)
Definition captured (env : page_env) : Prop :=
  new_page_ok env = true /\ goto_ok env = true /\ resize_ok env = true /\
  capture_ok env = true /\ layout env <> None.

Definition is_loop (c : io_call) : bool := match c with RenderLoop _ _ _ => true | _ => false end.

(** ** Lemmas *)

Lemma fs_run_loop_app env w s t1 t2 :
  fs_run_loop env w s (t1 ++ t2) = fs_run_loop env w (fs_run_loop env w s t1) t2.
Proof. apply fold_left_app. Qed.

(** Without the render loop, [fs_run_loop] is [fs_run]. *)
Lemma fs_run_loop_no_loop env w s t :
  forallb (fun c => negb (is_loop c)) t = true -> fs_run_loop env w s t = fs_run env s t.
Proof.
  revert s. induction t as [|c t IH]; intros s H; [reflexivity|].
  simpl in H. apply andb_prop in H as [Hc Ht].
  destruct c; try discriminate; apply IH, Ht.
Qed.

Lemma forallb_flat_map {A B} (f : B -> bool) (g : A -> list B) l :
  forallb f (flat_map g l) = forallb (fun a => forallb f (g a)) l.
Proof. induction l as [|a l IH]; [reflexivity|]. simpl. rewrite forallb_app, IH. reflexivity. Qed.

Lemma setup_no_loop env cfg : forallb (fun c => negb (is_loop c)) (setup_trace env cfg) = true.
Proof.
  unfold setup_trace. rewrite !forallb_app, forallb_flat_map.
  replace (forallb _ (entries env)) with true; [reflexivity|].
  symmetry. apply forallb_forall. intros e _. unfold entry_calls. destruct (ends_with_slash e); reflexivity.
Qed.

Lemma job_files_In env t p :
  In p (job_files env t) <-> (exists c, In (Screenshot p c) t) /\ capture_ok env = true.
Proof.
  unfold job_files. rewrite in_flat_map. split.
  - intros [c [Hc Hp]]. destruct c; try destruct Hp.
    destruct (capture_ok env) eqn:E; [|destruct Hp]. destruct Hp as [<-|[]]. eauto.
  - intros [[c Hc] E]. exists (Screenshot p c). rewrite E. split; [exact Hc | left; reflexivity].
Qed.

(** The file a job of the loop writes is its sheet's image, when it
    captured. *)
Lemma job_of_files x out pages sheets i p :
  In p (job_files (pages (nth i sheets "")) (trace_of (job_of x out pages sheets i))) <->
  captured (pages (nth i sheets "")) /\ p = join out (nth i sheets "" ++ ".jpg").
Proof.
  rewrite job_files_In. unfold job_of. set (s := nth i sheets ""). unfold captured. split.
  - intros [[c Hc] Hcap]. apply screenshot_capture_In in Hc as (H1 & H2 & H3 & H4 & H5).
    rewrite H4. repeat split; auto; discriminate.
  - intros [(H1 & H2 & H3 & H4 & H5) ->]. split; [|exact H4].
    destruct (layout (pages s)) as [c|] eqn:Hl; [|contradiction].
    exists c. apply screenshot_capture_In. auto.
Qed.

(** The files of all the jobs of the loop: one image per captured sheet. *)
Lemma loop_files_all x out pages sheets js p :
  Permutation js (seq 0 (length sheets)) ->
  In p (loop_files x out pages sheets js) <->
  exists s, In s sheets /\ captured (pages s) /\ p = join out (s ++ ".jpg").
Proof.
  intros Hjs. unfold loop_files. rewrite in_flat_map. split.
  - intros [i [Hi Hp]]. apply job_of_files in Hp as [Hc ->].
    apply (Permutation_in _ Hjs), in_seq in Hi.
    exists (nth i sheets ""). split; [apply nth_In; lia | auto].
  - intros [s [Hs [Hc ->]]]. destruct (In_nth _ _ "" Hs) as [i [Hi <-]].
    exists i. split; [apply (Permutation_in _ (Permutation_sym Hjs)), in_seq; lia|].
    apply job_of_files. auto.
Qed.

(** ** A completed run *)

Section Completed.
Variables (env : io_env) (cfg : config) (fs0 : fs) (pages : string -> page_env) (st : state).
Hypothesis Hok : forall c, io_ok env c = true.
Hypothesis Hrun : loop_run env cfg pages st.
Hypothesis Hclosed : pc st = Closed.
(** [rm(extractedDir)] does not reach the output directory's images. *)
Hypothesis Himg : forall s, In s (selected env cfg) ->
  under (resolve (extracted_dir env)) (join (normalize (outputDir cfg)) (s ++ ".jpg")) = false.

(** C23: A run whose render loop completes leaves on the file system what
    its calls leave ([FsRun.completed_run_removes_temp_dirs] says what that
    is) and, besides, exactly one image per selected sheet whose page
    captured: [join(outputDir, sheetName + '.jpg')]; no other file of the
    loop remains. *)
Theorem completed_run_writes_images p :
  In p (fs_run_loop env (loop_files (extracted_dir env) (normalize (outputDir cfg)) pages
                           (selected env cfg) (completed st))
          fs0 (trace_of (main env cfg))) <->
  In p (fs_run env fs0 (trace_of (main env cfg))) \/
  exists s, In s (selected env cfg) /\ captured (pages s) /\
            p = join (normalize (outputDir cfg)) (s ++ ".jpg").
Proof.
  destruct Hrun as [R [_ Hend]].
  rewrite (main_closed env Hok cfg) by (rewrite Hend; exact Hclosed). cbn [trace_of fst].
  rewrite fs_run_loop_app, fs_run_app, (fs_run_loop_no_loop env _ fs0 _ (setup_no_loop env cfg)).
  set (S := fs_run env fs0 (setup_trace env cfg)).
  unfold fs_run_loop, fs_run. cbn [fold_left]. rewrite !Hok. cbn [fs_apply].
  rewrite !filter_In, in_app_iff, (loop_files_all _ _ _ _ _ _ (closed_completed _ _ _ st R Hclosed)).
  split.
  - intros [[H|H] Hu]; [right; exact H | left; auto].
  - intros [[H Hu]|[s [Hs [Hc ->]]]]; [auto|].
    split; [left; eauto | rewrite Himg by exact Hs; reflexivity].
Qed.

End Completed.

(** ** A concrete run

    The sample spreadsheet of [Main], its one tab laid out with a row
    header 46 wide before a body 1046 wide. *)
Definition shot_page : page_env :=
  mk_page_env true true (Some (Some (mk_rect 0%Q 20%Q 46%Q 600%Q)))
    (Some (Some (mk_rect 0%Q 20%Q 1046%Q 600%Q))) true true true.

Lemma shot_loop_run :
  loop_run (sample_env (fun _ => true) (fun _ => Closed)) sample_cfg (fun _ => shot_page) sample_closed_state.
Proof.
  split; [apply one_sheet_closed; reflexivity|].
  split; [intros st'; apply final_no_step; left; reflexivity | reflexivity].
Qed.

Lemma completed_run_writes_images_witness :
  let env := sample_env (fun _ => true) (fun _ => Closed) in
  In "out/Sheet1.jpg"
    (fs_run_loop env (loop_files (extracted_dir env) (normalize (outputDir sample_cfg)) (fun _ => shot_page)
                        (selected env sample_cfg) (completed sample_closed_state))
       ["/"; "/tmp"] (trace_of (main env sample_cfg))).
Proof.
  intros env.
  refine (proj2 (completed_run_writes_images env sample_cfg ["/"; "/tmp"] (fun _ => shot_page) sample_closed_state
                   (fun _ => eq_refl) shot_loop_run eq_refl _ "out/Sheet1.jpg") _).
  - intros s Hs. vm_compute in Hs. destruct Hs as [<-|[]]. vm_compute. reflexivity.
  - right. exists "Sheet1". split; [left; reflexivity|].
    split; [repeat split; vm_compute; discriminate | reflexivity].
Defined.

End RunOutput.
